(** * GOWebServer: request parser, keep-alive loop, static file server and
      compression middleware, embedded from the Go sources.

    Go strings and byte slices are byte sequences and are modelled as [string]
    (a list of 8-bit [ascii] values); Go [int]/[int64] values are modelled as
    [Z]; a Go [map[string]string] is a [gmap string string]. *)

From Stdlib Require Import ZArith Ascii String List Lia Bool.
From stdpp Require Import base gmap strings list pretty.

(** ** Bytes used by the wire format *)

Definition byte_TAB : ascii := "009"%char.
Definition byte_LF : ascii := "010"%char.
Definition byte_VT : ascii := "011"%char.
Definition byte_FF : ascii := "012"%char.
Definition byte_CR : ascii := "013"%char.

Definition CRLF : string := String byte_CR (String byte_LF "").
Definition CRLFCRLF : string := CRLF +:+ CRLF.
Definition LFLF : string := String byte_LF (String byte_LF "").

(** ** Package [strings] / [bytes] of the Go library

    The functions below follow the Go library on ASCII data.  The separators
    the server passes to [Split] and [SplitN] are single bytes, so the
    separator is an [ascii].  White space and letter case are the ASCII ones
    (the Go functions also know the Unicode ones; HTTP header blocks are
    ASCII). *)

Module GoStrings.

(** [len(s)] *)
Definition len (s : string) : Z := Z.of_nat (String.length s).

(** [s[:n]] *)
Fixpoint slice_to (n : nat) (s : string) : string :=
  match n, s with
  | S n', String c rest => String c (slice_to n' rest)
  | _, _ => EmptyString
  end.

(** [s[n:]] *)
Fixpoint slice_from (n : nat) (s : string) : string :=
  match n, s with
  | S n', String _ rest => slice_from n' rest
  | _, _ => s
  end.

Fixpoint HasPrefix (s prefix : string) {struct prefix} : bool :=
  match prefix, s with
  | EmptyString, _ => true
  | String p ps, String c cs => Ascii.eqb p c && HasPrefix cs ps
  | String _ _, EmptyString => false
  end.

Definition TrimPrefix (s prefix : string) : string :=
  if HasPrefix s prefix then slice_from (String.length prefix) s else s.

(** [strings.Index] / [bytes.Index]: [None] stands for Go's [-1]. *)
Fixpoint Index (s substr : string) : option nat :=
  if HasPrefix s substr then Some 0%nat
  else match s with
       | EmptyString => None
       | String _ rest => S <$> Index rest substr
       end.

Definition Contains (s substr : string) : bool :=
  match Index s substr with Some _ => true | None => false end.

Fixpoint IndexByte (s : string) (c : ascii) : option nat :=
  match s with
  | EmptyString => None
  | String d rest => if Ascii.eqb d c then Some 0%nat else S <$> IndexByte rest c
  end.

(** [strings.Split(s, sep)] for a one-byte separator. *)
Fixpoint Split (s : string) (sep : ascii) : list string :=
  match s with
  | EmptyString => [EmptyString]
  | String c rest =>
      if Ascii.eqb c sep then EmptyString :: Split rest sep
      else match Split rest sep with
           | first :: others => String c first :: others
           | [] => [String c EmptyString]
           end
  end.

(** [strings.SplitN(s, sep, 2)] for a one-byte separator. *)
Definition SplitN2 (s : string) (sep : ascii) : list string :=
  match IndexByte s sep with
  | None => [s]
  | Some i => [slice_to i s; slice_from (S i) s]
  end.

Definition isSpace (c : ascii) : bool :=
  Ascii.eqb c byte_TAB || Ascii.eqb c byte_LF || Ascii.eqb c byte_VT
  || Ascii.eqb c byte_FF || Ascii.eqb c byte_CR || Ascii.eqb c " ".

Fixpoint TrimLeftSpace (s : string) : string :=
  match s with
  | String c rest => if isSpace c then TrimLeftSpace rest else s
  | EmptyString => EmptyString
  end.

Fixpoint TrimRightSpace (s : string) : string :=
  match s with
  | EmptyString => EmptyString
  | String c rest =>
      match TrimRightSpace rest with
      | EmptyString => if isSpace c then EmptyString else String c EmptyString
      | kept => String c kept
      end
  end.

Definition TrimSpace (s : string) : string := TrimRightSpace (TrimLeftSpace s).

(** [strings.Fields]: the maximal runs of non-space bytes. *)
Fixpoint Fields (s : string) : list string :=
  match s with
  | EmptyString => []
  | String c rest =>
      if isSpace c then Fields rest
      else match rest with
           | EmptyString => [String c EmptyString]
           | String c' _ =>
               if isSpace c' then String c EmptyString :: Fields rest
               else match Fields rest with
                    | f :: fs => String c f :: fs
                    | [] => [String c EmptyString]
                    end
           end
  end.

Definition toLowerByte (c : ascii) : ascii :=
  let n := nat_of_ascii c in
  if (65 <=? n)%nat && (n <=? 90)%nat then ascii_of_nat (n + 32) else c.

Fixpoint ToLower (s : string) : string :=
  match s with
  | EmptyString => EmptyString
  | String c rest => String (toLowerByte c) (ToLower rest)
  end.

End GoStrings.

(** ** Package [strconv] and the [%d] verb of [fmt] *)

Module GoStrconv.

Definition digitVal (c : ascii) : option Z :=
  let n := nat_of_ascii c in
  if (48 <=? n)%nat && (n <=? 57)%nat then Some (Z.of_nat n - 48)%Z else None.

(** The digit loop of [strconv.ParseUint] in base 10, on unbounded integers;
    the range check is made by the callers on the result. *)
Fixpoint parseDigits (acc : Z) (s : string) : option Z :=
  match s with
  | EmptyString => Some acc
  | String c rest =>
      match digitVal c with
      | Some d => parseDigits (acc * 10 + d)%Z rest
      | None => None
      end
  end.

Definition maxInt64 : Z := 9223372036854775807%Z.

(** [strconv.ParseInt(s, 10, 64)]: an optional sign, then one or more
    decimal digits; [None] is any error (syntax or range). *)
Definition ParseInt (s : string) : option Z :=
  match s with
  | EmptyString => None
  | String c rest =>
      let neg := Ascii.eqb c "-" in
      let digits := if Ascii.eqb c "+" || neg then rest else s in
      match digits with
      | EmptyString => None
      | _ =>
          match parseDigits 0 digits with
          | None => None
          | Some un =>
              if neg then (if (un <=? maxInt64 + 1)%Z then Some (- un)%Z else None)
              else (if (un <=? maxInt64)%Z then Some un else None)
          end
      end
  end.

(** [fmt.Sprintf("%d", n)] *)
Definition FormatInt (n : Z) : string := pretty n.

(** The token [fmt]'s scanner collects for [%d]: an optional sign followed
    by the longest run of bytes among the decimal digits and [_]. *)
Definition isScanDigit (c : ascii) : bool :=
  match digitVal c with Some _ => true | None => Ascii.eqb c "_" end.

Fixpoint scanNumber (s : string) : string :=
  match s with
  | String c rest => if isScanDigit c then String c (scanNumber rest) else EmptyString
  | EmptyString => EmptyString
  end.

(** [var n int; fmt.Sscanf(s, "%d", &n)] with the error dropped: the value
    left in [n], which stays [0] when the scan fails. *)
Definition Sscanf_d (s : string) : Z :=
  let tok :=
    match s with
    | String c rest =>
        if Ascii.eqb c "+" || Ascii.eqb c "-" then String c (scanNumber rest)
        else scanNumber s
    | EmptyString => EmptyString
    end in
  match ParseInt tok with
  | Some n => n
  | None => 0%Z
  end.

End GoStrconv.

(** ** Package [path/filepath] of the Go library (Unix) *)

Module GoFilepath.

Definition Separator : ascii := "/"%char.

Definition IsPathSeparator (c : ascii) : bool := Ascii.eqb c Separator.

Definition isDot (c : ascii) : bool := Ascii.eqb c "."%char.

(** [r == n || os.IsPathSeparator(path[r])] for the unread part of the path *)
Definition atElementEnd (path : list ascii) : bool :=
  match path with
  | [] => true
  | c :: _ => IsPathSeparator c
  end.

(** The [lazybuf] of [Clean] is kept as the list of the bytes written so
    far, last byte first; [out.w] is its length.

    [out.w--; for out.w > dotdot && !os.IsPathSeparator(out.index(out.w)) { out.w-- }] *)
Fixpoint backtrack (out : list ascii) (dotdot : nat) : list ascii :=
  match out with
  | [] => []
  | c :: rest =>
      if (dotdot <? length rest)%nat && negb (IsPathSeparator c)
      then backtrack rest dotdot
      else rest
  end.

(** [if rooted && out.w != 1 || !rooted && out.w != 0 { out.append(Separator) }] *)
Definition addSeparator (rooted : bool) (out : list ascii) : list ascii :=
  if (rooted && negb (length out =? 1)%nat) || (negb rooted && negb (length out =? 0)%nat)
  then Separator :: out else out.

(** The main loop of [Clean], on the unread part of the path.  [copyElement]
    is the inner loop that copies a real path element; when it stops at a
    separator, the separator is skipped at once (the main loop would skip it
    as an empty element in its next round). *)
Fixpoint cleanLoop (rooted : bool) (path out : list ascii) (dotdot : nat)
  {struct path} : list ascii * nat :=
  match path with
  | [] => (out, dotdot)
  | c :: rest =>
      if IsPathSeparator c then
        (* empty path element *)
        cleanLoop rooted rest out dotdot
      else if isDot c && atElementEnd rest then
        (* . element *)
        cleanLoop rooted rest out dotdot
      else
        match rest with
        | c' :: rest' =>
            if isDot c && isDot c' && atElementEnd rest' then
              (* .. element: remove to last separator *)
              if (dotdot <? length out)%nat then
                cleanLoop rooted rest' (backtrack out dotdot) dotdot
              else if negb rooted then
                let out1 := if (0 <? length out)%nat then Separator :: out else out in
                let out2 := "."%char :: "."%char :: out1 in
                cleanLoop rooted rest' out2 (length out2)
              else
                cleanLoop rooted rest' out dotdot
            else
              copyElement rooted rest (c :: addSeparator rooted out) dotdot
        | [] =>
            copyElement rooted rest (c :: addSeparator rooted out) dotdot
        end
  end
with copyElement (rooted : bool) (path out : list ascii) (dotdot : nat)
  {struct path} : list ascii * nat :=
  match path with
  | [] => (out, dotdot)
  | c :: rest =>
      if IsPathSeparator c then cleanLoop rooted rest out dotdot
      else copyElement rooted rest (c :: out) dotdot
  end
.

(** [filepath.Clean]; on Unix there is no volume name and [FromSlash] is
    the identity. *)
Definition Clean (path : string) : string :=
  match list_ascii_of_string path with
  | [] => "."
  | c :: rest =>
      let rooted := IsPathSeparator c in
      let final :=
        if rooted then cleanLoop true rest [Separator] 1
        else cleanLoop false (c :: rest) [] 0 in
      match fst final with
      | [] => "."
      | out => string_of_list_ascii (rev out)
      end
  end.

(** [filepath.Join(a, b)]: the first non-empty element onwards, joined with
    the separator and cleaned. *)
Definition Join (a b : string) : string :=
  if decide (a = "") then
    if decide (b = "") then "" else Clean b
  else Clean (a +:+ String Separator b).

Definition hasSeparator (s : string) : bool :=
  existsb IsPathSeparator (list_ascii_of_string s).

(** [filepath.Ext]: the suffix beginning at the final dot of the final
    element of the path, empty if there is no dot. *)
Fixpoint Ext (path : string) : string :=
  match path with
  | EmptyString => EmptyString
  | String c rest =>
      match Ext rest with
      | EmptyString => if isDot c && negb (hasSeparator rest) then path else EmptyString
      | e => e
      end
  end.

End GoFilepath.

(** ** Package [time]: instants

    A [Time] is the number of nanoseconds since Go's zero time (January 1,
    year 1, 00:00:00 UTC).  Parsing and formatting of dates are operations of
    the Go library and are taken from the environment. *)

Module GoTime.

Definition Time := Z.

Definition Second : Z := 1000000000%Z.

Definition IsZero (t : Time) : bool := (t =? 0)%Z.

(** [t.Truncate(time.Second)]: rounding down to a multiple of a second
    since the zero time. *)
Definition TruncateSecond (t : Time) : Time := (t - t mod Second)%Z.

(** [t.After(u)] *)
Definition After (t u : Time) : bool := (u <? t)%Z.

Definition RFC1123 : string := "Mon, 02 Jan 2006 15:04:05 MST".
Definition RFC850 : string := "Monday, 02-Jan-06 15:04:05 MST".
Definition ANSIC : string := "Mon Jan _2 15:04:05 2006".

End GoTime.

(** ** Package [protocol]: versions, requests, responses *)

Module Protocol.

Definition HTTPVersion := string.

Definition HTTP10 : HTTPVersion := "HTTP/1.0".
Definition HTTP11 : HTTPVersion := "HTTP/1.1".
Definition HTTP2 : HTTPVersion := "HTTP/2.0".

Record ProtocolConfig := {
  cfg_Version : HTTPVersion;
  cfg_KeepAlive : bool;
  cfg_MaxConnections : Z;
  cfg_ConnectionTimeout : Z
}.

Definition NewHTTP10Config : ProtocolConfig :=
  {| cfg_Version := HTTP10; cfg_KeepAlive := false;
     cfg_MaxConnections := 100; cfg_ConnectionTimeout := 30 |}.

Definition NewHTTP11Config : ProtocolConfig :=
  {| cfg_Version := HTTP11; cfg_KeepAlive := true;
     cfg_MaxConnections := 1000; cfg_ConnectionTimeout := 60 |}.

Record Request := {
  req_Method : string;
  req_Path : string;
  req_Version : HTTPVersion;
  req_Headers : gmap string string;
  req_Body : string
}.

Record Response := {
  resp_Version : HTTPVersion;
  resp_StatusCode : Z;
  resp_Status : string;
  resp_Headers : gmap string string;
  resp_Body : string
}.

(** [m[k]] on a Go map of strings: the empty string for a missing key. *)
Definition header (m : gmap string string) (k : string) : string :=
  default "" (m !! k).

Definition setHeader (k v : string) (resp : Response) : Response :=
  {| resp_Version := resp_Version resp; resp_StatusCode := resp_StatusCode resp;
     resp_Status := resp_Status resp; resp_Headers := <[k := v]> (resp_Headers resp);
     resp_Body := resp_Body resp |}.

Definition setBody (body : string) (resp : Response) : Response :=
  {| resp_Version := resp_Version resp; resp_StatusCode := resp_StatusCode resp;
     resp_Status := resp_Status resp; resp_Headers := resp_Headers resp;
     resp_Body := body |}.

Definition setVersion (v : HTTPVersion) (resp : Response) : Response :=
  {| resp_Version := v; resp_StatusCode := resp_StatusCode resp;
     resp_Status := resp_Status resp; resp_Headers := resp_Headers resp;
     resp_Body := resp_Body resp |}.

Definition NewResponse (statusCode : Z) (status : string) (version : HTTPVersion)
    (body : string) : Response :=
  {| resp_Version := version; resp_StatusCode := statusCode; resp_Status := status;
     resp_Headers := ∅; resp_Body := body |}.

Inductive error :=
| IOError
| Errorf (msg : string).

Inductive result (A : Type) :=
| Ok (a : A)
| Err (e : error).
Arguments Ok {A} a.
Arguments Err {A} e.

End Protocol.
Import Protocol.

(** ** Package [tcp]: the connection

    A connection is seen from the worker that owns it.  [pending] lists what
    the coming [Read] calls return, one entry per call: the bytes the call
    delivers into the 4096-byte buffer of the parser (an empty entry is a
    read of zero bytes); when the list is exhausted the next [Read] fails
    (the read deadline expires).  [written] is what the worker has sent, one
    response per entry: the header block and the bytes that follow it.
    [writeResults] are the outcomes of the coming [Write] calls ([false]: the
    call fails); when exhausted, writes succeed. *)

Module Tcp.

Record TCPConn := {
  pending : list string;
  written : list Response;
  writeResults : list bool
}.

Definition bufferSize : Z := 4096%Z.

Definition conn_wf (c : TCPConn) : Prop :=
  Forall (fun chunk => (GoStrings.len chunk <= bufferSize)%Z) (pending c).

Definition withPending (p : list string) (c : TCPConn) : TCPConn :=
  {| pending := p; written := written c; writeResults := writeResults c |}.

(** [conn.Write]: the whole response is sent by one call *)
Definition Write (c : TCPConn) (resp : Response) : TCPConn * option error :=
  match writeResults c with
  | false :: rest =>
      ({| pending := pending c; written := written c; writeResults := rest |},
       Some IOError)
  | true :: rest =>
      ({| pending := pending c; written := written c ++ [resp]; writeResults := rest |},
       None)
  | [] =>
      ({| pending := pending c; written := written c ++ [resp]; writeResults := [] |},
       None)
  end.

End Tcp.
Import Tcp.

(** ** Package [tcp]: addresses *)

Module TcpAddr.

Record TCPAddr := {
  IP : string;
  Port : Z;
  Zone : string
}.

Definition Network (a : TCPAddr) : string := "tcp".

(** The method [String] of an address; [None] is the nil pointer. *)
Definition String_ (a : option TCPAddr) : string :=
  match a with
  | None => "<nil>"
  | Some a => IP a +:+ ":" +:+ GoStrconv.FormatInt (Port a)
  end.

(** [strings.LastIndex(s, sep)] for a one-byte separator; [None] stands for
    Go's [-1]. *)
Fixpoint LastIndexByte (s : string) (c : ascii) : option nat :=
  match s with
  | EmptyString => None
  | String d rest =>
      match LastIndexByte rest c with
      | Some i => Some (S i)
      | None => if Ascii.eqb d c then Some 0%nat else None
      end
  end.

Definition splitHostPort (address : string) : result (string * string) :=
  match LastIndexByte address ":" with
  | None => Err (Errorf "missing port in address")
  | Some lastColon =>
      let host := GoStrings.slice_to lastColon address in
      let port := GoStrings.slice_from (S lastColon) address in
      let host := if decide (host = "") then "0.0.0.0" else host in
      Ok (host, port)
  end.

(** [strconv.Atoi]: [ParseInt(s, 10, 0)], an [int] having 64 bits. *)
Definition Atoi (s : string) : option Z := GoStrconv.ParseInt s.

Definition ResolveTCPAddr (network address : string) : result TCPAddr :=
  if negb (String.eqb network "tcp") && negb (String.eqb network "tcp4")
     && negb (String.eqb network "tcp6") then
    Err (Errorf ("unsupported network: " +:+ network))
  else
    match splitHostPort address with
    | Err err => Err err
    | Ok (host, portStr) =>
        match Atoi portStr with
        | None => Err (Errorf ("invalid port: " +:+ portStr))
        | Some port =>
            let host := if decide (host = "") then "0.0.0.0" else host in
            Ok {| IP := host; Port := port; Zone := "" |}
        end
    end.

End TcpAddr.
Import TcpAddr.

(** ** [protocol.ParseRequest] *)

Module Parser.

Definition MaxRequestSize : Z := 1048576%Z.
Definition MaxHeaderSize : Z := 16384%Z.

(** The first loop of [ParseRequest]: read until the header block is
    complete.  Returns the accumulated bytes and the reads still pending. *)
Fixpoint readHeaders (pending : list string) (allData : string)
  : result (string * list string) :=
  match pending with
  | [] => Err IOError
  | chunk :: rest =>
      let allData := allData +:+ chunk in
      if (MaxRequestSize <? GoStrings.len allData)%Z then
        Err (Errorf "request size exceeded limit")
      else if (MaxHeaderSize <? GoStrings.len allData)%Z
              && negb (GoStrings.Contains allData CRLFCRLF) then
        Err (Errorf "request header size exceeded limit")
      else if GoStrings.Contains allData CRLFCRLF then Ok (allData, rest)
      else if GoStrings.Contains allData LFLF then Ok (allData, rest)
      else readHeaders rest allData
  end.

(** The split of the accumulated bytes into header section and body
    section, at the first terminator. *)
Definition splitSections (allData : string) : option (string * string) :=
  match GoStrings.Index allData CRLFCRLF with
  | Some idx => Some (GoStrings.slice_to idx allData, GoStrings.slice_from (idx + 4) allData)
  | None =>
      match GoStrings.Index allData LFLF with
      | Some idx => Some (GoStrings.slice_to idx allData, GoStrings.slice_from (idx + 2) allData)
      | None => None
      end
  end.

(** One round of the header loop, on [lines[i]]. *)
Definition parseHeaderLine (headers : gmap string string) (rawLine : string)
  : gmap string string :=
  let line := GoStrings.TrimSpace rawLine in
  if decide (line = "") then headers
  else match GoStrings.SplitN2 line ":" with
       | [name; value] =>
           <[GoStrings.TrimSpace name := GoStrings.TrimSpace value]> headers
       | _ => headers
       end.

Definition parseHeaders (lines : list string) : gmap string string :=
  fold_left parseHeaderLine lines ∅.

(** The second loop of [ParseRequest]:
    [for len(currentBodyBytes) < expectedLength { read; append }] *)
Fixpoint readBody (pending : list string) (currentBodyBytes : string)
    (expectedLength : Z) : result (string * list string) :=
  if (GoStrings.len currentBodyBytes <? expectedLength)%Z then
    match pending with
    | [] => Err IOError
    | chunk :: rest => readBody rest (currentBodyBytes +:+ chunk) expectedLength
    end
  else Ok (currentBodyBytes, pending).

Definition ParseRequest (conn : TCPConn) : result (Request * TCPConn) :=
  match readHeaders (pending conn) "" with
  | Err e => Err e
  | Ok (allData, pending1) =>
      match splitSections allData with
      | None => Err (Errorf "invalid request format")
      | Some (headerSection, bodySectionBytes) =>
          match GoStrings.Split headerSection byte_LF with
          | [] => Err (Errorf "invalid request")
          | firstLine :: headerLines =>
              let requestLine := GoStrings.TrimSpace firstLine in
              match GoStrings.Fields requestLine with
              | method :: path :: version :: _ =>
                  let headers := parseHeaders headerLines in
                  let req body :=
                    {| req_Method := method; req_Path := path; req_Version := version;
                       req_Headers := headers; req_Body := body |} in
                  match headers !! "Content-Length" with
                  | Some contentLength =>
                      let expectedLength := GoStrconv.Sscanf_d contentLength in
                      if (0 <? expectedLength)%Z then
                        match readBody pending1 bodySectionBytes expectedLength with
                        | Err e => Err e
                        | Ok (currentBodyBytes, pending2) =>
                            Ok (req (GoStrings.slice_to (Z.to_nat expectedLength)
                                       currentBodyBytes),
                                withPending pending2 conn)
                        end
                      else Ok (req "", withPending pending1 conn)
                  | None =>
                      (* No Content-Length, use what we have *)
                      Ok (req bodySectionBytes, withPending pending1 conn)
                  end
              | _ => Err (Errorf "invalid request line")
              end
          end
      end
  end.

End Parser.
Import Parser.

(** ** The environment of the server

    What the Go library and the operating system answer: the file system
    under the working directory, the clock, date parsing and formatting, the
    MIME table and the gzip encoder.  A file is its content; [os_Stat] gives
    the metadata the file server reads. *)

Module Env.

Record FileInfo := {
  fi_IsDir : bool;
  fi_ModTime : GoTime.Time;
  fi_Size : Z
}.

Inductive StatResult :=
| StatNotExist
| StatError
| StatInfo (fi : FileInfo).

Record World := {
  os_Stat : string -> StatResult;
  (** [os.ReadFile]: [None] is an error *)
  os_ReadFile : string -> option string;
  (** [os.Open]: the content of the opened file, [None] is an error *)
  os_Open : string -> option string;
  time_Now : GoTime.Time;
  (** [time.Parse(layout, value)] *)
  time_Parse : string -> string -> option GoTime.Time;
  (** [t.UTC().Format(time.RFC1123)] *)
  time_Format : GoTime.Time -> string;
  mime_TypeByExtension : string -> string;
  (** the gzip encoder of [compressContent]; [None] is an error *)
  gzip_Compress : string -> option string
}.

End Env.
Import Env.

(** [protocol.WriteResponse] *)
Definition WriteResponse (w : World) (conn : TCPConn) (resp : Response)
  : TCPConn * option error :=
  let resp := setHeader "Content-Length"
                (GoStrconv.FormatInt (GoStrings.len (resp_Body resp))) resp in
  let resp := setHeader "Date" (time_Format w (time_Now w)) resp in
  let resp := setHeader "Server" "GoWebServer/1.0" resp in
  Write conn resp.

(** ** Package [handler]: the compression middleware *)

Module Compress.

Definition minSizeForCompression : Z := 1024%Z.

Definition compressibleTypes : list string :=
  [ "text/html"; "text/css"; "text/javascript"; "text/plain"; "text/xml";
    "application/json"; "application/javascript"; "application/xml";
    "application/xml+rss"; "application/xhtml+xml"; "image/svg+xml" ].

Definition shouldCompress (contentType : string) : bool :=
  let ct := GoStrings.ToLower (hd "" (GoStrings.Split contentType ";")) in
  let ct := GoStrings.TrimSpace ct in
  existsb (fun compressible => String.eqb ct compressible) compressibleTypes.

Definition acceptsGzip (acceptEncoding : string) : bool :=
  if decide (acceptEncoding = "") then false
  else
    let encodings := GoStrings.Split (GoStrings.ToLower acceptEncoding) "," in
    existsb (fun encoding =>
               String.eqb (GoStrings.TrimSpace encoding) "gzip"
               || GoStrings.HasPrefix (GoStrings.TrimSpace encoding) "gzip;")
            encodings.

Definition compressContent (w : World) (content : string) : option string :=
  gzip_Compress w content.

(** [CompressResponse] updates the response in place; here it returns the
    updated response. *)
Definition CompressResponse (w : World) (resp : Response) (req : Request) : Response :=
  if decide (resp_Body resp = "") then resp
  else if negb (String.eqb (header (resp_Headers resp) "Content-Encoding") "") then resp
  else
    let contentType := header (resp_Headers resp) "Content-Type" in
    let contentType := if decide (contentType = "") then "text/plain" else contentType in
    let bodyBytes := resp_Body resp in
    let shouldGzip :=
      acceptsGzip (header (req_Headers req) "Accept-Encoding")
      && shouldCompress contentType
      && (minSizeForCompression <=? GoStrings.len bodyBytes)%Z in
    if negb shouldGzip then
      if shouldCompress contentType then setHeader "Vary" "Accept-Encoding" resp
      else resp
    else
      match compressContent w bodyBytes with
      | None => setHeader "Vary" "Accept-Encoding" resp
      | Some compressed =>
          if (GoStrings.len bodyBytes <=? GoStrings.len compressed)%Z then
            setHeader "Vary" "Accept-Encoding" resp
          else
            let resp := setBody compressed resp in
            let resp := setHeader "Content-Encoding" "gzip" resp in
            let resp := setHeader "Content-Length"
                          (GoStrconv.FormatInt (GoStrings.len compressed)) resp in
            setHeader "Vary" "Accept-Encoding" resp
      end.

End Compress.
Import Compress.

(** ** Package [handler]: the static file server *)

Module FileServer.

Definition MaxInMemorySize : Z := (1024 * 1024)%Z.

Record FileServer := { root : string }.

Definition NewFileServer (root : string) : FileServer := {| root := root |}.

(** The calls a handler makes to the file system, in order. *)
Inductive FsCall :=
| CallStat (path : string)
| CallReadFile (path : string)
| CallOpen (path : string).

Definition callPath (c : FsCall) : string :=
  match c with
  | CallStat p | CallReadFile p | CallOpen p => p
  end.

(** What a streaming handler leaves behind: the connection, the error it
    returns ([None] is Go's [nil]) and the file system calls it made. *)
Record Outcome := {
  out_conn : TCPConn;
  out_err : option error;
  out_calls : list FsCall
}.

Definition sent (r : TCPConn * option error) : Outcome :=
  {| out_conn := fst r; out_err := snd r; out_calls := [] |}.

Definition after (calls : list FsCall) (o : Outcome) : Outcome :=
  {| out_conn := out_conn o; out_err := out_err o; out_calls := calls ++ out_calls o |}.

Section WithWorld.

Context (w : World).

(** [time.Now().UTC().Format(time.RFC1123)] *)
Definition dateNow : string := time_Format w (time_Now w).

(** The block every emitter repeats:
    [if keepAlive { Connection: keep-alive; Keep-Alive: timeout=30, max=%d }
     else { Connection: close }] *)
Definition setConnectionHeaders (keepAlive : bool) (remainingRequests : Z)
    (resp : Response) : Response :=
  if keepAlive then
    setHeader "Keep-Alive"
      ("timeout=30, max=" +:+ GoStrconv.FormatInt remainingRequests)
      (setHeader "Connection" "keep-alive" resp)
  else setHeader "Connection" "close" resp.

Definition getContentType (filePath : string) : string :=
  let ext := GoFilepath.Ext filePath in
  let contentType := mime_TypeByExtension w ext in
  if decide (contentType = "") then "application/octet-stream" else contentType.

Definition parseHTTPTime (timeStr : string) : option GoTime.Time :=
  match time_Parse w GoTime.RFC1123 timeStr with
  | Some t => Some t
  | None =>
      match time_Parse w GoTime.RFC850 timeStr with
      | Some t => Some t
      | None =>
          match time_Parse w GoTime.ANSIC timeStr with
          | Some t => Some t
          | None => None
          end
      end
  end.

Definition parseRangeHeader (rangeHeader : string) (fileSize : Z) : result (Z * Z) :=
  if negb (GoStrings.HasPrefix rangeHeader "bytes=") then
    Err (Errorf "invalid range header format")
  else
    let rangeSpec := GoStrings.TrimPrefix rangeHeader "bytes=" in
    match GoStrings.Split rangeSpec "-" with
    | [part0; part1] =>
        match GoStrconv.ParseInt part0 with
        | None => Err (Errorf "invalid start value")
        | Some start =>
            let parsedEnd :=
              if decide (part1 = "") then Some (fileSize - 1)%Z
              else GoStrconv.ParseInt part1 in
            match parsedEnd with
            | None => Err (Errorf "invalid end value")
            | Some end_ =>
                if (start <? 0)%Z || (fileSize <=? end_)%Z || (end_ <? start)%Z then
                  Err (Errorf "range out of bounds")
                else Ok (start, end_)
            end
        end
    | _ => Err (Errorf "invalid range specification")
    end.

Definition sendError (conn : TCPConn) (code : Z) (status : string)
    (version : HTTPVersion) (keepAlive : bool) (remainingRequests : Z)
  : TCPConn * option error :=
  let body := GoStrconv.FormatInt code +:+ " - " +:+ status in
  let resp := NewResponse code status version body in
  let resp := setHeader "Content-Type" "text/plain" resp in
  let resp := setHeader "Content-Length" (GoStrconv.FormatInt (GoStrings.len body)) resp in
  let resp := setHeader "Date" dateNow resp in
  let resp := setHeader "Server" "GoWebServer/1.0" resp in
  let resp := setConnectionHeaders keepAlive remainingRequests resp in
  Write conn resp.

Definition sendNotModified (conn : TCPConn) (modTime : GoTime.Time)
    (version : HTTPVersion) (keepAlive : bool) (remainingRequests : Z)
  : TCPConn * option error :=
  let resp := NewResponse 304 "Not Modified" version "" in
  let resp := setHeader "Last-Modified" (time_Format w modTime) resp in
  let resp := setHeader "Cache-Control" "public, max-age=3600" resp in
  let resp := setHeader "Date" dateNow resp in
  let resp := setHeader "Server" "GoWebServer/1.0" resp in
  let resp := setConnectionHeaders keepAlive remainingRequests resp in
  Write conn resp.

Definition serveSmallFile (conn : TCPConn) (filePath : string) (fileSize : Z)
    (modTime : GoTime.Time) (version : HTTPVersion) (req : Request)
    (keepAlive : bool) (remainingRequests : Z) : Outcome :=
  after [CallReadFile filePath]
    match os_ReadFile w filePath with
    | None =>
        sent (sendError conn 500 "Error reading file" version keepAlive remainingRequests)
    | Some content =>
        let contentType := getContentType filePath in
        let resp := NewResponse 200 "OK" version content in
        let resp := setHeader "Content-Type" contentType resp in
        let resp := setHeader "Accept-Ranges" "bytes" resp in
        let resp := setHeader "Last-Modified" (time_Format w modTime) resp in
        let resp := setHeader "Cache-Control" "public, max-age=3600" resp in
        let resp := setHeader "Date" dateNow resp in
        let resp := setHeader "Server" "GoWebServer/1.0" resp in
        let resp := setConnectionHeaders keepAlive remainingRequests resp in
        let resp := CompressResponse w resp req in
        sent (Write conn resp)
    end.

(** The header block is written first and the file is copied after it;
    both are recorded as one response whose body is the copied bytes. *)
Definition sendFullFile (file : string) (filePath : string) (fileSize : Z)
    (modTime : GoTime.Time) (version : HTTPVersion) (conn : TCPConn)
    (keepAlive : bool) (remainingRequests : Z) : TCPConn * option error :=
  let resp := NewResponse 200 "OK" version "" in
  let resp := setHeader "Content-Type" (getContentType filePath) resp in
  let resp := setHeader "Content-Length" (GoStrconv.FormatInt fileSize) resp in
  let resp := setHeader "Accept-Ranges" "bytes" resp in
  let resp := setHeader "Last-Modified" (time_Format w modTime) resp in
  let resp := setHeader "Cache-Control" "public, max-age=3600" resp in
  let resp := setHeader "Date" dateNow resp in
  let resp := setHeader "Server" "GoWebServer/1.0" resp in
  let resp := setConnectionHeaders keepAlive remainingRequests resp in
  (* io.Copy(conn, file) *)
  Write conn (setBody file resp).

(** [file.Seek(start, 0)] then [io.CopyN(conn, file, contentLength)]:
    the bytes copied are those of the file from [start] on, at most
    [contentLength] of them; [CopyN] fails when the file ends before. *)
Definition sendRangeFile (file : string) (start end_ : Z) (filePath : string)
    (fileSize : Z) (modTime : GoTime.Time) (version : HTTPVersion)
    (conn : TCPConn) (keepAlive : bool) (remainingRequests : Z)
  : TCPConn * option error :=
  let contentLength := (end_ - start + 1)%Z in
  let resp := NewResponse 206 "Partial Content" version "" in
  let resp := setHeader "Content-Type" (getContentType filePath) resp in
  let resp := setHeader "Content-Length" (GoStrconv.FormatInt contentLength) resp in
  let resp := setHeader "Content-Range"
                ("bytes " +:+ GoStrconv.FormatInt start +:+ "-"
                 +:+ GoStrconv.FormatInt end_ +:+ "/" +:+ GoStrconv.FormatInt fileSize)
                resp in
  let resp := setHeader "Accept-Ranges" "bytes" resp in
  let resp := setHeader "Last-Modified" (time_Format w modTime) resp in
  let resp := setHeader "Cache-Control" "public, max-age=3600" resp in
  let resp := setHeader "Date" dateNow resp in
  let resp := setHeader "Server" "GoWebServer/1.0" resp in
  let resp := setConnectionHeaders keepAlive remainingRequests resp in
  let copied := GoStrings.slice_to (Z.to_nat contentLength)
                  (GoStrings.slice_from (Z.to_nat start) file) in
  match Write conn (setBody copied resp) with
  | (conn', Some e) => (conn', Some e)
  | (conn', None) =>
      if (GoStrings.len copied <? contentLength)%Z then (conn', Some IOError)
      else (conn', None)
  end.

Definition serveLargeFile (req : Request) (conn : TCPConn) (filePath : string)
    (fileSize : Z) (modTime : GoTime.Time) (version : HTTPVersion)
    (keepAlive : bool) (remainingRequests : Z) : Outcome :=
  after [CallOpen filePath]
    match os_Open w filePath with
    | None =>
        sent (sendError conn 500 "Error opening file" version keepAlive remainingRequests)
    | Some file =>
        let rangeHeader := header (req_Headers req) "Range" in
        if decide (rangeHeader = "") then
          sent (sendFullFile file filePath fileSize modTime version conn
                  keepAlive remainingRequests)
        else
          match parseRangeHeader rangeHeader fileSize with
          | Err err =>
              let resp := NewResponse 416 "Range Not Satisfiable" version "" in
              let resp := setHeader "Content-Range"
                            ("bytes */" +:+ GoStrconv.FormatInt fileSize) resp in
              let resp := setHeader "Date" dateNow resp in
              let resp := setHeader "Server" "GoWebServer/1.0" resp in
              let resp := setConnectionHeaders keepAlive remainingRequests resp in
              match Write conn resp with
              | (conn', Some writeErr) => sent (conn', Some writeErr)
              | (conn', None) => sent (conn', Some err)
              end
          | Ok (start, end_) =>
              sent (sendRangeFile file start end_ filePath fileSize modTime version
                      conn keepAlive remainingRequests)
          end
    end.

(** The tail of [ServeFileStream], from the caching check on. *)
Definition serveResolved (req : Request) (conn : TCPConn) (filePath : string)
    (fileInfo : FileInfo) (keepAlive : bool) (remainingRequests : Z) : Outcome :=
  let modTime := fi_ModTime fileInfo in
  let notModified :=
    if negb (GoTime.IsZero modTime) then
      let ifModifiedSince := header (req_Headers req) "If-Modified-Since" in
      if negb (String.eqb ifModifiedSince "") then
        match parseHTTPTime ifModifiedSince with
        | Some ifModTime =>
            let modTime := GoTime.TruncateSecond modTime in
            let ifModTime := GoTime.TruncateSecond ifModTime in
            (modTime, negb (GoTime.After modTime ifModTime))
        | None => (modTime, false)
        end
      else (modTime, false)
    else (modTime, false) in
  let modTime := fst notModified in
  if snd notModified then
    sent (sendNotModified conn modTime (req_Version req) keepAlive remainingRequests)
  else
    let fileSize := fi_Size fileInfo in
    if (fileSize <=? MaxInMemorySize)%Z then
      serveSmallFile conn filePath fileSize modTime (req_Version req) req
        keepAlive remainingRequests
    else
      serveLargeFile req conn filePath fileSize modTime (req_Version req)
        keepAlive remainingRequests.

Definition ServeFileStream (fs : FileServer) (req : Request) (conn : TCPConn)
    (keepAlive : bool) (remainingRequests : Z) : Outcome :=
  let path := hd "" (GoStrings.Split (req_Path req) "?") in
  let cleanPath := GoFilepath.Clean path in
  if GoStrings.Contains cleanPath ".." then
    sent (sendError conn 403 "Forbidden" (req_Version req) keepAlive remainingRequests)
  else
    let filePath := GoFilepath.Join (root fs) cleanPath in
    after [CallStat filePath]
      match os_Stat w filePath with
      | StatNotExist =>
          sent (sendError conn 404 "Not Found" (req_Version req)
                  keepAlive remainingRequests)
      | StatError =>
          sent (sendError conn 500 "Internal Server Error" (req_Version req)
                  keepAlive remainingRequests)
      | StatInfo fileInfo =>
          if fi_IsDir fileInfo then
            let indexPath := GoFilepath.Join filePath "index.html" in
            after [CallStat indexPath]
              match os_Stat w indexPath with
              | StatInfo newInfo =>
                  serveResolved req conn indexPath newInfo keepAlive remainingRequests
              | _ =>
                  sent (sendError conn 403 "Directory listing disabled"
                          (req_Version req) keepAlive remainingRequests)
              end
          else
            serveResolved req conn filePath fileInfo keepAlive remainingRequests
      end.

(** [ServeFile], the handler that gives back a response object: the
    response, and the file system calls made for it. *)
Definition ServeFile (fs : FileServer) (req : Request)
  : Response * list FsCall :=
  let path := hd "" (GoStrings.Split (req_Path req) "?") in
  let cleanPath := GoFilepath.Clean path in
  if GoStrings.Contains cleanPath ".." then
    (NewResponse 403 "Forbidden" (req_Version req) "403 - Forbidden", [])
  else
    let filePath := GoFilepath.Join (root fs) cleanPath in
    match os_Stat w filePath with
    | StatNotExist =>
        (NewResponse 404 "Not Found" (req_Version req) "404 - File Not Found",
         [CallStat filePath])
    | StatError =>
        (NewResponse 500 "Internal Server Error" (req_Version req)
           "500 - Internal Server Error",
         [CallStat filePath])
    | StatInfo fileInfo =>
        let resolved :=
          if fi_IsDir fileInfo then
            let indexPath := GoFilepath.Join filePath "index.html" in
            match os_Stat w indexPath with
            | StatInfo _ => (Some indexPath, [CallStat filePath; CallStat indexPath])
            | _ => (None, [CallStat filePath; CallStat indexPath])
            end
          else (Some filePath, [CallStat filePath]) in
        match resolved with
        | (None, calls) =>
            (NewResponse 403 "Forbidden" (req_Version req)
               "403 - Directory listing disabled",
             calls)
        | (Some filePath, calls) =>
            match os_ReadFile w filePath with
            | None =>
                (NewResponse 500 "Internal Server Error" (req_Version req)
                   "500 - Error reading file",
                 calls ++ [CallReadFile filePath])
            | Some content =>
                let resp := NewResponse 200 "OK" (req_Version req) content in
                let contentType := getContentType filePath in
                let resp := setHeader "Content-Type" contentType resp in
                let resp := setHeader "Cache-Control" "public, max-age=3600" resp in
                (resp, calls ++ [CallReadFile filePath])
            end
        end
    end.

Definition HandleStaticFile (rootDir : string)
  : Request -> Response * list FsCall :=
  let fs := NewFileServer rootDir in
  fun req => ServeFile fs req.

Definition HandleStaticFileStream (rootDir : string)
  : Request -> TCPConn -> bool -> Z -> Outcome :=
  let fs := NewFileServer rootDir in
  fun req conn keepAlive remainingRequests =>
    ServeFileStream fs req conn keepAlive remainingRequests.

End WithWorld.

End FileServer.
Import FileServer.

(** ** Package [router] *)

Module Router.

Definition HandlerFunc := Request -> Response.
Definition StreamHandlerFunc := Request -> TCPConn -> bool -> Z -> Outcome.

Record Router := {
  routes : gmap string HandlerFunc;
  streamHandler : option StreamHandlerFunc
}.

Definition NewRouter : Router := {| routes := ∅; streamHandler := None |}.

Definition RegisterRoute (method path : string) (handler : HandlerFunc) (r : Router)
  : Router :=
  let key := method +:+ ":" +:+ path in
  {| routes := <[key := handler]> (routes r); streamHandler := streamHandler r |}.

Definition SetStreamHandler (handler : StreamHandlerFunc) (r : Router) : Router :=
  {| routes := routes r; streamHandler := Some handler |}.

Definition Route (r : Router) (req : Request) : Response :=
  let key := req_Method req +:+ ":" +:+ req_Path req in
  match routes r !! key with
  | Some handler => handler req
  | None =>
      let resp := NewResponse 404 "Not Found" (req_Version req) "404 - Page Not Found" in
      setHeader "Content-Type" "text/plain" resp
  end.

Definition NeedsStreaming (req : Request) : bool :=
  (String.eqb (req_Method req) "GET" || String.eqb (req_Method req) "HEAD")
  && GoStrings.HasPrefix (req_Path req) "/static/".

Definition RouteStream (w : World) (r : Router) (req : Request) (conn : TCPConn)
    (keepAlive : bool) (remainingRequests : Z) : Outcome :=
  match streamHandler r with
  | Some handler => handler req conn keepAlive remainingRequests
  | None =>
      let resp := NewResponse 500 "Internal Server Error" (req_Version req)
                    "500 - Stream handler not configured" in
      let resp := setHeader "Content-Type" "text/plain" resp in
      sent (WriteResponse w conn resp)
  end.

End Router.
Import Router.

(** ** Package [handler]: the route table of the application *)

Module HTTPHandler.

Section WithWorld.

Context (w : World).

Definition handleHome (req : Request) : Response :=
  match os_ReadFile w "templates/home.html" with
  | None =>
      let resp := NewResponse 500 "Internal Server Error" (req_Version req)
                    "Error loading homepage template" in
      setHeader "Content-Type" "text/plain" resp
  | Some htmlBytes =>
      let resp := NewResponse 200 "OK" (req_Version req) htmlBytes in
      let resp := setHeader "Content-Type" "text/html; charset=utf-8" resp in
      CompressResponse w resp req
  end.

Definition handleHello (req : Request) : Response :=
  let resp := NewResponse 200 "OK" (req_Version req) "Hello from Go Web Server!" in
  let resp := setHeader "Content-Type" "text/plain" resp in
  CompressResponse w resp req.

Definition quote : string := String (ascii_of_nat 34) "".

Definition handleEcho (req : Request) : Response :=
  let body := "{" +:+ quote +:+ "message" +:+ quote +:+ ":" +:+ quote
              +:+ req_Body req +:+ quote +:+ "}" in
  let resp := NewResponse 200 "OK" (req_Version req) body in
  let resp := setHeader "Content-Type" "application/json" resp in
  CompressResponse w resp req.

Definition usersJSON : string :=
  "[{" +:+ quote +:+ "id" +:+ quote +:+ ":1," +:+ quote +:+ "name" +:+ quote +:+ ":"
  +:+ quote +:+ "Faizan" +:+ quote +:+ "},{" +:+ quote +:+ "id" +:+ quote +:+ ":2,"
  +:+ quote +:+ "name" +:+ quote +:+ ":" +:+ quote +:+ "Hussain" +:+ quote +:+ "}]".

Definition handleGetUsers (req : Request) : Response :=
  let resp := NewResponse 200 "OK" (req_Version req) usersJSON in
  let resp := setHeader "Content-Type" "application/json" resp in
  CompressResponse w resp req.

Definition handleVersion (req : Request) : Response :=
  let body := "{" +:+ quote +:+ "protocol" +:+ quote +:+ ":" +:+ quote
              +:+ req_Version req +:+ quote +:+ "," +:+ quote +:+ "server" +:+ quote
              +:+ ":" +:+ quote +:+ "GoWebServer/1.0" +:+ quote +:+ "}" in
  let resp := NewResponse 200 "OK" (req_Version req) body in
  let resp := setHeader "Content-Type" "application/json" resp in
  CompressResponse w resp req.

Definition handleFavicon (req : Request) : Response :=
  match os_ReadFile w "public/static/favicon.ico" with
  | None => NewResponse 404 "Not Found" (req_Version req) "Favicon not found"
  | Some content =>
      let resp := NewResponse 200 "OK" (req_Version req) content in
      let resp := setHeader "Content-Type" "image/x-icon" resp in
      setHeader "Cache-Control" "public, max-age=86400" resp
  end.

Record HTTPHandler := { router : Router }.

Definition NewHTTPHandler : HTTPHandler :=
  let r := NewRouter in
  let r := RegisterRoute "GET" "/" handleHome r in
  let r := RegisterRoute "GET" "/hello" handleHello r in
  let r := RegisterRoute "POST" "/echo" handleEcho r in
  let r := RegisterRoute "GET" "/api/users" handleGetUsers r in
  let r := RegisterRoute "GET" "/version" handleVersion r in
  let r := RegisterRoute "GET" "/favicon.ico" handleFavicon r in
  let r := SetStreamHandler (HandleStaticFileStream w "./public") r in
  {| router := r |}.

Definition Handle (h : HTTPHandler) (req : Request) : Response :=
  Route (router h) req.

Definition HandlerNeedsStreaming (h : HTTPHandler) (req : Request) : bool :=
  NeedsStreaming req.

Definition HandleStream (h : HTTPHandler) (req : Request) (conn : TCPConn)
    (keepAlive : bool) (remainingRequests : Z) : Outcome :=
  RouteStream w (router h) req conn keepAlive remainingRequests.

End WithWorld.

End HTTPHandler.
Import HTTPHandler.

(** ** Package [server]: the keep-alive loop *)

Module Server.

Record Server := {
  addr : string;
  handler : HTTPHandler;
  config : ProtocolConfig
}.

Definition NewServer (w : World) (addr : string) : Server :=
  {| addr := addr; handler := NewHTTPHandler w; config := NewHTTP11Config |}.

Definition NewServerWithVersion (w : World) (addr : string) (config : ProtocolConfig)
  : Server :=
  {| addr := addr; handler := NewHTTPHandler w; config := config |}.

Definition maxRequests : Z := 100%Z.

(** "Determine if connection should be kept alive" *)
Definition wantsKeepAlive (s : Server) (request : Request) : bool :=
  if String.eqb (cfg_Version (config s)) HTTP10 then false
  else
    match req_Headers request !! "Connection" with
    | Some connHeader => negb (String.eqb (GoStrings.ToLower connHeader) "close")
    | None => true
    end.

(** The body of the [for] loop of [handleConnection] after the request is
    parsed and counted: the connection after the exchange, and whether the
    loop goes on to the next request ([false]: the function returns and the
    deferred [conn.Close()] runs). *)
Definition serveRequest (w : World) (s : Server) (conn : TCPConn)
    (requestCount : Z) (request : Request) : TCPConn * bool :=
  let keepAlive := wantsKeepAlive s request in
  if HandlerNeedsStreaming (handler s) request then
    let shouldKeepAlive := keepAlive && (requestCount <? maxRequests)%Z in
    let remainingRequests := (maxRequests - requestCount)%Z in
    let o := HandleStream w (handler s) request conn shouldKeepAlive remainingRequests in
    match out_err o with
    | Some _ => (out_conn o, false)
    | None =>
        if negb shouldKeepAlive then (out_conn o, false)
        else (out_conn o, keepAlive)
    end
  else
    let response := Handle (handler s) request in
    let response := setVersion (cfg_Version (config s)) response in
    let '(response, keepAlive) :=
      if keepAlive && (requestCount <? maxRequests)%Z then
        let remainingRequests := (maxRequests - requestCount)%Z in
        (setHeader "Keep-Alive"
           ("timeout=30, max=" +:+ GoStrconv.FormatInt remainingRequests)
           (setHeader "Connection" "keep-alive" response),
         keepAlive)
      else
        (setHeader "Connection" "close" response, false) in
    match WriteResponse w conn response with
    | (conn', Some _) => (conn', false)
    | (conn', None) => (conn', keepAlive)
    end.

(** The [for] loop of [handleConnection].  Every round reads from the
    connection at least once, so the number of rounds is bounded by the
    number of pending reads; [fuel] is that bound, and [None] is returned
    only if it is exceeded.  The result is the connection when the function
    returns, and the final value of [requestCount]. *)
Fixpoint handleLoop (fuel : nat) (w : World) (s : Server) (conn : TCPConn)
    (requestCount : Z) : option (TCPConn * Z) :=
  match fuel with
  | O => None
  | S fuel' =>
      match ParseRequest conn with
      | Err _ => Some (conn, requestCount)
      | Ok (request, conn1) =>
          let requestCount := (requestCount + 1)%Z in
          match serveRequest w s conn1 requestCount request with
          | (conn2, false) => Some (conn2, requestCount)
          | (conn2, true) => handleLoop fuel' w s conn2 requestCount
          end
      end
  end.

Definition handleConnection (w : World) (s : Server) (conn : TCPConn)
  : option (TCPConn * Z) :=
  handleLoop (S (length (pending conn))) w s conn 0.

End Server.
Import Server.

(** ** Sample environments and connections for the examples *)

Module Samples.

(** An empty file system, a stopped clock, no MIME table, a failing
    encoder. *)
Definition emptyWorld : World :=
  {| os_Stat := fun _ => StatNotExist;
     os_ReadFile := fun _ => None;
     os_Open := fun _ => None;
     time_Now := 0%Z;
     time_Parse := fun _ _ => None;
     time_Format := fun t => pretty t;
     mime_TypeByExtension := fun _ => "";
     gzip_Compress := fun _ => None |}.

(** A fresh connection on which the given reads are pending. *)
Definition connOf (reads : list string) : TCPConn :=
  {| pending := reads; written := []; writeResults := [] |}.

(** The bytes of a request: its lines, each ended by CRLF, an empty line,
    and the body. *)
Definition requestBytes (lines : list string) (body : string) : string :=
  fold_right (fun line rest => line +:+ CRLF +:+ rest) (CRLF +:+ body) lines.

Definition sampleServer : Server := NewServer emptyWorld ":8080".

(** Two requests on one connection; the first one asks to close the
    connection with a header spelled [connection]. *)
Definition lowercaseCloseConn : TCPConn :=
  connOf [ requestBytes ["GET /hello HTTP/1.1"; "connection: close"] "";
           requestBytes ["GET /hello HTTP/1.1"; "Host: x"] "" ].

(** The request of the path traversal scenario, alone on its connection. *)
Definition traversalConn : TCPConn :=
connOf [ requestBytes ["GET /static/../etc/passwd HTTP/1.1"; "Host: x"] "" ].

(** [Mon, 02 Jan 2006 15:04:05 GMT], in nanoseconds since the zero time. *)
Definition jan2006 : GoTime.Time := (63271811045 * GoTime.Second)%Z.

(** A world whose files are all regular files of five bytes with the given
    modification time, and whose date parser knows one date. *)
Definition oneFileWorld (modTime : GoTime.Time) : World :=
  {| os_Stat := fun _ => StatInfo {| fi_IsDir := false; fi_ModTime := modTime; fi_Size := 5 |};
     os_ReadFile := fun _ => Some "hello";
     os_Open := fun _ => Some "hello";
     time_Now := jan2006;
     time_Parse := fun layout value =>
       if String.eqb layout GoTime.RFC1123
          && String.eqb value "Mon, 02 Jan 2006 15:04:05 GMT"
       then Some jan2006 else None;
     time_Format := fun t => pretty t;
     mime_TypeByExtension := fun _ => "";
     gzip_Compress := fun _ => None |}.

Definition conditionalRequest (path : string) : Request :=
  {| req_Method := "GET"; req_Path := path; req_Version := HTTP11;
     req_Headers := {[ "If-Modified-Since" := "Mon, 02 Jan 2006 15:04:05 GMT" ]};
     req_Body := "" |}.

(** [n] bytes of filler. *)
Fixpoint filler (n : nat) : string :=
  match n with
  | O => EmptyString
  | S n' => String "a" (filler n')
  end.

(** A request of little more than 1 MiB: a short header block that declares
    a body of 1048577 bytes, and the body, delivered by 257 reads of 4096
    bytes. *)
Definition oversizedHead : string :=
  requestBytes ["POST /echo HTTP/1.1"; "Host: x"; "Content-Length: 1048577"] "".

Definition oversizedConn : TCPConn :=
  connOf (oversizedHead :: repeat (filler 4096) 257).

(** A file of 10 MiB, and a world in which every path is that file. *)
Definition bigFileSize : Z := 10485760%Z.

Definition bigFile : string := filler (Z.to_nat bigFileSize).

Definition bigFileInfo : FileInfo :=
  {| fi_IsDir := false; fi_ModTime := jan2006; fi_Size := bigFileSize |}.

Definition bigWorld : World :=
  {| os_Stat := fun _ => StatInfo bigFileInfo;
     os_ReadFile := fun _ => Some bigFile;
     os_Open := fun _ => Some bigFile;
     time_Now := jan2006;
     time_Parse := fun _ _ => None;
     time_Format := fun t => pretty t;
     mime_TypeByExtension := fun _ => "";
     gzip_Compress := fun _ => None |}.

Definition rangeRequest (value : string) : Request :=
  {| req_Method := "GET"; req_Path := "/static/big.bin"; req_Version := HTTP11;
     req_Headers := {[ "Range" := value ]}; req_Body := "" |}.

End Samples.
Import Samples.

(** ** Vocabulary of the properties *)

(** [emits conn c' P]: [c'] is [conn] after at most one more response, which
    satisfies [P]; the pending reads are untouched. *)
Definition emits (conn c' : TCPConn) (P : Response -> Prop) : Prop :=
  pending c' = pending conn
  /\ (written c' = written conn
      \/ exists resp, written c' = written conn ++ [resp] /\ P resp).

(** The response announces that the server closes the connection. *)
Definition closing (resp : Response) : Prop :=
  resp_Headers resp !! "Connection" = Some "close".

Definition closes (keepAlive : bool) (resp : Response) : Prop :=
  keepAlive = false -> closing resp.

(** The flag both branches of the loop use:
    [keepAlive && requestCount < maxRequests] *)
Definition keeps (s : Server) (request : Request) (count : Z) : bool :=
  wantsKeepAlive s request && (count <? maxRequests)%Z.

(** [answers conn c' P]: [c'] is [conn] with one more response, which
    satisfies [P]. *)
Definition answers (conn c' : TCPConn) (P : Response -> Prop) : Prop :=
  exists resp, written c' = written conn ++ [resp] /\ P resp.

(** The status codes of the emitters that serve a file. *)
Definition fileStatus (resp : Response) : Prop :=
  resp_StatusCode resp ∈ [200; 206; 416; 500]%Z.

(** The response [sendNotModified] builds. *)
Definition notModifiedResponse (w : World) (resp : Response) (modTime : GoTime.Time)
    (keepAlive : bool) : Prop :=
  resp_StatusCode resp = 304%Z
  /\ resp_Body resp = ""
  /\ resp_Headers resp !! "Last-Modified" = Some (time_Format w modTime)
  /\ resp_Headers resp !! "Cache-Control" = Some "public, max-age=3600"
  /\ resp_Headers resp !! "Date" = Some (time_Format w (time_Now w))
  /\ resp_Headers resp !! "Server" = Some "GoWebServer/1.0"
  /\ resp_Headers resp !! "Connection"
     = Some (if keepAlive then "keep-alive" else "close").

(** The value of a non-empty string of decimal digits. *)
Definition decimalValue (v : string) : option Z :=
  match v with
  | EmptyString => None
  | _ => GoStrconv.parseDigits 0 v
  end.

(** The bytes of the chunks, in order. *)
Definition joinChunks (chunks : list string) : string :=
  fold_right String.append "" chunks.

(** The value of a [Range] header for the bytes from [start] to [end_], or
    from [start] on. *)
Definition rangeValue (start : Z) (end_ : option Z) : string :=
  "bytes=" +:+ GoStrconv.FormatInt start +:+ "-"
  +:+ match end_ with Some e => GoStrconv.FormatInt e | None => "" end.

(** A 206 for the bytes from [start] to [end_], both included, of a file of
    [fileSize] bytes. *)
Definition partialContent (resp : Response) (start end_ fileSize : Z) (file : string)
  : Prop :=
  resp_StatusCode resp = 206%Z
  /\ resp_Headers resp !! "Content-Range"
     = Some ("bytes " +:+ GoStrconv.FormatInt start +:+ "-" +:+ GoStrconv.FormatInt end_
             +:+ "/" +:+ GoStrconv.FormatInt fileSize)
  /\ resp_Headers resp !! "Content-Length" = Some (GoStrconv.FormatInt (end_ - start + 1))
  /\ resp_Body resp
     = GoStrings.slice_to (Z.to_nat (end_ - start + 1))
         (GoStrings.slice_from (Z.to_nat start) file)
  /\ GoStrings.len (resp_Body resp) = (end_ - start + 1)%Z.

(** A 416 for a file of [fileSize] bytes. *)
Definition rangeNotSatisfiable (resp : Response) (fileSize : Z) : Prop :=
  resp_StatusCode resp = 416%Z
  /\ resp_Headers resp !! "Content-Range"
     = Some ("bytes */" +:+ GoStrconv.FormatInt fileSize)
  /\ resp_Body resp = "".

(** A 200 that carries the whole file. *)
Definition fullContent (resp : Response) (fileSize : Z) (file : string) : Prop :=
  resp_StatusCode resp = 200%Z
  /\ resp_Headers resp !! "Content-Length" = Some (GoStrconv.FormatInt fileSize)
  /\ resp_Headers resp !! "Accept-Ranges" = Some "bytes"
  /\ resp_Body resp = file.

(** The request with another method. *)
Definition withMethod (method : string) (req : Request) : Request :=
  {| req_Method := method; req_Path := req_Path req; req_Version := req_Version req;
     req_Headers := req_Headers req; req_Body := req_Body req |}.

Import GoFilepath.

(** ** Paths in normal form *)

(** No separator among the bytes. *)
Definition sepFree (e : list ascii) : Prop :=
  Forall (fun c => IsPathSeparator c = false) e.

(** A name: a path element that is not empty, not [.] and not [..]. *)
Definition isName (e : list ascii) : Prop :=
  e ≠ [] /\ sepFree e /\ e ≠ ["."%char] /\ e ≠ ["."%char; "."%char].

(** The elements joined by separators. *)
Definition joinSep (elements : list (list ascii)) : list ascii :=
  match elements with
  | [] => []
  | e :: es => e ++ flat_map (fun x => Separator :: x) es
  end.

(** The elements a cleaned path begins with before its names: none for a
    rooted path, [ups] times [..] for a relative one. *)
Definition climb (rooted : bool) (ups : nat) : list (list ascii) :=
  if rooted then [] else repeat ["."%char; "."%char] ups.

(** The bytes [Clean] writes for a path that climbs [ups] times and then
    descends through [names]. *)
Definition cleaned (rooted : bool) (ups : nat) (names : list (list ascii))
  : list ascii :=
  (if rooted then [Separator] else []) ++ joinSep (climb rooted ups ++ names).

(** The state of the loop of [Clean] then: the buffer, last byte first, and
    [dotdot]. *)
Definition cleanState (rooted : bool) (ups : nat) (names : list (list ascii))
  : list ascii * nat :=
  (rev (cleaned rooted ups names), length (cleaned rooted ups [])).

(** The cleaned path, as a string. *)
Definition render (rooted : bool) (ups : nat) (names : list (list ascii)) : string :=
  match cleaned rooted ups names with
  | [] => "."
  | out => string_of_list_ascii out
  end.

(** [path] is reached from the directory [dir] by descending through names
    only: both are in normal form, they climb alike, and the names of [dir]
    are the first names of [path]. *)
Definition under (dir path : string) : Prop :=
  exists rooted ups names more,
    Forall isName (names ++ more)
    /\ dir = render rooted ups names
    /\ path = render rooted ups (names ++ more).

(** The first byte decides whether [Clean] treats the path as rooted. *)
Definition atStart (p : list ascii) : bool :=
  match p with
  | c :: _ => IsPathSeparator c
  | [] => false
  end.

(** [Clean] up to the end of its loop: whether the path is rooted, and the
    state the loop ends in. *)
Definition cleanRun (p : list ascii) : bool * (list ascii * nat) :=
  match p with
  | [] => (false, ([], 0%nat))
  | c :: rest =>
      if IsPathSeparator c then (true, cleanLoop true rest [Separator] 1)
      else (false, cleanLoop false (c :: rest) [] 0)
  end.

(** The end of [Clean]: an empty buffer stands for [.]. *)
Definition finish (out : list ascii) : string :=
  match out with
  | [] => "."
  | _ => string_of_list_ascii (rev out)
  end.

(** The state after a [..] element. *)
Definition afterDotDot (rooted : bool) (ups : nat) (names : list (list ascii))
  : nat * list (list ascii) :=
  match names with
  | [] => if rooted then (ups, []) else (S ups, [])
  | _ => (ups, removelast names)
  end.

(** The request with another path. *)
Definition withPath (path : string) (req : Request) : Request :=
  {| req_Method := req_Method req; req_Path := path; req_Version := req_Version req;
     req_Headers := req_Headers req; req_Body := req_Body req |}.

(** [path] is [dir] or lies below it, as strings. *)
Definition atOrBelow (dir path : string) : Prop :=
  path = dir \/ GoStrings.HasPrefix path (dir +:+ "/") = true.

(** The [Connection] and [Keep-Alive] headers for a connection that is kept
    open for [remaining] more requests, or closed. *)
Definition announces (keepAlive : bool) (remaining : Z) (resp : Response) : Prop :=
  resp_Headers resp !! "Connection" = Some (if keepAlive then "keep-alive" else "close")
  /\ resp_Headers resp !! "Keep-Alive"
     = if keepAlive then Some ("timeout=30, max=" +:+ GoStrconv.FormatInt remaining)
       else None.

(** What every response of the static file server carries. *)
Definition stamped (w : World) (req : Request) (keepAlive : bool) (remaining : Z)
    (resp : Response) : Prop :=
  resp_Version resp = req_Version req
  /\ resp_StatusCode resp ∈ [200; 206; 304; 403; 404; 416; 500]%Z
  /\ resp_Headers resp !! "Date" = Some (time_Format w (time_Now w))
  /\ resp_Headers resp !! "Server" = Some "GoWebServer/1.0"
  /\ announces keepAlive remaining resp.

(** The routes [NewHTTPHandler] registers. *)
Definition routeTable : list (string * string) :=
  [ ("GET", "/"); ("GET", "/hello"); ("POST", "/echo"); ("GET", "/api/users");
    ("GET", "/version"); ("GET", "/favicon.ico") ].

(** The response of [Route] to a request that matches no route. *)
Definition pageNotFound (req : Request) : Response :=
  setHeader "Content-Type" "text/plain"
    (NewResponse 404 "Not Found" (req_Version req) "404 - Page Not Found").

(** ** Requests as they are written on the wire *)




Definition requestLine (method path version : string) : string :=
  method +:+ " " +:+ path +:+ " " +:+ version.







(** * Properties *)

(** ** Strings *)

Section StringFacts.

Lemma str_app_nil_l b : "" +:+ b = b.
Proof. reflexivity. Qed.

Lemma str_app_cons x a b : String x a +:+ b = String x (a +:+ b).
Proof. reflexivity. Qed.

Lemma str_length_app a b :
  String.length (a +:+ b) = (String.length a + String.length b)%nat.
Proof. induction a as [|c a IH]; simpl; [done|]. by rewrite IH. Qed.

Lemma str_app_assoc a b c : (a +:+ b) +:+ c = a +:+ (b +:+ c).
Proof. induction a as [|x a IH]; [done|]. rewrite !str_app_cons. by f_equal. Qed.

Lemma str_app_nil_r a : a +:+ "" = a.
Proof. induction a as [|x a IH]; [done|]. rewrite str_app_cons. by f_equal. Qed.

Lemma len_app a b : GoStrings.len (a +:+ b) = (GoStrings.len a + GoStrings.len b)%Z.
Proof. unfold GoStrings.len. rewrite str_length_app. lia. Qed.

Lemma len_nonneg a : (0 <= GoStrings.len a)%Z.
Proof. unfold GoStrings.len. lia. Qed.

Lemma length_slice_to n s :
  String.length (GoStrings.slice_to n s) = Nat.min n (String.length s).
Proof.
  revert s. induction n as [|n IH]; intros [|c s]; simpl; try done. by rewrite IH.
Qed.

Lemma slice_to_app n a b :
  (n <= String.length a)%nat ->
  GoStrings.slice_to n (a +:+ b) = GoStrings.slice_to n a.
Proof.
  revert a. induction n as [|n IH]; intros a Hn.
  - by destruct (a +:+ b), a.
  - destruct a as [|c a]; simpl in Hn; [lia|].
    rewrite str_app_cons. simpl. rewrite IH; [done|lia].
Qed.

Lemma len_slice_to n s :
  (0 <= n <= GoStrings.len s)%Z -> GoStrings.len (GoStrings.slice_to (Z.to_nat n) s) = n.
Proof. unfold GoStrings.len. intros Hn. rewrite length_slice_to. lia. Qed.

Lemma length_filler n : String.length (filler n) = n.
Proof. induction n as [|n IH]; simpl; [done|]. by rewrite IH. Qed.

Lemma joinChunks_cons chunk chunks :
  joinChunks (chunk :: chunks) = chunk +:+ joinChunks chunks.
Proof. reflexivity. Qed.

Lemma joinChunks_app a b : joinChunks (a ++ b) = joinChunks a +:+ joinChunks b.
Proof.
  induction a as [|x a IH]; [done|].
  rewrite <- app_comm_cons, !joinChunks_cons, IH. by rewrite str_app_assoc.
Qed.

Lemma len_joinChunks_repeat chunk n :
  GoStrings.len (joinChunks (repeat chunk n)) = (Z.of_nat n * GoStrings.len chunk)%Z.
Proof.
  induction n as [|n IH]; [done|].
  change (joinChunks (repeat chunk (S n))) with (chunk +:+ joinChunks (repeat chunk n)).
  rewrite len_app, IH. lia.
Qed.

End StringFacts.


(** ** Responses and header maps *)

Section ResponseFacts.

Lemma header_setHeader_eq k v resp :
  header (resp_Headers (setHeader k v resp)) k = v.
Proof. unfold header. simpl. by rewrite lookup_insert_eq. Qed.

Lemma header_setHeader_ne k k' v resp :
  k ≠ k' -> header (resp_Headers (setHeader k v resp)) k' = header (resp_Headers resp) k'.
Proof. intros Hne. unfold header. simpl. by rewrite lookup_insert_ne. Qed.

Lemma lookup_setHeader_ne k k' v resp :
  k ≠ k' -> resp_Headers (setHeader k v resp) !! k' = resp_Headers resp !! k'.
Proof. intros Hne. simpl. by rewrite lookup_insert_ne. Qed.

Lemma setHeader_setHeader k v resp :
  setHeader k v (setHeader k v resp) = setHeader k v resp.
Proof. unfold setHeader. simpl. by rewrite insert_insert_eq. Qed.

Lemma resp_Body_setHeader k v resp : resp_Body (setHeader k v resp) = resp_Body resp.
Proof. reflexivity. Qed.

Lemma resp_StatusCode_setHeader k v resp :
  resp_StatusCode (setHeader k v resp) = resp_StatusCode resp.
Proof. reflexivity. Qed.

End ResponseFacts.


(** ** The compression middleware *)

Section CompressFacts.

Context (w : World).

(** C9. The compression middleware is idempotent: for every response and
    request, applying [CompressResponse] twice leaves the response (body
    and headers) exactly as applying it once. *)
Theorem CompressResponse_idempotent resp req :
  CompressResponse w (CompressResponse w resp req) req = CompressResponse w resp req.
Proof.
  destruct (decide (resp_Body resp = "")) as [Hb|Hb].
  { assert (H : CompressResponse w resp req = resp)
      by (unfold CompressResponse; by rewrite decide_True).
    rewrite H. exact H. }
  destruct (negb (header (resp_Headers resp) "Content-Encoding" =? "")%string) eqn:Henc.
  { assert (H : CompressResponse w resp req = resp)
      by (unfold CompressResponse; rewrite decide_False by done; by rewrite Henc).
    rewrite H. exact H. }
  set (ct := if decide (header (resp_Headers resp) "Content-Type" = "")
             then "text/plain" else header (resp_Headers resp) "Content-Type").
  set (g := acceptsGzip (header (req_Headers req) "Accept-Encoding")
            && shouldCompress ct
            && (minSizeForCompression <=? GoStrings.len (resp_Body resp))%Z).
  assert (Hsame : CompressResponse w resp req
                  = if negb g then
                      if shouldCompress ct then setHeader "Vary" "Accept-Encoding" resp else resp
                    else match compressContent w (resp_Body resp) with
                         | None => setHeader "Vary" "Accept-Encoding" resp
                         | Some compressed =>
                             if (GoStrings.len (resp_Body resp) <=? GoStrings.len compressed)%Z
                             then setHeader "Vary" "Accept-Encoding" resp
                             else setHeader "Vary" "Accept-Encoding"
                                    (setHeader "Content-Length"
                                       (GoStrconv.FormatInt (GoStrings.len compressed))
                                       (setHeader "Content-Encoding" "gzip"
                                          (setBody compressed resp)))
                         end).
  { unfold CompressResponse. rewrite decide_False by done. by rewrite Henc. }
  assert (Hvary : CompressResponse w (setHeader "Vary" "Accept-Encoding" resp) req
                  = setHeader "Vary" "Accept-Encoding" (CompressResponse w resp req)).
  { rewrite Hsame. unfold CompressResponse.
    rewrite resp_Body_setHeader, !header_setHeader_ne by done.
    rewrite decide_False by done. rewrite Henc. fold ct. fold g.
    destruct (negb g); [destruct (shouldCompress ct)|]; rewrite ?setHeader_setHeader; try done.
    destruct (compressContent w (resp_Body resp)) as [c|]; rewrite ?setHeader_setHeader; try done.
    destruct (GoStrings.len (resp_Body resp) <=? GoStrings.len c)%Z;
      rewrite ?setHeader_setHeader; try done.
    unfold setHeader, setBody; simpl. f_equal.
    apply map_eq. intros k.
    repeat (rewrite lookup_insert; case_decide; try done). }
  destruct (negb g) eqn:Hg.
  - destruct (shouldCompress ct) eqn:Hsc.
    + rewrite Hsame, Hvary, Hsame. apply setHeader_setHeader.
    + rewrite Hsame. exact Hsame.
  - destruct (compressContent w (resp_Body resp)) as [c|] eqn:Hc.
    + destruct (GoStrings.len (resp_Body resp) <=? GoStrings.len c)%Z eqn:Hlen.
      * rewrite Hsame, Hvary, Hsame. apply setHeader_setHeader.
      * rewrite Hsame. unfold CompressResponse.
        case_decide; [done|].
        rewrite header_setHeader_ne by done. rewrite header_setHeader_ne by done.
        rewrite header_setHeader_eq. done.
    + rewrite Hsame, Hvary, Hsame. apply setHeader_setHeader.
Qed.

End CompressFacts.

(** ** What an exchange does to the connection *)

Section ConnectionFacts.

Context (w : World).

Lemma emits_Write conn resp (P : Response -> Prop) :
  P resp -> emits conn (fst (Write conn resp)) P.
Proof.
  intros HP. unfold Write, emits.
  destruct (writeResults conn) as [|[] ?]; simpl; split; eauto.
Qed.

Lemma closes_setConnectionHeaders keepAlive n resp :
  closes keepAlive (setConnectionHeaders keepAlive n resp).
Proof. intros ->. unfold closing. simpl. apply lookup_insert_eq. Qed.

Lemma lookup_CompressResponse resp req k :
  k ≠ "Vary" -> k ≠ "Content-Encoding" -> k ≠ "Content-Length" ->
  resp_Headers (CompressResponse w resp req) !! k = resp_Headers resp !! k.
Proof.
  intros H1 H2 H3. unfold CompressResponse.
  repeat match goal with
         | |- context [if ?b then _ else _] => destruct b
         | |- context [match ?o with Some _ => _ | None => _ end] => destruct o
         end; simpl; rewrite ?lookup_insert_ne by done; done.
Qed.

Lemma emits_sendError conn code status version keepAlive n :
  emits conn (fst (sendError w conn code status version keepAlive n)) (closes keepAlive).
Proof. apply emits_Write, closes_setConnectionHeaders. Qed.

Lemma emits_sendNotModified conn t version keepAlive n :
  emits conn (fst (sendNotModified w conn t version keepAlive n)) (closes keepAlive).
Proof. apply emits_Write, closes_setConnectionHeaders. Qed.

Lemma emits_sendFullFile file filePath size t version conn keepAlive n :
  emits conn (fst (sendFullFile w file filePath size t version conn keepAlive n))
    (closes keepAlive).
Proof. apply emits_Write. apply (closes_setConnectionHeaders keepAlive n). Qed.

Lemma emits_sendRangeFile file s e filePath size t version conn keepAlive n :
  emits conn (fst (sendRangeFile w file s e filePath size t version conn keepAlive n))
    (closes keepAlive).
Proof.
  unfold sendRangeFile.
  match goal with |- context [Write conn ?r] =>
    pose proof (emits_Write conn r (closes keepAlive)
                  (closes_setConnectionHeaders keepAlive n _)) as Hw;
    destruct (Write conn r) as [c' [e'|]] end; simpl in *; [done|].
  by destruct (_ <? _)%Z.
Qed.

Lemma emits_serveSmallFile conn filePath size t version req keepAlive n :
  emits conn (out_conn (serveSmallFile w conn filePath size t version req keepAlive n))
    (closes keepAlive).
Proof.
  unfold serveSmallFile. destruct (os_ReadFile w filePath); simpl.
  - apply emits_Write. intros ->. unfold closing. rewrite lookup_CompressResponse by done.
    by apply closes_setConnectionHeaders.
  - apply emits_sendError.
Qed.

Lemma emits_serveLargeFile req conn filePath size t version keepAlive n :
  emits conn (out_conn (serveLargeFile w req conn filePath size t version keepAlive n))
    (closes keepAlive).
Proof.
  unfold serveLargeFile. destruct (os_Open w filePath); simpl; [|apply emits_sendError].
  case_decide; simpl; [apply emits_sendFullFile|].
  destruct (parseRangeHeader _ _) as [[s0 e0]|err]; simpl; [apply emits_sendRangeFile|].
  match goal with |- context [Write conn ?r] =>
    pose proof (emits_Write conn r (closes keepAlive)
                  (closes_setConnectionHeaders keepAlive n _)) as Hw;
    destruct (Write conn r) as [c' [e'|]] end; simpl in *; done.
Qed.

Lemma emits_serveResolved req conn filePath fi keepAlive n :
  emits conn (out_conn (serveResolved w req conn filePath fi keepAlive n))
    (closes keepAlive).
Proof.
  unfold serveResolved.
  destruct (snd _); simpl; [apply emits_sendNotModified|].
  destruct (_ <=? _)%Z; [apply emits_serveSmallFile|apply emits_serveLargeFile].
Qed.

Lemma emits_ServeFileStream fs req conn keepAlive n :
  emits conn (out_conn (ServeFileStream w fs req conn keepAlive n)) (closes keepAlive).
Proof.
  unfold ServeFileStream.
  destruct (GoStrings.Contains _ _); simpl; [apply emits_sendError|].
  destruct (os_Stat w _) as [| |fi]; simpl; try apply emits_sendError.
  destruct (fi_IsDir fi); simpl; [|apply emits_serveResolved].
  destruct (os_Stat w _) as [| |fi']; simpl;
    try apply emits_sendError; apply emits_serveResolved.
Qed.

End ConnectionFacts.

(** ** The parser consumes pending reads *)

Section ParserProgress.

Lemma readHeaders_progress pending allData d rest :
  readHeaders pending allData = Ok (d, rest) -> (length rest < length pending)%nat.
Proof.
  revert allData. induction pending as [|chunk pending IH]; intros allData; simpl; [done|].
  repeat case_match; intros Heq; simplify_eq; try lia.
  apply IH in Heq. lia.
Qed.

Lemma readBody_progress pending body n body' rest :
  readBody pending body n = Ok (body', rest) -> (length rest <= length pending)%nat.
Proof.
  revert body. induction pending as [|chunk pending IH]; intros body; simpl.
  - case_match; intros Heq; simplify_eq. simpl. lia.
  - case_match; intros Heq; simplify_eq; [|simpl; lia].
    apply IH in Heq. lia.
Qed.

Lemma ParseRequest_progress conn req conn' :
  ParseRequest conn = Ok (req, conn') ->
  (length (pending conn') < length (pending conn))%nat
  /\ written conn' = written conn /\ writeResults conn' = writeResults conn.
Proof.
  unfold ParseRequest.
  destruct (readHeaders (pending conn) "") as [[allData pending1]|] eqn:Hh; [|done].
  apply readHeaders_progress in Hh.
  repeat case_match; intros Heq; simplify_eq; simpl; try done.
  match goal with H : readBody _ _ _ = Ok _ |- _ => apply readBody_progress in H end.
  split; [lia|done].
Qed.

End ParserProgress.

(** ** The keep-alive loop *)

Section KeepAlive.

Context (w : World) (addr : string) (cfg : ProtocolConfig).

Local Abbreviation s := (NewServerWithVersion w addr cfg).

Lemma emits_weaken conn c' (P Q : Response -> Prop) :
  (forall r, P r -> Q r) -> emits conn c' P -> emits conn c' Q.
Proof. intros HPQ [? [?|(r & ? & ?)]]; split; eauto. Qed.

Local Abbreviation keeps := (keeps s).

Lemma serveRequest_emits conn count request :
  emits conn (fst (serveRequest w s conn count request))
    (fun resp => keeps request count = false -> closing resp).
Proof.
  unfold serveRequest. fold (keeps request count).
  destruct (HandlerNeedsStreaming _ _).
  - unfold HandleStream, RouteStream. simpl. unfold HandleStaticFileStream.
    pose proof (emits_ServeFileStream w (NewFileServer "./public") request conn
                  (keeps request count) (maxRequests - count)%Z) as He.
    destruct (out_err _); simpl; [done|].
    by destruct (negb _).
  - unfold WriteResponse.
    destruct (keeps request count) eqn:Hk.
    all: match goal with |- emits _ (fst (let '(_, _) := Write ?c ?r in _)) ?P =>
      pose proof (emits_Write c r P) as He;
      destruct (Write c r) as [c' [e|]] end; simpl in *.
    all: apply He; intros Hk'; try done; unfold closing; simpl;
      rewrite !lookup_insert_ne by done; apply lookup_insert_eq.
Qed.

Lemma serveRequest_stops conn count request :
  keeps request count = false -> snd (serveRequest w s conn count request) = false.
Proof.
  intros Hk. unfold serveRequest. fold (keeps request count). rewrite Hk.
  destruct (HandlerNeedsStreaming _ _).
  - by destruct (out_err _).
  - by destruct (WriteResponse _ _ _) as [c' [e|]].
Qed.

Lemma keeps_capped request count : (maxRequests <= count)%Z -> keeps request count = false.
Proof. intros Hc. unfold keeps. apply andb_false_iff. right. lia. Qed.

Lemma handleLoop_cap fuel conn count :
  (length (pending conn) < fuel)%nat -> (0 <= count < maxRequests)%Z ->
  exists c n, handleLoop fuel w s conn count = Some (c, n)
    /\ (count <= n <= maxRequests)%Z
    /\ (length (written c) <= length (written conn) + Z.to_nat (n - count))%nat.
Proof.
  revert conn count. induction fuel as [|fuel IH]; intros conn count Hfuel Hcount; [lia|].
  simpl. destruct (ParseRequest conn) as [[request conn1]|] eqn:Hparse.
  - apply ParseRequest_progress in Hparse as (Hlt & Hw & _).
    destruct (serveRequest_emits conn1 (count + 1) request) as [Hp Hwr].
    pose proof (serveRequest_stops conn1 (count + 1) request) as Hstop.
    destruct (serveRequest w s conn1 (count + 1) request) as [conn2 [|]]; simpl in *.
    + assert (count + 1 < maxRequests)%Z as Hc'.
      { destruct (Z_lt_dec (count + 1) maxRequests); [done|].
        assert (true = false) by (apply Hstop, keeps_capped; lia). done. }
      destruct (IH conn2 (count + 1)%Z) as (c & n & -> & Hn & Hlen); [rewrite Hp; lia|lia|].
      exists c, n. split; [done|]. split; [lia|].
      assert (length (written conn2) <= length (written conn) + 1)%nat.
      { destruct Hwr as [->|(r & -> & _)]; rewrite ?length_app, Hw; simpl; lia. }
      lia.
    + exists conn2, (count + 1)%Z. split; [done|]. split; [lia|].
      destruct Hwr as [->|(r & -> & _)]; rewrite ?length_app, Hw; simpl; lia.
  - exists conn, count. split; [done|]. split; lia.
Qed.

(** C8. On every connection the keep-alive loop handles at most
    [MAX_REQUESTS_PER_CONNECTION = 100] exchanges: the loop returns, having
    counted at most 100 requests and written at most one response per
    request; and in a round whose request counter has reached 100, on the
    streaming branch as on the buffered one, the response (if one is
    written) carries [Connection: close] and the loop stops after it. *)
Theorem keep_alive_cap conn :
  (exists c n, handleConnection w s conn = Some (c, n)
     /\ (0 <= n <= maxRequests)%Z
     /\ (length (written c) <= length (written conn) + Z.to_nat n)%nat)
  /\ (forall conn' request count, (maxRequests <= count)%Z ->
        snd (serveRequest w s conn' count request) = false
        /\ emits conn' (fst (serveRequest w s conn' count request)) closing).
Proof.
  split.
  - destruct (handleLoop_cap (S (length (pending conn))) conn 0) as (c & n & H & Hn & Hl);
      [lia|unfold maxRequests; lia|].
    exists c, n. split; [done|]. split; [lia|]. by rewrite Z.sub_0_r in Hl.
  - intros conn' request count Hc. apply keeps_capped with (request := request) in Hc.
    split; [by apply serveRequest_stops|].
    eapply emits_weaken; [|apply serveRequest_emits]. auto.
Qed.

(** Header names are kept as received: a key of the parsed header map is
    the trimmed name of one of the header lines, byte for byte. *)
Lemma parseHeaders_names lines k v :
  parseHeaders lines !! k = Some v ->
  exists line name value,
    line ∈ lines
    /\ GoStrings.SplitN2 (GoStrings.TrimSpace line) ":" = [name; value]
    /\ k = GoStrings.TrimSpace name.
Proof.
  unfold parseHeaders.
  assert (forall acc, fold_left parseHeaderLine lines acc !! k = Some v ->
            acc !! k = Some v \/
            exists line name value,
              line ∈ lines
              /\ GoStrings.SplitN2 (GoStrings.TrimSpace line) ":" = [name; value]
              /\ k = GoStrings.TrimSpace name) as H.
  { induction lines as [|line lines IH]; intros acc; simpl; [auto|].
    intros Hk. apply IH in Hk as [Hk|(l & n & v' & Hin & ? & ?)].
    - unfold parseHeaderLine in Hk. case_decide; [auto|].
      destruct (GoStrings.SplitN2 _ _) as [|name [|value [|? ?]]] eqn:Hs; auto.
      destruct (decide (GoStrings.TrimSpace name = k)) as [<-|Hne].
      + right. exists line, name, value. split; [left|done].
      + rewrite lookup_insert_ne in Hk by done. auto.
    - right. exists l, n, v'. split; [by right|done]. }
  intros Hk. apply H in Hk as [Hk|Hk]; [|done]. by rewrite lookup_empty in Hk.
Qed.

(** C4 (amended).  A request that carries a header named exactly
    [Connection] whose value is [close] in any letter case makes the loop
    compute [keep_alive = false] and stop after a response that says
    [Connection: close].  Names are looked up as received: the keys of the
    header map are the names of the header lines byte for byte, and a
    request that has no header spelled [Connection] is kept alive by a
    server that does not speak HTTP/1.0. *)
Theorem connection_close_exact_name request v :
  req_Headers request !! "Connection" = Some v ->
  GoStrings.ToLower v = "close" ->
  (wantsKeepAlive s request = false
   /\ forall conn count,
        snd (serveRequest w s conn count request) = false
        /\ emits conn (fst (serveRequest w s conn count request)) closing)
  /\ (forall request',
        cfg_Version cfg ≠ HTTP10 ->
        req_Headers request' !! "Connection" = None ->
        wantsKeepAlive s request' = true)
  /\ (forall lines k v',
        parseHeaders lines !! k = Some v' ->
        exists line name value,
          line ∈ lines
          /\ GoStrings.SplitN2 (GoStrings.TrimSpace line) ":" = [name; value]
          /\ k = GoStrings.TrimSpace name).
Proof.
  intros Hc Hv.
  assert (wantsKeepAlive s request = false) as Hka.
  { unfold wantsKeepAlive. destruct (_ =? _)%string; [done|]. by rewrite Hc, Hv. }
  split; [|split].
  - split; [done|]. intros conn count.
    assert (keeps request count = false) as Hk by (unfold keeps; by rewrite Hka).
    split; [by apply serveRequest_stops|].
    eapply emits_weaken; [|apply serveRequest_emits]. auto.
  - intros request' Hcfg Hnone. unfold wantsKeepAlive. simpl.
    destruct (String.eqb_spec (cfg_Version cfg) HTTP10); [done|]. by rewrite Hnone.
  - apply parseHeaders_names.
Qed.

End KeepAlive.

(** C4, as stated, fails: the first request of [lowercaseCloseConn] carries
    [connection: close]; the parser files it under [connection], the loop
    computes [keep_alive = true], answers it and goes on to answer the
    second request. *)
Lemma lowercase_connection_close_is_kept_alive :
  exists request conn' c,
    ParseRequest lowercaseCloseConn = Ok (request, conn')
    /\ req_Headers request !! "connection" = Some "close"
    /\ wantsKeepAlive sampleServer request = true
    /\ handleConnection emptyWorld sampleServer lowercaseCloseConn = Some (c, 2%Z)
    /\ length (written c) = 2%nat.
Proof.
  do 3 eexists. split; [vm_compute; reflexivity|].
  split; [vm_compute; reflexivity|].
  split; [vm_compute; reflexivity|].
  split; [vm_compute; reflexivity|].
  vm_compute; reflexivity.
Qed.

Lemma connection_close_exact_name_witness :
  let request :=
    {| req_Method := "GET"; req_Path := "/hello"; req_Version := HTTP11;
       req_Headers := {[ "Connection" := "Close" ]}; req_Body := "" |} in
  wantsKeepAlive (NewServerWithVersion emptyWorld ":8080" NewHTTP11Config) request = false.
Proof.
  intros request.
  exact (proj1 (proj1 (connection_close_exact_name emptyWorld ":8080" NewHTTP11Config
                         request "Close" eq_refl eq_refl))).
Defined.

(** ** HEAD requests for static files *)

Section HeadRequests.

Context (w : World) (addr : string) (cfg : ProtocolConfig).

Local Abbreviation s := (NewServerWithVersion w addr cfg).

Lemma CompressResponse_without_gzip resp req :
  header (req_Headers req) "Accept-Encoding" = "" ->
  resp_Body (CompressResponse w resp req) = resp_Body resp
  /\ resp_StatusCode (CompressResponse w resp req) = resp_StatusCode resp.
Proof.
  intros Hae. unfold CompressResponse. rewrite Hae.
  change (acceptsGzip "") with false. simpl.
  repeat case_match; done.
Qed.

(** C10. A HEAD request for a [/static/] path takes the streaming branch and
    is answered exactly like the GET request that differs from it in the
    method only: the file server never reads the method.  In particular the
    small-file emitter sends the whole file as the body of the response to a
    HEAD request. *)
Theorem head_is_served_like_get req conn count :
  GoStrings.HasPrefix (req_Path req) "/static/" = true ->
  NeedsStreaming (withMethod "HEAD" req) = true
  /\ serveRequest w s conn count (withMethod "HEAD" req)
     = serveRequest w s conn count (withMethod "GET" req)
  /\ (forall fs keepAlive remaining,
        ServeFileStream w fs (withMethod "HEAD" req) conn keepAlive remaining
        = ServeFileStream w fs (withMethod "GET" req) conn keepAlive remaining)
  /\ (forall filePath content fileSize modTime keepAlive remaining,
        os_ReadFile w filePath = Some content ->
        header (req_Headers req) "Accept-Encoding" = "" ->
        writeResults conn = [] ->
        exists resp,
          written (out_conn (serveSmallFile w conn filePath fileSize modTime
                               (req_Version req) (withMethod "HEAD" req)
                               keepAlive remaining))
          = written conn ++ [resp]
          /\ resp_StatusCode resp = 200%Z
          /\ resp_Body resp = content).
Proof.
  intros Hpre. split; [|split; [|split]].
  - unfold NeedsStreaming, withMethod. cbn [req_Method req_Path]. by rewrite Hpre.
  - unfold serveRequest, HandlerNeedsStreaming, NeedsStreaming, withMethod.
    cbn [req_Method req_Path]. by rewrite Hpre.
  - done.
  - intros filePath content fileSize modTime keepAlive remaining Hread Hae Hwr.
    unfold serveSmallFile. rewrite Hread. simpl. unfold Write. rewrite Hwr. simpl.
    eexists. split; [reflexivity|].
    match goal with |- context [CompressResponse w ?r ?q] =>
      destruct (CompressResponse_without_gzip r q Hae) as [-> ->] end.
    by destruct keepAlive.
Qed.

End HeadRequests.

Lemma head_is_served_like_get_witness :
  let req := {| req_Method := "HEAD"; req_Path := "/static/index.html";
                req_Version := HTTP11; req_Headers := ∅; req_Body := "" |} in
  NeedsStreaming (withMethod "HEAD" req) = true
  /\ serveRequest emptyWorld sampleServer (connOf []) 1 (withMethod "HEAD" req)
     = serveRequest emptyWorld sampleServer (connOf []) 1 (withMethod "GET" req).
Proof.
  intros req.
  pose proof (head_is_served_like_get emptyWorld ":8080" NewHTTP11Config req (connOf []) 1
                eq_refl) as H.
  exact (conj (proj1 H) (proj1 (proj2 H))).
Defined.

(** ** The request [GET /static/../etc/passwd] *)

Section TraversalRequest.

Context (w : World).

Lemma ServeFileStream_etc_passwd req conn keepAlive remaining :
  req_Path req = "/static/../etc/passwd" ->
  ServeFileStream w (NewFileServer "./public") req conn keepAlive remaining
  = after [CallStat "public/etc/passwd"]
      match os_Stat w "public/etc/passwd" with
      | StatNotExist =>
          sent (sendError w conn 404 "Not Found" (req_Version req) keepAlive remaining)
      | StatError =>
          sent (sendError w conn 500 "Internal Server Error" (req_Version req)
                  keepAlive remaining)
      | StatInfo fileInfo =>
          if fi_IsDir fileInfo then
            after [CallStat "public/etc/passwd/index.html"]
              match os_Stat w "public/etc/passwd/index.html" with
              | StatInfo newInfo =>
                  serveResolved w req conn "public/etc/passwd/index.html" newInfo
                    keepAlive remaining
              | _ =>
                  sent (sendError w conn 403 "Directory listing disabled"
                          (req_Version req) keepAlive remaining)
              end
          else serveResolved w req conn "public/etc/passwd" fileInfo keepAlive remaining
      end.
Proof.
  intros Hpath. unfold ServeFileStream. rewrite Hpath.
  change (GoFilepath.Clean (hd "" (GoStrings.Split "/static/../etc/passwd" "?")))
    with "/etc/passwd".
  change (GoStrings.Contains "/etc/passwd" "..") with false.
  change (GoFilepath.Join (root (NewFileServer "./public")) "/etc/passwd")
    with "public/etc/passwd".
  change (GoFilepath.Join "public/etc/passwd" "index.html")
    with "public/etc/passwd/index.html".
  reflexivity.
Qed.

(** C1 (amended).  For the request [GET /static/../etc/passwd HTTP/1.1] (with
    a Host header) the path is cleaned to [/etc/passwd] before the check for
    [..], so the request is not refused: the server looks for
    [public/etc/passwd], inside its root, and when there is no such file
    its response has status 404 and body [404 - Not Found]. *)
Theorem traversal_request_is_answered_404 addr :
  os_Stat w "public/etc/passwd" = StatNotExist ->
  exists c resp,
    handleConnection w (NewServer w addr) traversalConn = Some (c, 1%Z)
    /\ written c = [resp]
    /\ resp_StatusCode resp = 404%Z
    /\ resp_Body resp = "404 - Not Found".
Proof.
  intros Hstat. unfold handleConnection.
  change (S (length (pending traversalConn))) with 2%nat.
  set (req := {| req_Method := "GET"; req_Path := "/static/../etc/passwd";
                 req_Version := "HTTP/1.1"; req_Headers := {[ "Host" := "x" ]};
                 req_Body := "" |}).
  assert (ParseRequest traversalConn = Ok (req, connOf [])) as Hparse
    by (vm_compute; reflexivity).
  assert (ParseRequest (connOf []) = Err IOError) as Hend by reflexivity.
  assert (HandlerNeedsStreaming (handler (NewServer w addr)) req = true) as Hstream
    by reflexivity.
  assert (wantsKeepAlive (NewServer w addr) req = true) as Hka by reflexivity.
  simpl handleLoop. rewrite Hparse.
  unfold serveRequest. rewrite Hstream, Hka.
  change (true && (0 + 1 <? maxRequests)%Z) with true. cbv zeta.
  unfold HandleStream, RouteStream. simpl streamHandler. cbv iota beta.
  unfold HandleStaticFileStream. cbv zeta.
  rewrite ServeFileStream_etc_passwd by reflexivity. rewrite Hstat.
  unfold sendError, Write. simpl.
  eexists _, _. split; [reflexivity|]. split; [reflexivity|]. split; reflexivity.
Qed.

End TraversalRequest.

(** C1, as stated, fails: on a file system without [public/etc/passwd] the
    response to the request is the 404 of a missing file, not a 403. *)
Lemma traversal_request_is_not_forbidden :
  exists c resp,
    handleConnection emptyWorld sampleServer traversalConn = Some (c, 1%Z)
    /\ written c = [resp]
    /\ resp_StatusCode resp = 404%Z
    /\ resp_Body resp = "404 - Not Found"
    /\ resp_StatusCode resp ≠ 403%Z
    /\ resp_Body resp ≠ "403 - Forbidden".
Proof.
  do 2 eexists. split; [vm_compute; reflexivity|].
  split; [reflexivity|]. repeat split; done.
Qed.

Lemma traversal_request_is_answered_404_witness :
  exists c resp,
    handleConnection emptyWorld (NewServer emptyWorld ":8080") traversalConn = Some (c, 1%Z)
    /\ written c = [resp]
    /\ resp_StatusCode resp = 404%Z
    /\ resp_Body resp = "404 - Not Found".
Proof. exact (traversal_request_is_answered_404 emptyWorld ":8080" eq_refl). Defined.

(** ** Conditional requests *)

Section NotModified.

Context (w : World).

Local Abbreviation notModifiedResponse := (notModifiedResponse w).

Lemma answers_Write conn resp (P : Response -> Prop) :
  writeResults conn = [] -> P resp -> answers conn (fst (Write conn resp)) P.
Proof. intros Hw HP. unfold Write. rewrite Hw. simpl. by exists resp. Qed.

Lemma resp_StatusCode_CompressResponse resp req :
  resp_StatusCode (CompressResponse w resp req) = resp_StatusCode resp.
Proof. unfold CompressResponse. repeat case_match; done. Qed.

Lemma resp_StatusCode_setConnectionHeaders keepAlive n resp :
  resp_StatusCode (setConnectionHeaders keepAlive n resp) = resp_StatusCode resp.
Proof. by destruct keepAlive. Qed.

Lemma answers_sendError_500 conn status version keepAlive n :
  writeResults conn = [] ->
  answers conn (fst (sendError w conn 500 status version keepAlive n)) fileStatus.
Proof.
  intros Hw. apply answers_Write; [done|]. unfold fileStatus.
  rewrite resp_StatusCode_setConnectionHeaders. simpl. set_solver.
Qed.

Lemma answers_serveSmallFile conn filePath size t version req keepAlive n :
  writeResults conn = [] ->
  answers conn (out_conn (serveSmallFile w conn filePath size t version req keepAlive n))
    fileStatus.
Proof.
  intros Hw. unfold serveSmallFile.
  destruct (os_ReadFile w filePath); simpl; [|by apply answers_sendError_500].
  apply answers_Write; [done|]. unfold fileStatus.
  rewrite resp_StatusCode_CompressResponse, resp_StatusCode_setConnectionHeaders.
  simpl. set_solver.
Qed.

Lemma answers_serveLargeFile req conn filePath size t version keepAlive n :
  writeResults conn = [] ->
  answers conn (out_conn (serveLargeFile w req conn filePath size t version keepAlive n))
    fileStatus.
Proof.
  intros Hw. unfold serveLargeFile.
  destruct (os_Open w filePath); simpl; [|by apply answers_sendError_500].
  case_decide; simpl.
  { apply answers_Write; [done|]. unfold fileStatus. simpl.
    rewrite resp_StatusCode_setConnectionHeaders. simpl. set_solver. }
  destruct (parseRangeHeader _ _) as [[s0 e0]|err]; simpl.
  - unfold sendRangeFile.
    match goal with |- context [Write ?c ?r] =>
      pose proof (answers_Write c r fileStatus Hw) as Ha;
      destruct (Write c r) as [c' [e'|]] end; simpl in *.
    all: try destruct (_ <? _)%Z; simpl; apply Ha; unfold fileStatus; simpl;
      rewrite resp_StatusCode_setConnectionHeaders; simpl; set_solver.
  - match goal with |- context [Write ?c ?r] =>
      pose proof (answers_Write c r fileStatus Hw) as Ha;
      destruct (Write c r) as [c' [e'|]] end; simpl in *.
    all: apply Ha; unfold fileStatus;
      rewrite resp_StatusCode_setConnectionHeaders; simpl; set_solver.
Qed.

(** C7 (amended).  For a request that the file server resolves to an
    existing regular file (the cleaned path has no [..] in it) whose
    modification time [M] is not the zero time, and that carries, under the
    exact name [If-Modified-Since], a date [H] that parses in RFC 1123,
    RFC 850 or ANSI C form, the response is a 304 if and only if [M]
    truncated to whole seconds is not after [H] truncated to whole seconds;
    the 304 carries [Last-Modified], [Cache-Control], [Date], [Server] and
    the connection headers, and no body. *)
Theorem not_modified_iff_not_after fs req conn keepAlive remaining fileInfo H t :
  let cleanPath := GoFilepath.Clean (hd "" (GoStrings.Split (req_Path req) "?")) in
  GoStrings.Contains cleanPath ".." = false ->
  os_Stat w (GoFilepath.Join (root fs) cleanPath) = StatInfo fileInfo ->
  fi_IsDir fileInfo = false ->
  GoTime.IsZero (fi_ModTime fileInfo) = false ->
  req_Headers req !! "If-Modified-Since" = Some H ->
  H ≠ "" ->
  parseHTTPTime w H = Some t ->
  writeResults conn = [] ->
  exists resp,
    written (out_conn (ServeFileStream w fs req conn keepAlive remaining))
    = written conn ++ [resp]
    /\ (resp_StatusCode resp = 304%Z
        <-> (GoTime.TruncateSecond (fi_ModTime fileInfo) <= GoTime.TruncateSecond t)%Z)
    /\ (resp_StatusCode resp = 304%Z ->
        notModifiedResponse resp (GoTime.TruncateSecond (fi_ModTime fileInfo)) keepAlive).
Proof.
  intros cleanPath Hclean Hstat Hdir Hzero Hims Hne Hparse Hw.
  unfold ServeFileStream. fold cleanPath. rewrite Hclean, Hstat, Hdir. simpl.
  unfold serveResolved. rewrite Hzero. unfold header. rewrite Hims. simpl.
  destruct (String.eqb_spec H ""); [done|]. simpl. rewrite Hparse. simpl.
  unfold GoTime.After.
  destruct (Z.ltb_spec (GoTime.TruncateSecond t)
              (GoTime.TruncateSecond (fi_ModTime fileInfo))) as [Hlt|Hge]; simpl.
  - assert (forall resp, fileStatus resp ->
              (resp_StatusCode resp = 304%Z
               <-> (GoTime.TruncateSecond (fi_ModTime fileInfo)
                    <= GoTime.TruncateSecond t)%Z)
              /\ (resp_StatusCode resp = 304%Z ->
                  notModifiedResponse resp
                    (GoTime.TruncateSecond (fi_ModTime fileInfo)) keepAlive)) as Hfile.
    { intros resp Hs. unfold fileStatus in Hs.
      assert (resp_StatusCode resp ≠ 304%Z).
      { rewrite !elem_of_cons, elem_of_nil in Hs. lia. }
      split; [split; [done|lia]|done]. }
    destruct (_ <=? _)%Z.
    + destruct (answers_serveSmallFile conn
                  (GoFilepath.Join (root fs) cleanPath) (fi_Size fileInfo)
                  (GoTime.TruncateSecond (fi_ModTime fileInfo)) (req_Version req) req
                  keepAlive remaining Hw) as (resp & Hwr & Hs).
      exists resp. split; [done|]. by apply Hfile.
    + destruct (answers_serveLargeFile req conn
                  (GoFilepath.Join (root fs) cleanPath) (fi_Size fileInfo)
                  (GoTime.TruncateSecond (fi_ModTime fileInfo)) (req_Version req)
                  keepAlive remaining Hw) as (resp & Hwr & Hs).
      exists resp. split; [done|]. by apply Hfile.
  - unfold sendNotModified, Write. rewrite Hw. simpl.
    eexists. split; [reflexivity|]. split.
    + rewrite resp_StatusCode_setConnectionHeaders. simpl. split; [lia|done].
    + intros _. unfold notModifiedResponse.
      destruct keepAlive; simpl; repeat split;
        rewrite ?lookup_insert_ne by done; by rewrite ?lookup_insert_eq.
Qed.

End NotModified.

(** C7, as stated, fails in two ways.  A file whose modification time is the
    zero time is never answered with a 304, and a file whose name contains
    two dots in a row is refused before it is looked at, although in both
    cases [M] is not after [H]. *)
Lemma no_304_for_zero_mtime_or_dotted_name :
  (exists c resp,
     out_conn (ServeFileStream (oneFileWorld 0%Z) (NewFileServer "./public")
                 (conditionalRequest "/static/small.txt") (connOf []) true 99) = c
     /\ written c = [resp]
     /\ (GoTime.TruncateSecond 0%Z <= GoTime.TruncateSecond jan2006)%Z
     /\ resp_StatusCode resp = 200%Z
     /\ resp_Body resp = "hello")
  /\ (exists c resp,
        out_conn (ServeFileStream (oneFileWorld jan2006) (NewFileServer "./public")
                    (conditionalRequest "/static/notes..txt") (connOf []) true 99) = c
        /\ written c = [resp]
        /\ (GoTime.TruncateSecond jan2006 <= GoTime.TruncateSecond jan2006)%Z
        /\ resp_StatusCode resp = 403%Z).
Proof.
  split.
  - do 2 eexists. split; [reflexivity|]. split; [vm_compute; reflexivity|].
    split; [by vm_compute|]. split; reflexivity.
  - do 2 eexists. split; [reflexivity|]. split; [vm_compute; reflexivity|].
    split; [by vm_compute|]. reflexivity.
Qed.

Lemma not_modified_iff_not_after_witness :
  exists resp,
    written (out_conn (ServeFileStream (oneFileWorld jan2006) (NewFileServer "./public")
                         (conditionalRequest "/static/small.txt") (connOf []) true 99))
    = [resp]
    /\ resp_StatusCode resp = 304%Z.
Proof.
  destruct (not_modified_iff_not_after (oneFileWorld jan2006) (NewFileServer "./public")
              (conditionalRequest "/static/small.txt") (connOf []) true 99
              {| fi_IsDir := false; fi_ModTime := jan2006; fi_Size := 5 |}
              "Mon, 02 Jan 2006 15:04:05 GMT" jan2006
              eq_refl eq_refl eq_refl eq_refl eq_refl ltac:(discriminate) eq_refl eq_refl)
    as (resp & Hw & Hiff & _).
  exists resp. split; [exact Hw|]. apply Hiff. vm_compute. discriminate.
Defined.

(** ** The body of a parsed request *)

Section BodyLength.

(** The body loop stops as soon as enough bytes are there, having appended
    the reads it consumed. *)
Lemma readBody_Ok pending body n body' rest :
  readBody pending body n = Ok (body', rest) ->
  (n <= GoStrings.len body')%Z
  /\ exists used, pending = used ++ rest /\ body' = body +:+ joinChunks used.
Proof.
  revert body. induction pending as [|chunk pending IH]; intros body; simpl.
  - destruct (Z.ltb_spec (GoStrings.len body) n); intros Heq; simplify_eq.
    split; [done|]. exists []. by rewrite str_app_nil_r.
  - destruct (Z.ltb_spec (GoStrings.len body) n); intros Heq; simplify_eq.
    + apply IH in Heq as (Hlen & used & -> & ->). split; [done|].
      exists (chunk :: used). split; [done|]. by rewrite joinChunks_cons, str_app_assoc.
    + split; [done|]. exists []. by rewrite str_app_nil_r.
Qed.

(** It succeeds when the pending reads hold enough bytes. *)
Lemma readBody_enough pending body n :
  (n <= GoStrings.len (body +:+ joinChunks pending))%Z ->
  exists body' rest, readBody pending body n = Ok (body', rest).
Proof.
  revert body. induction pending as [|chunk pending IH]; intros body Hn; simpl in *.
  - rewrite str_app_nil_r in Hn.
    destruct (Z.ltb_spec (GoStrings.len body) n); [lia|eauto].
  - destruct (Z.ltb_spec (GoStrings.len body) n); [|eauto].
    apply IH. by rewrite str_app_assoc.
Qed.

(** What a digit string scans to. *)
Lemma digitVal_range c d : GoStrconv.digitVal c = Some d -> (0 <= d <= 9)%Z.
Proof.
  unfold GoStrconv.digitVal. generalize (nat_of_ascii c). intros k.
  destruct (Nat.leb_spec 48 k); destruct (Nat.leb_spec k 57); simpl;
    intros [= <-]; lia.
Qed.

Lemma parseDigits_nonneg v acc n :
  (0 <= acc)%Z -> GoStrconv.parseDigits acc v = Some n -> (0 <= n)%Z.
Proof.
  revert acc. induction v as [|c v IH]; intros acc Hacc; simpl.
  - intros [= <-]. done.
  - destruct (GoStrconv.digitVal c) as [d|] eqn:Hd; [|done].
    apply digitVal_range in Hd. apply IH. lia.
Qed.

Lemma scanNumber_digits v acc n :
  GoStrconv.parseDigits acc v = Some n -> GoStrconv.scanNumber v = v.
Proof.
  revert acc. induction v as [|c v IH]; intros acc; simpl; [done|].
  unfold GoStrconv.isScanDigit. destruct (GoStrconv.digitVal c); [|done].
  intros Hp. by rewrite (IH _ Hp).
Qed.

Lemma digitVal_not_sign c d :
  GoStrconv.digitVal c = Some d ->
  Ascii.eqb c "+" = false /\ Ascii.eqb c "-" = false.
Proof.
  intros Hd. split; apply Ascii.eqb_neq; intros ->; by vm_compute in Hd.
Qed.

Lemma Sscanf_d_decimal v L :
  decimalValue v = Some L -> (L <= GoStrconv.maxInt64)%Z -> GoStrconv.Sscanf_d v = L.
Proof.
  destruct v as [|c v]; [done|]. unfold decimalValue. intros Hp Hmax.
  pose proof Hp as Hp'. simpl in Hp'.
  destruct (GoStrconv.digitVal c) as [d|] eqn:Hd; [|done].
  destruct (digitVal_not_sign _ _ Hd) as [Hplus Hminus].
  unfold GoStrconv.Sscanf_d. rewrite Hplus, Hminus. simpl orb. cbv iota.
  rewrite (scanNumber_digits _ _ _ Hp).
  unfold GoStrconv.ParseInt. rewrite Hplus, Hminus. simpl orb. cbv iota zeta.
  rewrite Hp. destruct (Z.leb_spec L GoStrconv.maxInt64); [done|lia].
Qed.

(** The body [ParseRequest] stores when the header map has a
    [Content-Length] that scans to [L]. *)
Lemma ParseRequest_body conn req conn' v :
  ParseRequest conn = Ok (req, conn') ->
  req_Headers req !! "Content-Length" = Some v ->
  let L := GoStrconv.Sscanf_d v in
  exists allData pending1 headerSection bodySection,
    readHeaders (pending conn) "" = Ok (allData, pending1)
    /\ splitSections allData = Some (headerSection, bodySection)
    /\ ((0 < L)%Z ->
        (L <= GoStrings.len (bodySection +:+ joinChunks pending1))%Z
        /\ req_Body req
           = GoStrings.slice_to (Z.to_nat L) (bodySection +:+ joinChunks pending1))
    /\ ((L <= 0)%Z -> req_Body req = "").
Proof.
  unfold ParseRequest.
  destruct (readHeaders (pending conn) "") as [[allData pending1]|] eqn:Hh; [|done].
  destruct (splitSections allData) as [[headerSection bodySection]|] eqn:Hs; [|done].
  destruct (GoStrings.Split headerSection byte_LF) as [|firstLine headerLines]; [done|].
  destruct (GoStrings.Fields _) as [|method [|path [|version ?]]]; try done.
  destruct (parseHeaders headerLines !! "Content-Length") as [contentLength|] eqn:Hcl.
  - destruct (Z.ltb_spec 0 (GoStrconv.Sscanf_d contentLength)) as [Hpos|Hnpos].
    + destruct (readBody _ _ _) as [[body' rest]|] eqn:Hb; [|done].
      intros [= <- <-]. simpl. rewrite Hcl. intros [= <-].
      exists allData, pending1, headerSection, bodySection.
      split; [done|]. split; [done|].
      apply readBody_Ok in Hb as (Hlen & used & -> & ->). split; [|lia].
      intros _. rewrite joinChunks_app, <- str_app_assoc. split.
      * rewrite len_app. pose proof (len_nonneg (joinChunks rest)). lia.
      * symmetry. apply slice_to_app. unfold GoStrings.len in Hlen. lia.
    + intros [= <- <-]. simpl. rewrite Hcl. intros [= <-].
      exists allData, pending1, headerSection, bodySection.
      split; [done|]. split; [done|]. split; [lia|done].
  - intros [= <- <-]. simpl. by rewrite Hcl.
Qed.

(** C5. For every request the parser accepts whose header map holds a
    well-formed [Content-Length] (a string of decimal digits whose value [L]
    is a Go [int]), the stored body has exactly [L] bytes: it is the first
    [L] bytes of what follows the header block in the bytes read and still
    to be read, the excess being dropped. *)
Theorem content_length_body conn req conn' v L :
  ParseRequest conn = Ok (req, conn') ->
  req_Headers req !! "Content-Length" = Some v ->
  decimalValue v = Some L ->
  (L <= GoStrconv.maxInt64)%Z ->
  GoStrings.len (req_Body req) = L
  /\ exists allData pending1 headerSection bodySection,
       readHeaders (pending conn) "" = Ok (allData, pending1)
       /\ splitSections allData = Some (headerSection, bodySection)
       /\ req_Body req
          = GoStrings.slice_to (Z.to_nat L) (bodySection +:+ joinChunks pending1).
Proof.
  intros Hparse Hcl Hv Hmax.
  assert (0 <= L)%Z as Hnn.
  { destruct v; [done|]. by apply (parseDigits_nonneg _ 0%Z) in Hv. }
  destruct (ParseRequest_body _ _ _ _ Hparse Hcl)
    as (allData & pending1 & hs & bs & Hh & Hs & Hpos & Hzero).
  rewrite (Sscanf_d_decimal _ _ Hv Hmax) in Hpos, Hzero.
  destruct (Z_lt_le_dec 0 L) as [Hlt|Hle].
  - destruct (Hpos Hlt) as [Hlen ->]. split; [apply len_slice_to; lia|].
    by exists allData, pending1, hs, bs.
  - assert (L = 0%Z) as -> by lia. rewrite (Hzero Hle). split; [done|].
    exists allData, pending1, hs, bs. split; [done|]. split; [done|].
    by destruct (bs +:+ _).
Qed.

End BodyLength.

Lemma content_length_body_witness :
  let conn := connOf [ requestBytes ["POST /echo HTTP/1.1"; "Content-Length: 5"] "HELLO WORLD" ] in
  exists req conn',
    ParseRequest conn = Ok (req, conn') /\ GoStrings.len (req_Body req) = 5%Z.
Proof.
  intros conn.
  destruct (ParseRequest conn) as [[req conn']|] eqn:Hp; [|by vm_compute in Hp].
  exists req, conn'. split; [reflexivity|].
  refine (proj1 (content_length_body conn req conn' "5" 5%Z Hp _ eq_refl _)).
  - vm_compute in Hp. injection Hp as <- _. reflexivity.
  - by vm_compute.
Defined.

(** ** The size guard *)

Section SizeGuard.

(** The header block of the oversized request is complete after the first
    read, whatever follows it. *)
Lemma oversized_headers bodyReads :
  readHeaders (oversizedHead :: bodyReads) "" = Ok (oversizedHead, bodyReads).
Proof. vm_compute. reflexivity. Qed.

Lemma oversized_parse bodyReads :
  ParseRequest (connOf (oversizedHead :: bodyReads))
  = match readBody bodyReads "" 1048577 with
    | Err e => Err e
    | Ok (currentBodyBytes, pending2) =>
        Ok ({| req_Method := "POST"; req_Path := "/echo"; req_Version := "HTTP/1.1";
               req_Headers := {[ "Host" := "x"; "Content-Length" := "1048577" ]};
               req_Body := GoStrings.slice_to (Z.to_nat 1048577) currentBodyBytes |},
            connOf pending2)
    end.
Proof.
  unfold ParseRequest, connOf. cbn [pending]. rewrite oversized_headers.
  assert (splitSections oversizedHead
          = Some ("POST /echo HTTP/1.1" +:+ String byte_CR (String byte_LF
                    ("Host: x" +:+ String byte_CR (String byte_LF
                       "Content-Length: 1048577"))), "")) as -> by (vm_compute; reflexivity).
  match goal with |- context [GoStrings.Split ?h byte_LF] =>
    assert (GoStrings.Split h byte_LF
            = [ "POST /echo HTTP/1.1" +:+ String byte_CR "";
                "Host: x" +:+ String byte_CR ""; "Content-Length: 1048577" ]) as ->
      by (vm_compute; reflexivity) end.
  match goal with |- context [GoStrings.Fields ?l] =>
    assert (GoStrings.Fields l = ["POST"; "/echo"; "HTTP/1.1"]) as ->
      by (vm_compute; reflexivity) end.
  cbv zeta.
  match goal with |- context [parseHeaders ?l] =>
    assert (parseHeaders l = {[ "Host" := "x"; "Content-Length" := "1048577" ]}) as ->
      by (vm_compute; reflexivity) end.
  assert (({[ "Host" := "x"; "Content-Length" := "1048577" ]} : gmap string string)
            !! "Content-Length" = Some "1048577") as -> by (vm_compute; reflexivity).
  assert (GoStrconv.Sscanf_d "1048577" = 1048577%Z) as -> by (vm_compute; reflexivity).
  change (0 <? 1048577)%Z with true. cbv iota.
  destruct (readBody bodyReads "" 1048577) as [[b r]|]; reflexivity.
Qed.

(** C3, on the code: the parser accepts [oversizedConn], whose reads are all
    within the 4096-byte buffer, and stores a body of 1048577 bytes, more
    than [MaxRequestSize]: the loop that reads the body has no size check. *)
Theorem oversized_body_is_accepted :
  conn_wf oversizedConn
  /\ exists req conn',
       ParseRequest oversizedConn = Ok (req, conn')
       /\ GoStrings.len (req_Body req) = 1048577%Z
       /\ (MaxRequestSize < GoStrings.len (req_Body req))%Z.
Proof.
  split.
  - unfold conn_wf, oversizedConn, connOf. cbn [pending]. apply Forall_cons. split.
    + by vm_compute.
    + apply Forall_forall. intros chunk Hin. apply list_elem_of_In, repeat_spec in Hin as ->.
      unfold GoStrings.len. rewrite length_filler. by vm_compute.
  - unfold oversizedConn. rewrite oversized_parse.
    destruct (readBody_enough (repeat (filler 4096) 257) "" 1048577) as (b & r & Hb).
    { rewrite str_app_nil_l, len_joinChunks_repeat. unfold GoStrings.len.
      rewrite length_filler. lia. }
    rewrite Hb. apply readBody_Ok in Hb as (Hlen & _).
    eexists _, _. split; [reflexivity|]. cbn [req_Body].
    rewrite len_slice_to by lia. split; [done|]. unfold MaxRequestSize. lia.
Qed.

End SizeGuard.

(** ** Decimal numbers *)

Section DecimalFacts.

Lemma digitVal_pretty_N_char d :
  (d < 10)%N -> GoStrconv.digitVal (pretty_N_char d) = Some (Z.of_N d).
Proof.
  intros Hd.
  assert (d = 0 ∨ d = 1 ∨ d = 2 ∨ d = 3 ∨ d = 4 ∨ d = 5 ∨ d = 6 ∨ d = 7 ∨ d = 8 ∨ d = 9)%N
    as Hcases by lia.
  repeat destruct Hcases as [->|Hcases]; try subst d; reflexivity.
Qed.

Lemma parseDigits_pretty_N_go x s :
  GoStrconv.parseDigits 0 (pretty_N_go x s) = GoStrconv.parseDigits (Z.of_N x) s.
Proof.
  revert s. induction (N.lt_wf_0 x) as [x _ IH]; intros s.
  destruct (N.eq_dec x 0%N) as [->|Hx]; [by rewrite pretty_N_go_0|].
  rewrite pretty_N_go_step by lia.
  rewrite IH by (apply N.div_lt; lia).
  simpl. rewrite digitVal_pretty_N_char by (apply N.mod_lt; lia).
  f_equal. rewrite <- N2Z.inj_mul with (m := 10%N), <- N2Z.inj_add.
  f_equal. pose proof (N.div_mod x 10). lia.
Qed.

Lemma pretty_N_go_nonempty x s : s ≠ "" -> pretty_N_go x s ≠ "".
Proof.
  revert s. induction (N.lt_wf_0 x) as [x _ IH]; intros s Hs.
  destruct (N.eq_dec x 0%N) as [->|Hx]; [by rewrite pretty_N_go_0|].
  rewrite pretty_N_go_step by lia. apply IH; [apply N.div_lt; lia|done].
Qed.

Lemma pretty_N_go_positive x : (0 < x)%N -> pretty_N_go x "" ≠ "".
Proof. intros Hx. rewrite pretty_N_go_step by done. by apply pretty_N_go_nonempty. Qed.

(** [%d] of a non-negative number is its string of digits. *)
Lemma decimalValue_FormatInt n :
  (0 <= n)%Z -> decimalValue (GoStrconv.FormatInt n) = Some n.
Proof.
  intros Hn. destruct n as [|p|p]; [done| |lia].
  unfold GoStrconv.FormatInt, pretty, pretty_Z, pretty, pretty_positive, pretty, pretty_N.
  rewrite decide_False by done.
  pose proof (pretty_N_go_positive (N.pos p) eq_refl) as Hne.
  pose proof (parseDigits_pretty_N_go (N.pos p) "") as Hp.
  unfold decimalValue. destruct (pretty_N_go (N.pos p) ""); [done|]. exact Hp.
Qed.

Lemma FormatInt_negative n :
  (n < 0)%Z -> exists digits, GoStrconv.FormatInt n = String "-" digits.
Proof. intros Hn. destruct n as [|p|p]; [lia|lia|]. by eexists. Qed.

Lemma ParseInt_decimal v n :
  decimalValue v = Some n ->
  GoStrconv.ParseInt v = if (n <=? GoStrconv.maxInt64)%Z then Some n else None.
Proof.
  destruct v as [|c v]; [done|]. unfold decimalValue. intros Hp.
  pose proof Hp as Hp'. simpl in Hp'.
  destruct (GoStrconv.digitVal c) as [d|] eqn:Hd; [|done].
  destruct (digitVal_not_sign _ _ Hd) as [Hplus Hminus].
  unfold GoStrconv.ParseInt. rewrite Hplus, Hminus. simpl orb. cbv iota zeta.
  by rewrite Hp.
Qed.

Lemma decimal_no_dash v acc n :
  GoStrconv.parseDigits acc v = Some n -> GoStrings.IndexByte v "-" = None.
Proof.
  revert acc. induction v as [|c v IH]; intros acc; simpl; [done|].
  destruct (GoStrconv.digitVal c) as [d|] eqn:Hd; [|done]. intros Hp.
  destruct (digitVal_not_sign _ _ Hd) as [_ ->]. by rewrite (IH _ Hp).
Qed.

Lemma decimalValue_no_dash v n :
  decimalValue v = Some n -> GoStrings.IndexByte v "-" = None /\ v ≠ "".
Proof.
  destruct v; [done|]. unfold decimalValue. intros Hp. split; [|done].
  by eapply decimal_no_dash.
Qed.

End DecimalFacts.

(** ** Splitting *)

Section SplitFacts.

Lemma Split_nonempty s sep : GoStrings.Split s sep ≠ [].
Proof. destruct s as [|c s]; simpl; [done|]. by repeat case_match. Qed.

Lemma Split_without s sep :
  GoStrings.IndexByte s sep = None -> GoStrings.Split s sep = [s].
Proof.
  induction s as [|c s IH]; simpl; [done|].
  destruct (Ascii.eqb c sep); [done|].
  destruct (GoStrings.IndexByte s sep); [done|]. intros _. by rewrite IH.
Qed.

Lemma Split_at s rest sep :
  GoStrings.IndexByte s sep = None ->
  GoStrings.Split (s +:+ String sep rest) sep = s :: GoStrings.Split rest sep.
Proof.
  induction s as [|c s IH]; intros Hs.
  - rewrite str_app_nil_l. simpl. by rewrite Ascii.eqb_refl.
  - rewrite str_app_cons. simpl in *.
    destruct (Ascii.eqb c sep); [done|].
    destruct (GoStrings.IndexByte s sep); [done|]. by rewrite IH.
Qed.

Lemma Split_sep_first rest sep :
  GoStrings.Split (String sep rest) sep = "" :: GoStrings.Split rest sep.
Proof. simpl. by rewrite Ascii.eqb_refl. Qed.

End SplitFacts.

(** ** Range requests *)

Section RangeRequests.

Context (w : World).

Lemma length_slice_from n s :
  String.length (GoStrings.slice_from n s) = (String.length s - n)%nat.
Proof.
  revert s. induction n as [|n IH]; intros [|c s]; simpl; try done; lia.
Qed.

Lemma parseRangeHeader_bounds value fileSize start end_ :
  parseRangeHeader value fileSize = Ok (start, end_) ->
  (0 <= start <= end_ /\ end_ < fileSize)%Z.
Proof.
  unfold parseRangeHeader. repeat case_match; try done; intros [= <- <-].
  all: repeat match goal with
              | Hor : (_ || _) = false |- _ => apply orb_false_iff in Hor as [? ?]
              end; lia.
Qed.

Lemma parseRangeHeader_parts spec fileSize :
  parseRangeHeader ("bytes=" +:+ spec) fileSize
  = match GoStrings.Split spec "-" with
    | [part0; part1] =>
        match GoStrconv.ParseInt part0 with
        | None => Err (Errorf "invalid start value")
        | Some start =>
            match (if decide (part1 = "") then Some (fileSize - 1)%Z
                   else GoStrconv.ParseInt part1) with
            | None => Err (Errorf "invalid end value")
            | Some end_ =>
                if (start <? 0)%Z || (fileSize <=? end_)%Z || (end_ <? start)%Z then
                  Err (Errorf "range out of bounds")
                else Ok (start, end_)
            end
        end
    | _ => Err (Errorf "invalid range specification")
    end.
Proof. reflexivity. Qed.

Lemma dash_app rest : "-" +:+ rest = String "-" rest.
Proof. reflexivity. Qed.

Lemma parseRangeHeader_closed fileSize start end_ :
  (0 <= start <= end_)%Z -> (end_ < fileSize <= GoStrconv.maxInt64)%Z ->
  parseRangeHeader (rangeValue start (Some end_)) fileSize = Ok (start, end_).
Proof.
  intros Hs He. unfold rangeValue. rewrite parseRangeHeader_parts, dash_app.
  pose proof (decimalValue_FormatInt start ltac:(lia)) as Hds.
  pose proof (decimalValue_FormatInt end_ ltac:(lia)) as Hde.
  destruct (decimalValue_no_dash _ _ Hds) as [Hns _].
  destruct (decimalValue_no_dash _ _ Hde) as [Hne Hnonempty].
  rewrite (Split_at _ _ _ Hns), (Split_without _ _ Hne).
  rewrite (ParseInt_decimal _ _ Hds), (ParseInt_decimal _ _ Hde).
  rewrite decide_False by done.
  destruct (Z.leb_spec start GoStrconv.maxInt64); [|lia].
  destruct (Z.leb_spec end_ GoStrconv.maxInt64); [|lia].
  destruct (Z.ltb_spec start 0); [lia|].
  destruct (Z.leb_spec fileSize end_); [lia|].
  destruct (Z.ltb_spec end_ start); [lia|]. done.
Qed.

Lemma parseRangeHeader_open fileSize start :
  (0 <= start < fileSize)%Z -> (fileSize <= GoStrconv.maxInt64)%Z ->
  parseRangeHeader (rangeValue start None) fileSize = Ok (start, (fileSize - 1)%Z).
Proof.
  intros Hs He. unfold rangeValue. rewrite parseRangeHeader_parts, dash_app.
  pose proof (decimalValue_FormatInt start ltac:(lia)) as Hds.
  destruct (decimalValue_no_dash _ _ Hds) as [Hns _].
  rewrite (Split_at _ _ _ Hns). simpl GoStrings.Split.
  rewrite (ParseInt_decimal _ _ Hds). rewrite decide_True by done.
  destruct (Z.leb_spec start GoStrconv.maxInt64); [|lia].
  destruct (Z.ltb_spec start 0); [lia|].
  destruct (Z.leb_spec fileSize (fileSize - 1)); [lia|].
  destruct (Z.ltb_spec (fileSize - 1) start); [lia|]. done.
Qed.

Lemma parseRangeHeader_out_of_bounds fileSize start end_ :
  (start < 0 \/ fileSize <= end_ \/ end_ < start)%Z ->
  exists err, parseRangeHeader (rangeValue start (Some end_)) fileSize = Err err.
Proof.
  intros Hbad. unfold rangeValue. rewrite parseRangeHeader_parts, dash_app.
  destruct (Z_lt_le_dec start 0) as [Hneg|Hs].
  { destruct (FormatInt_negative _ Hneg) as [digits ->].
    rewrite str_app_cons, Split_sep_first.
    destruct (GoStrings.Split _ _) as [|a [|b [|? ?]]]; simpl; eauto. }
  pose proof (decimalValue_FormatInt start Hs) as Hds.
  destruct (decimalValue_no_dash _ _ Hds) as [Hns _].
  rewrite (Split_at _ _ _ Hns).
  destruct (Z_lt_le_dec end_ 0) as [Hneg|He].
  { destruct (FormatInt_negative _ Hneg) as [digits ->].
    rewrite Split_sep_first.
    destruct (GoStrings.Split digits "-") as [|? ?] eqn:Hsp; eauto.
    by apply Split_nonempty in Hsp. }
  pose proof (decimalValue_FormatInt end_ He) as Hde.
  destruct (decimalValue_no_dash _ _ Hde) as [Hne Hnonempty].
  rewrite (Split_without _ _ Hne).
  rewrite (ParseInt_decimal _ _ Hds), (ParseInt_decimal _ _ Hde).
  rewrite decide_False by done.
  destruct (start <=? GoStrconv.maxInt64)%Z; [|eauto].
  destruct (end_ <=? GoStrconv.maxInt64)%Z; [|eauto].
  destruct (Z.ltb_spec start 0); [eauto|].
  destruct (Z.leb_spec fileSize end_); [eauto|].
  destruct (Z.ltb_spec end_ start); [eauto|]. lia.
Qed.

(** What [serveLargeFile] sends for a [Range] header that is not empty. *)
Lemma serveLargeFile_range req conn filePath file fileSize modTime version keepAlive n :
  os_Open w filePath = Some file ->
  GoStrings.len file = fileSize ->
  writeResults conn = [] ->
  header (req_Headers req) "Range" ≠ "" ->
  answers conn
    (out_conn (serveLargeFile w req conn filePath fileSize modTime version keepAlive n))
    (fun resp =>
       match parseRangeHeader (header (req_Headers req) "Range") fileSize with
       | Ok (start, end_) => partialContent resp start end_ fileSize file
       | Err _ => rangeNotSatisfiable resp fileSize
       end).
Proof.
  intros Hopen Hlen Hw Hrange. unfold serveLargeFile. rewrite Hopen.
  rewrite decide_False by done.
  destruct (parseRangeHeader _ _) as [[start end_]|err] eqn:Hparse; simpl.
  - apply parseRangeHeader_bounds in Hparse as [Hs He].
    unfold sendRangeFile, Write. rewrite Hw. destruct keepAlive; simpl.
    all: match goal with |- context [if ?b then _ else _] => destruct b end; simpl.
    all: eexists; (split; [reflexivity|]).
    all: unfold partialContent; simpl.
    all: repeat split; rewrite ?lookup_insert_ne by done; rewrite ?lookup_insert_eq; try done.
    all: unfold GoStrings.len in *; rewrite length_slice_to, length_slice_from; lia.
  - unfold Write. rewrite Hw. simpl. eexists. split; [reflexivity|].
    unfold rangeNotSatisfiable. destruct keepAlive; simpl.
    all: repeat split; rewrite ?lookup_insert_ne by done; by rewrite ?lookup_insert_eq.
Qed.

(** What [serveLargeFile] sends when the [Range] header is empty or absent. *)
Lemma serveLargeFile_full req conn filePath file fileSize modTime version keepAlive n :
  os_Open w filePath = Some file ->
  writeResults conn = [] ->
  header (req_Headers req) "Range" = "" ->
  answers conn
    (out_conn (serveLargeFile w req conn filePath fileSize modTime version keepAlive n))
    (fun resp => fullContent resp fileSize file).
Proof.
  intros Hopen Hw Hrange. unfold serveLargeFile. rewrite Hopen.
  rewrite decide_True by done. unfold sendFullFile, Write. rewrite Hw.
  destruct keepAlive; simpl.
  all: eexists; (split; [reflexivity|]).
  all: unfold fullContent; simpl.
  all: repeat split; rewrite ?lookup_insert_ne by done; by rewrite ?lookup_insert_eq.
Qed.

(** A file above the in-memory threshold, asked for without a usable
    [If-Modified-Since], goes to [serveLargeFile]. *)
Lemma serveResolved_large req conn filePath fileInfo keepAlive n :
  (MaxInMemorySize < fi_Size fileInfo)%Z ->
  header (req_Headers req) "If-Modified-Since" = "" ->
  serveResolved w req conn filePath fileInfo keepAlive n
  = serveLargeFile w req conn filePath (fi_Size fileInfo) (fi_ModTime fileInfo)
      (req_Version req) keepAlive n.
Proof.
  intros Hsize Hims. unfold serveResolved. rewrite Hims.
  destruct (GoTime.IsZero _); simpl.
  all: destruct (Z.leb_spec (fi_Size fileInfo) MaxInMemorySize); [lia|done].
Qed.

Lemma rangeValue_nonempty start end_ : rangeValue start end_ ≠ "".
Proof. done. Qed.

(** C6 (amended).  Against a file larger than 1 MiB, of size [N], a [Range]
    header [bytes=S-E] or [bytes=S-] with [0 <= S <= E < N] ([E] being [N-1]
    when left out) is answered 206 with [Content-Range: bytes S-E/N],
    [Content-Length = E - S + 1] and the bytes [S..E] of the file; a header
    [bytes=S-E] with [S < 0], [E >= N] or [S > E] is answered 416 with
    [Content-Range: bytes */N] and no body; a header that does not begin
    with [bytes=] is answered 416 as well, and every header value that is
    not empty is answered either by that 416 or by a 206 for a range within
    the file.  An empty value is treated as no [Range] header: the whole
    file is sent with status 200. *)
Theorem range_requests req conn filePath fileInfo file keepAlive remaining :
  (MaxInMemorySize < fi_Size fileInfo <= GoStrconv.maxInt64)%Z ->
  header (req_Headers req) "If-Modified-Since" = "" ->
  os_Open w filePath = Some file ->
  GoStrings.len file = fi_Size fileInfo ->
  writeResults conn = [] ->
  let N := fi_Size fileInfo in
  let value := header (req_Headers req) "Range" in
  let c' := out_conn (serveResolved w req conn filePath fileInfo keepAlive remaining) in
  (forall S E, (0 <= S <= E)%Z -> (E < N)%Z -> value = rangeValue S (Some E) ->
     answers conn c' (fun resp => partialContent resp S E N file))
  /\ (forall S, (0 <= S < N)%Z -> value = rangeValue S None ->
        answers conn c' (fun resp => partialContent resp S (N - 1) N file))
  /\ (forall S E, (S < 0 \/ N <= E \/ E < S)%Z -> value = rangeValue S (Some E) ->
        answers conn c' (fun resp => rangeNotSatisfiable resp N))
  /\ (value ≠ "" -> GoStrings.HasPrefix value "bytes=" = false ->
        answers conn c' (fun resp => rangeNotSatisfiable resp N))
  /\ (value ≠ "" ->
        answers conn c' (fun resp =>
          rangeNotSatisfiable resp N
          \/ exists S E, (0 <= S <= E)%Z /\ (E < N)%Z /\ partialContent resp S E N file))
  /\ (value = "" -> answers conn c' (fun resp => fullContent resp N file)).
Proof.
  intros Hsize Hims Hopen Hlen Hw N value c'. subst c'.
  rewrite serveResolved_large by (done || lia).
  pose proof (serveLargeFile_range req conn filePath file N (fi_ModTime fileInfo)
                (req_Version req) keepAlive remaining Hopen Hlen Hw) as Hrange.
  fold value in Hrange.
  repeat split.
  - intros S E HS HE Hv. rewrite Hv in Hrange.
    rewrite parseRangeHeader_closed in Hrange by (done || lia).
    apply Hrange, rangeValue_nonempty.
  - intros S HS Hv. rewrite Hv in Hrange.
    rewrite parseRangeHeader_open in Hrange by (done || lia).
    apply Hrange, rangeValue_nonempty.
  - intros S E Hbad Hv. rewrite Hv in Hrange.
    destruct (parseRangeHeader_out_of_bounds N S E Hbad) as [err Herr].
    rewrite Herr in Hrange. apply Hrange, rangeValue_nonempty.
  - intros Hne Hprefix. specialize (Hrange Hne).
    unfold parseRangeHeader in Hrange. by rewrite Hprefix in Hrange.
  - intros Hne. destruct (Hrange Hne) as (resp & Hwr & Hresp).
    exists resp. split; [done|].
    destruct (parseRangeHeader value N) as [[S E]|err] eqn:Hparse; [|by left].
    right. exists S, E. apply parseRangeHeader_bounds in Hparse as [? ?]. done.
  - intros Hempty. by apply serveLargeFile_full.
Qed.

End RangeRequests.

Lemma len_bigFile : GoStrings.len bigFile = bigFileSize.
Proof. unfold GoStrings.len, bigFile. rewrite length_filler. by apply Z2Nat.id. Qed.

(** C6, as stated, fails.  A [Range] header with an empty value is not
    answered 416: the whole file is sent with status 200.  And a bound with
    a plus sign, which is not of the form [bytes=S-E], is answered 206. *)
Lemma empty_or_signed_range_is_not_refused :
  answers (connOf [])
    (out_conn (serveResolved bigWorld (rangeRequest "") (connOf [])
                 "public/static/big.bin" bigFileInfo true 99))
    (fun resp => resp_StatusCode resp = 200%Z /\ resp_Body resp = bigFile)
  /\ answers (connOf [])
       (out_conn (serveResolved bigWorld (rangeRequest "bytes=+5-10") (connOf [])
                    "public/static/big.bin" bigFileInfo true 99))
       (fun resp => resp_StatusCode resp = 206%Z).
Proof.
  split.
  - rewrite serveResolved_large by done.
    destruct (serveLargeFile_full bigWorld (rangeRequest "") (connOf [])
                "public/static/big.bin" bigFile bigFileSize jan2006 HTTP11 true 99
                eq_refl eq_refl eq_refl) as (resp & Hwr & Hs & _ & _ & Hb).
    exists resp. done.
  - rewrite serveResolved_large by done.
    destruct (serveLargeFile_range bigWorld (rangeRequest "bytes=+5-10") (connOf [])
                "public/static/big.bin" bigFile bigFileSize jan2006 HTTP11 true 99
                eq_refl len_bigFile eq_refl) as (resp & Hwr & Hresp); [done|].
    exists resp. split; [done|].
    change (parseRangeHeader _ _) with (@Ok (Z * Z) (5%Z, 10%Z)) in Hresp.
    by destruct Hresp.
Qed.

Lemma range_requests_witness :
  answers (connOf [])
    (out_conn (serveResolved bigWorld (rangeRequest (rangeValue 1000%Z (Some 1999%Z)))
                 (connOf []) "public/static/big.bin" bigFileInfo true 99))
    (fun resp => partialContent resp 1000 1999 bigFileSize bigFile).
Proof.
  refine (proj1 (range_requests bigWorld (rangeRequest (rangeValue 1000%Z (Some 1999%Z)))
                   (connOf []) "public/static/big.bin" bigFileInfo bigFile true 99
                   _ eq_refl eq_refl len_bigFile eq_refl) 1000%Z 1999%Z _ _ _).
  - by vm_compute.
  - by vm_compute.
  - by vm_compute.
  - unfold header, rangeRequest. cbn [req_Headers]. by rewrite lookup_singleton_eq.
Defined.

(** ** [filepath.Clean] *)

Section CleanFacts.

Lemma cleanLoop_cons rooted c rest out dotdot :
  cleanLoop rooted (c :: rest) out dotdot
  = if IsPathSeparator c then cleanLoop rooted rest out dotdot
    else if isDot c && atElementEnd rest then cleanLoop rooted rest out dotdot
    else
      match rest with
      | c' :: rest' =>
          if isDot c && isDot c' && atElementEnd rest' then
            if (dotdot <? length out)%nat then
              cleanLoop rooted rest' (backtrack out dotdot) dotdot
            else if negb rooted then
              cleanLoop rooted rest'
                ("."%char :: "."%char
                 :: (if (0 <? length out)%nat then Separator :: out else out))
                (length ("."%char :: "."%char
                         :: (if (0 <? length out)%nat then Separator :: out else out)))
            else cleanLoop rooted rest' out dotdot
          else copyElement rooted rest (c :: addSeparator rooted out) dotdot
      | [] => copyElement rooted rest (c :: addSeparator rooted out) dotdot
      end.
Proof. reflexivity. Qed.

Lemma copyElement_cons rooted c rest out dotdot :
  copyElement rooted (c :: rest) out dotdot
  = if IsPathSeparator c then cleanLoop rooted rest out dotdot
    else copyElement rooted rest (c :: out) dotdot.
Proof. reflexivity. Qed.

Lemma atElementEnd_app x y : atElementEnd (x ++ Separator :: y) = atElementEnd x.
Proof. by destruct x. Qed.

(** The loop reads a path element by element: what follows a separator is
    read from the state reached before it. *)
Lemma cleanLoop_app_aux rooted y n :
  forall x, (length x <= n)%nat ->
    (forall out dotdot,
       cleanLoop rooted (x ++ Separator :: y) out dotdot
       = cleanLoop rooted y (cleanLoop rooted x out dotdot).1
           (cleanLoop rooted x out dotdot).2)
    /\ (forall out dotdot,
          copyElement rooted (x ++ Separator :: y) out dotdot
          = cleanLoop rooted y (copyElement rooted x out dotdot).1
              (copyElement rooted x out dotdot).2).
Proof.
  induction n as [|n IH]; intros x Hlen.
  { destruct x; [|simpl in Hlen; lia]. split; intros out dotdot; reflexivity. }
  destruct x as [|c rest]; [split; intros out dotdot; reflexivity|].
  simpl in Hlen.
  destruct (IH rest ltac:(lia)) as [IHclean IHcopy].
  split; intros out dotdot.
  - rewrite <- app_comm_cons, !cleanLoop_cons, atElementEnd_app.
    destruct (IsPathSeparator c); [apply IHclean|].
    destruct (isDot c && atElementEnd rest); [apply IHclean|].
    destruct rest as [|c' rest'].
    { simpl app. cbv iota. change (isDot Separator) with false.
      rewrite andb_false_r. cbv iota.
      apply (IHcopy (c :: addSeparator rooted out) dotdot). }
    rewrite <- app_comm_cons, atElementEnd_app.
    destruct (isDot c && isDot c' && atElementEnd rest'); [|apply IHcopy].
    simpl in Hlen. destruct (IH rest' ltac:(lia)) as [IHclean' _].
    destruct (dotdot <? length out)%nat; [apply IHclean'|].
    destruct (negb rooted); apply IHclean'.
  - rewrite <- app_comm_cons, !copyElement_cons.
    destruct (IsPathSeparator c); [apply IHclean|apply IHcopy].
Qed.

Lemma cleanLoop_app rooted x y out dotdot :
  cleanLoop rooted (x ++ Separator :: y) out dotdot
  = cleanLoop rooted y (cleanLoop rooted x out dotdot).1 (cleanLoop rooted x out dotdot).2.
Proof. by apply (cleanLoop_app_aux rooted y (length x) x). Qed.

Lemma copyElement_sepFree rooted e out dotdot :
  sepFree e -> copyElement rooted e out dotdot = (rev e ++ out, dotdot).
Proof.
  revert out. induction e as [|c e IH]; intros out He; [done|].
  apply Forall_cons in He as [Hc He].
  rewrite copyElement_cons, Hc, IH by done. simpl. by rewrite <- app_assoc.
Qed.

(** A name is copied, after a separator if it is not the first element. *)
Lemma cleanLoop_name rooted e out dotdot :
  isName e -> cleanLoop rooted e out dotdot = (rev e ++ addSeparator rooted out, dotdot).
Proof.
  intros (Hne & Hfree & Hdot & Hdotdot).
  destruct e as [|c rest]; [done|].
  apply Forall_cons in Hfree as [Hc Hrest].
  rewrite cleanLoop_cons, Hc.
  assert (atElementEnd rest = true -> rest = []) as Hend.
  { destruct rest as [|c' ?]; [done|]. simpl. apply Forall_cons in Hrest as [-> _]. done. }
  destruct (isDot c) eqn:Hisdot.
  - apply Ascii.eqb_eq in Hisdot as ->. simpl andb.
    destruct (atElementEnd rest) eqn:Hat; [by rewrite (Hend eq_refl) in Hdot|].
    destruct rest as [|c' rest']; [done|].
    destruct (isDot c') eqn:Hisdot'.
    + apply Ascii.eqb_eq in Hisdot' as ->. simpl andb.
      apply Forall_cons in Hrest as [Hc' Hrest'].
      destruct (atElementEnd rest') eqn:Hat'.
      * destruct rest' as [|c'' ?]; [done|]. simpl in Hat'.
        apply Forall_cons in Hrest' as [Hc'' _]. congruence.
      * rewrite copyElement_sepFree by (by apply Forall_cons).
        simpl. by rewrite <- !app_assoc.
    + simpl andb. rewrite copyElement_sepFree by done. simpl. by rewrite <- !app_assoc.
  - simpl andb. destruct rest as [|c' rest'].
    + done.
    + rewrite copyElement_sepFree by done. simpl. by rewrite <- !app_assoc.
Qed.


(** *** Joined elements *)

Lemma joinSep_cons e e' es :
  joinSep (e :: e' :: es) = e ++ Separator :: joinSep (e' :: es).
Proof. reflexivity. Qed.

Lemma joinSep_snoc es e :
  es ≠ [] -> joinSep (es ++ [e]) = joinSep es ++ Separator :: e.
Proof.
  induction es as [|x es IH]; [done|]. intros _.
  destruct es as [|x' es].
  - simpl. by rewrite !app_nil_r.
  - rewrite <- !app_comm_cons, joinSep_cons. rewrite app_comm_cons, IH by done.
    rewrite joinSep_cons. by rewrite <- app_assoc.
Qed.

Lemma joinSep_nil_inv es :
  Forall (fun e => e ≠ []) es -> joinSep es = [] -> es = [].
Proof.
  destruct es as [|e es]; [done|]. intros He Hj. apply Forall_cons in He as [He _].
  simpl in Hj. by destruct e.
Qed.

Lemma length_joinSep_app es more :
  (length (joinSep es) <= length (joinSep (es ++ more)))%nat.
Proof.
  induction more as [|e more IH] using rev_ind; [by rewrite app_nil_r|].
  rewrite app_assoc. destruct (decide (es ++ more = [])) as [Hnil|Hne].
  - apply app_eq_nil in Hnil as [-> ->]. simpl. lia.
  - rewrite joinSep_snoc by done. rewrite length_app. simpl. lia.
Qed.

Lemma climb_nonempty rooted ups : Forall (fun e => e ≠ []) (climb rooted ups).
Proof. unfold climb. destruct rooted; [done|]. apply Forall_forall. intros e He.
  apply list_elem_of_In, repeat_spec in He as ->. done. Qed.

Lemma names_nonempty names : Forall isName names -> Forall (fun e => e ≠ []) names.
Proof. intros H. eapply Forall_impl; [exact H|]. by intros e [? _]. Qed.

Lemma isName_sepFree_rev e : isName e -> sepFree (rev e).
Proof. intros (_ & Hf & _). unfold sepFree. by apply Forall_rev. Qed.

(** *** The buffer after one more element *)

(** A name is put after a separator unless it is the first element. *)
Lemma cleaned_push rooted ups names e :
  Forall isName names ->
  rev (cleaned rooted ups (names ++ [e]))
  = rev e ++ addSeparator rooted (rev (cleaned rooted ups names)).
Proof.
  intros Hnames. unfold cleaned, addSeparator. rewrite !length_rev, !length_app.
  rewrite app_assoc.
  destruct (decide (climb rooted ups ++ names = [])) as [Hnil|Hne].
  - rewrite Hnil. destruct rooted; simpl; by rewrite ?app_nil_r.
  - rewrite joinSep_snoc by done.
    assert (joinSep (climb rooted ups ++ names) ≠ []) as Hj.
    { intros Hj. apply Hne. apply joinSep_nil_inv; [|done].
      apply Forall_app. split; [apply climb_nonempty|by apply names_nonempty]. }
    destruct (joinSep (climb rooted ups ++ names)) as [|c j] eqn:Heq; [done|].
    destruct rooted; simpl; rewrite ?rev_app_distr; simpl; by rewrite <- ?app_assoc.
Qed.

Lemma backtrack_to_separator l rest dotdot :
  sepFree l -> (dotdot <= length rest)%nat ->
  backtrack (l ++ Separator :: rest) dotdot = rest.
Proof.
  intros Hl Hd. induction l as [|c l IH]; simpl.
  - by rewrite andb_false_r.
  - apply Forall_cons in Hl as [-> Hl]. rewrite length_app. simpl.
    destruct (Nat.ltb_spec dotdot (length l + S (length rest))); [|lia].
    simpl. by apply IH.
Qed.

Lemma backtrack_to_floor l rest dotdot :
  sepFree l -> l ≠ [] -> length rest = dotdot ->
  backtrack (l ++ rest) dotdot = rest.
Proof.
  intros Hl Hne Hd. induction l as [|c l IH]; [done|]. simpl.
  apply Forall_cons in Hl as [-> Hl]. rewrite length_app.
  destruct l as [|c' l].
  - simpl. destruct (Nat.ltb_spec dotdot (length rest)); [lia|done].
  - destruct (Nat.ltb_spec dotdot (length (c' :: l) + length rest)); [|simpl in *; lia].
    simpl andb. cbv iota. by apply IH.
Qed.

(** [..] removes the last name. *)
Lemma backtrack_cleaned rooted ups names e :
  Forall isName names -> isName e ->
  backtrack (rev (cleaned rooted ups (names ++ [e]))) (length (cleaned rooted ups []))
  = rev (cleaned rooted ups names).
Proof.
  intros Hnames He. rewrite cleaned_push by done.
  pose proof (isName_sepFree_rev e He) as Hfree.
  assert (rev e ≠ []) as Hne.
  { destruct He as [He _]. intros Hr. apply He. by rewrite <- (rev_involutive e), Hr. }
  unfold addSeparator. rewrite length_rev.
  assert (length (cleaned rooted ups []) <= length (cleaned rooted ups names))%nat as Hle.
  { unfold cleaned. rewrite !length_app.
    pose proof (length_joinSep_app (climb rooted ups) names).
    rewrite app_nil_r. lia. }
  destruct (_ || _) eqn:Hsep.
  - apply backtrack_to_separator; [done|]. by rewrite length_rev.
  - apply backtrack_to_floor; [done|done|]. rewrite length_rev.
    apply orb_false_iff in Hsep as [H1 H2].
    unfold cleaned in *. rewrite app_nil_r in *. rewrite !length_app in *.
    destruct rooted; simpl in *.
    + apply negb_false_iff, Nat.eqb_eq in H1. lia.
    + apply negb_false_iff, Nat.eqb_eq in H2. lia.
Qed.

Lemma length_cleaned_names rooted ups names e :
  Forall isName (names ++ [e]) ->
  (length (cleaned rooted ups []) < length (cleaned rooted ups (names ++ [e])))%nat.
Proof.
  intros Hn. apply Forall_app in Hn as [Hnames He]. apply Forall_inv in He.
  pose proof (f_equal (@length ascii) (cleaned_push rooted ups names e Hnames)) as Hlen.
  rewrite length_rev, length_app, length_rev in Hlen. rewrite Hlen.
  assert (length (cleaned rooted ups []) <= length (cleaned rooted ups names))%nat as Hle.
  { unfold cleaned. rewrite !length_app.
    pose proof (length_joinSep_app (climb rooted ups) names).
    rewrite app_nil_r. lia. }
  assert (0 < length e)%nat as Hpos.
  { destruct He as [He _]. destruct e; [done|simpl; lia]. }
  unfold addSeparator. destruct (_ || _); simpl; rewrite ?length_rev; lia.
Qed.

(** *** The loop on single elements, from a state in normal form *)

Lemma cleanLoop_name_state rooted ups names e :
  Forall isName names -> isName e ->
  cleanLoop rooted e (cleanState rooted ups names).1 (cleanState rooted ups names).2
  = cleanState rooted ups (names ++ [e]).
Proof.
  intros Hnames He. rewrite cleanLoop_name by done. unfold cleanState. simpl.
  by rewrite cleaned_push.
Qed.

Lemma climbed_once ups :
  cleaned false (S ups) []
  = match ups with
    | O => ["."%char; "."%char]
    | S _ => cleaned false ups [] ++ [Separator; "."%char; "."%char]
    end.
Proof.
  unfold cleaned, climb. rewrite !app_nil_r. cbn [app].
  destruct ups as [|ups]; [reflexivity|].
  change (repeat ["."%char; "."%char] (S (S ups)))
    with (["."%char; "."%char] :: repeat ["."%char; "."%char] (S ups)).
  rewrite repeat_cons. by apply joinSep_snoc.
Qed.

Lemma length_climbed ups : (0 < length (cleaned false (S ups) []))%nat.
Proof. rewrite climbed_once. destruct ups; [simpl; lia|]. rewrite length_app. simpl. lia. Qed.

Lemma cleanLoop_dotdot_state rooted ups names :
  Forall isName names ->
  cleanLoop rooted ["."%char; "."%char]
    (cleanState rooted ups names).1 (cleanState rooted ups names).2
  = cleanState rooted (afterDotDot rooted ups names).1 (afterDotDot rooted ups names).2.
Proof.
  intros Hnames. rewrite cleanLoop_cons. simpl.
  destruct names as [|e0 names0 _] using rev_ind.
  - clear. unfold cleanState, afterDotDot. cbn [fst snd]. rewrite length_rev.
    rewrite Nat.ltb_irrefl. destruct rooted; cbn [negb fst snd]; [done|].
    rewrite climbed_once. destruct ups as [|ups]; [reflexivity|].
    pose proof (length_climbed ups) as Hpos.
    rewrite rev_app_distr, length_app. cbn [rev app length].
    destruct (Nat.ltb_spec 0 (length (cleaned false (S ups) []))); [|lia].
    cbn [length]. rewrite length_rev. f_equal. lia.
  - assert (afterDotDot rooted ups (names0 ++ [e0]) = (ups, names0)) as ->.
    { unfold afterDotDot. rewrite removelast_last. by destruct names0. }
    pose proof (length_cleaned_names rooted ups names0 e0 Hnames) as Hlt.
    apply Forall_app in Hnames as [Hnames He]. apply Forall_inv in He.
    unfold cleanState. simpl. rewrite length_rev.
    destruct (Nat.ltb_spec (length (cleaned rooted ups []))
                (length (cleaned rooted ups (names0 ++ [e0])))); [|lia].
    by rewrite backtrack_cleaned.
Qed.


Lemma removelast_names names :
  Forall isName names -> Forall isName (removelast names).
Proof.
  intros H. destruct names as [|e names _] using rev_ind; [done|].
  rewrite removelast_last. by apply Forall_app in H as [H _].
Qed.

Lemma afterDotDot_names rooted ups names :
  Forall isName names -> Forall isName (afterDotDot rooted ups names).2.
Proof.
  intros H. unfold afterDotDot. destruct names as [|e names]; [by destruct rooted|].
  cbn [snd]. by apply removelast_names.
Qed.

Lemma element_cases e :
  sepFree e ->
  e = [] \/ e = ["."%char] \/ e = ["."%char; "."%char] \/ isName e.
Proof.
  intros H. destruct (decide (e = [])); [by left|].
  destruct (decide (e = ["."%char])); [by right; left|].
  destruct (decide (e = ["."%char; "."%char])); [by right; right; left|].
  by right; right; right.
Qed.

Lemma first_element p :
  sepFree p \/ exists e rest, sepFree e /\ p = e ++ Separator :: rest.
Proof.
  induction p as [|c p IH]; [left; constructor|].
  destruct (IsPathSeparator c) eqn:Hc.
  - right. exists [], p. split; [constructor|].
    apply Ascii.eqb_eq in Hc as ->. done.
  - destruct IH as [Hfree|(e & rest & He & ->)].
    + left. by constructor.
    + right. exists (c :: e), rest. split; [by constructor|done].
Qed.

(** One element takes a state in normal form to a state in normal form. *)
Lemma cleanLoop_element_state rooted ups names e :
  sepFree e -> Forall isName names ->
  exists ups' names',
    Forall isName names'
    /\ cleanLoop rooted e (cleanState rooted ups names).1 (cleanState rooted ups names).2
       = cleanState rooted ups' names'.
Proof.
  intros He Hn. destruct (element_cases e He) as [->|[->|[->|Hname]]].
  - exists ups, names. split; [done|]. by destruct (cleanState rooted ups names).
  - exists ups, names. split; [done|]. by destruct (cleanState rooted ups names).
  - eexists _, _. split; [|by apply cleanLoop_dotdot_state]. by apply afterDotDot_names.
  - exists ups, (names ++ [e]). split; [|by apply cleanLoop_name_state].
    apply Forall_app. split; [done|]. by constructor.
Qed.

(** So does every path: whatever the bytes, the loop keeps the buffer in
    normal form. *)
Lemma cleanLoop_state rooted p ups names :
  Forall isName names ->
  exists ups' names',
    Forall isName names'
    /\ cleanLoop rooted p (cleanState rooted ups names).1 (cleanState rooted ups names).2
       = cleanState rooted ups' names'.
Proof.
  remember (length p) as n eqn:Hlen. revert p Hlen ups names.
  induction n as [n IH] using lt_wf_ind. intros p -> ups names Hn.
  destruct (first_element p) as [Hfree|(e & rest & He & ->)].
  - by apply cleanLoop_element_state.
  - rewrite cleanLoop_app.
    destruct (cleanLoop_element_state rooted ups names e He Hn) as (u1 & n1 & Hn1 & ->).
    eapply IH; [|reflexivity|done]. rewrite length_app. simpl. lia.
Qed.

(** Names are appended. *)
Lemma cleanLoop_names rooted more ups names :
  Forall isName names -> Forall isName more ->
  cleanLoop rooted (joinSep more)
    (cleanState rooted ups names).1 (cleanState rooted ups names).2
  = cleanState rooted ups (names ++ more).
Proof.
  revert names. induction more as [|e more IH]; intros names Hn Hm.
  - rewrite app_nil_r. cbn [joinSep]. by destruct (cleanState rooted ups names).
  - apply Forall_cons in Hm as [He Hm]. destruct more as [|e' more].
    + simpl joinSep. rewrite app_nil_r. by apply cleanLoop_name_state.
    + rewrite joinSep_cons, cleanLoop_app, cleanLoop_name_state by done.
      rewrite IH; [|apply Forall_app; split; [done|by constructor]|done].
      by rewrite <- app_assoc.
Qed.

(** Leading [..] elements of a relative path are kept. *)
Lemma cleanLoop_climb k ups more :
  Forall isName more ->
  cleanLoop false (joinSep (repeat ["."%char; "."%char] k ++ more))
    (cleanState false ups []).1 (cleanState false ups []).2
  = cleanState false (k + ups) more.
Proof.
  revert ups. induction k as [|k IH]; intros ups Hm.
  - exact (cleanLoop_names false more ups [] (Forall_nil_2 _) Hm).
  - cbn [repeat app].
    destruct (repeat ["."%char; "."%char] k ++ more) as [|x xs] eqn:Hrest.
    + apply app_eq_nil in Hrest as [Hk ->]. destruct k; [|done].
      change (joinSep [["."%char; "."%char]]) with ["."%char; "."%char].
      by rewrite cleanLoop_dotdot_state.
    + rewrite joinSep_cons, cleanLoop_app, cleanLoop_dotdot_state by done.
      cbn [afterDotDot fst snd]. rewrite IH by done.
      by rewrite Nat.add_succ_r.
Qed.

(** *** [Clean] on whole paths *)

Lemma Clean_cleanRun s : Clean s = finish (cleanRun (list_ascii_of_string s)).2.1.
Proof.
  unfold Clean, cleanRun, finish. destruct (list_ascii_of_string s) as [|c rest]; [done|].
  cbv zeta. destruct (IsPathSeparator c); cbn [fst snd].
  all: match goal with
       | |- context [cleanLoop ?r ?p ?o ?d] => by destruct (cleanLoop r p o d) as [[|x out] dd]
       end.
Qed.

Lemma finish_state rooted ups names :
  finish (cleanState rooted ups names).1 = render rooted ups names.
Proof.
  unfold finish, render, cleanState. cbn [fst]. rewrite rev_involutive.
  destruct (cleaned rooted ups names) as [|c l] eqn:Hw; [done|].
  destruct (rev (c :: l)) eqn:Hr; [|done].
  apply (f_equal (@length ascii)) in Hr. rewrite length_rev in Hr. done.
Qed.

Lemma cleanRun_app p y :
  p ≠ [] ->
  cleanRun (p ++ Separator :: y)
  = ((cleanRun p).1, cleanLoop (cleanRun p).1 y (cleanRun p).2.1 (cleanRun p).2.2).
Proof.
  destruct p as [|c rest]; [done|]. intros _. unfold cleanRun.
  rewrite <- app_comm_cons. destruct (IsPathSeparator c) eqn:Hc.
  - by rewrite cleanLoop_app.
  - by rewrite app_comm_cons, cleanLoop_app.
Qed.

(** [Clean] ends in a state in normal form, for every path. *)
Lemma cleanRun_state p :
  exists ups names,
    Forall isName names /\ cleanRun p = (atStart p, cleanState (atStart p) ups names).
Proof.
  destruct p as [|c rest].
  - by exists 0%nat, [].
  - unfold cleanRun, atStart. destruct (IsPathSeparator c) eqn:Hc.
    + destruct (cleanLoop_state true rest 0 [] (Forall_nil_2 _)) as (u & n & Hn & Heq).
      exists u, n. split; [done|]. f_equal. exact Heq.
    + destruct (cleanLoop_state false (c :: rest) 0 [] (Forall_nil_2 _))
        as (u & n & Hn & Heq).
      exists u, n. split; [done|]. f_equal. exact Heq.
Qed.

Lemma joinSep_first es c l :
  Forall (fun e => e ≠ [] /\ sepFree e) es ->
  joinSep es = c :: l -> IsPathSeparator c = false.
Proof.
  destruct es as [|e es]; [done|]. intros He Hj.
  apply Forall_cons in He as [[Hne Hfree] _].
  destruct e as [|c' e]; [done|]. simpl in Hj. injection Hj as -> _.
  by apply Forall_cons in Hfree as [? _].
Qed.

Lemma elements_sepFree rooted ups names :
  Forall isName names ->
  Forall (fun e => e ≠ [] /\ sepFree e) (climb rooted ups ++ names).
Proof.
  intros Hn. apply Forall_app. split.
  - unfold climb. destruct rooted; [done|]. apply Forall_forall. intros e He.
    apply list_elem_of_In, repeat_spec in He as ->. split; [done|].
    by repeat constructor.
  - eapply Forall_impl; [exact Hn|]. by intros e (? & ? & _).
Qed.

(** [Clean] reads a path in normal form back as it is. *)
Lemma cleanRun_render rooted ups names :
  Forall isName names ->
  cleanRun (list_ascii_of_string (render rooted ups names))
  = (rooted, cleanState rooted ups names).
Proof.
  intros Hn. unfold render. destruct (cleaned rooted ups names) as [|c l] eqn:Hw.
  - unfold cleaned in Hw. destruct rooted; [done|]. cbn [app] in Hw.
    apply joinSep_nil_inv in Hw.
    2:{ eapply Forall_impl; [exact (elements_sepFree false ups names Hn)|].
        by intros e [? _]. }
    apply app_eq_nil in Hw as [Hu ->]. unfold climb in Hu.
    destruct ups; [|done]. reflexivity.
  - rewrite list_ascii_of_string_of_list_ascii. unfold cleaned in Hw.
    destruct rooted; cbn [app climb] in Hw.
    + injection Hw as <- <-. unfold cleanRun.
      change (IsPathSeparator Separator) with true. cbv iota. f_equal.
      exact (cleanLoop_names true names ups [] (Forall_nil_2 _) Hn).
    + pose proof (joinSep_first _ _ _ (elements_sepFree false ups names Hn) Hw) as Hc.
      unfold cleanRun. rewrite Hc, <- Hw. f_equal.
      rewrite <- (Nat.add_0_r ups) at 2.
      exact (cleanLoop_climb ups 0 names Hn).
Qed.

(** A cleaned path that does not climb is appended name by name. *)
Lemma cleanLoop_render rooted ups names r n :
  Forall isName names -> Forall isName n ->
  cleanLoop rooted (list_ascii_of_string (render r 0 n))
    (cleanState rooted ups names).1 (cleanState rooted ups names).2
  = cleanState rooted ups (names ++ n).
Proof.
  intros Hnames Hn. unfold render, cleaned. destruct r; cbn [app climb repeat].
  - rewrite list_ascii_of_string_of_list_ascii, cleanLoop_cons.
    change (IsPathSeparator Separator) with true. cbv iota.
    by apply cleanLoop_names.
  - destruct (joinSep n) as [|c l] eqn:Hj.
    + apply joinSep_nil_inv in Hj; [|by apply names_nonempty]. subst n.
      rewrite app_nil_r. by destruct (cleanState rooted ups names).
    + rewrite list_ascii_of_string_of_list_ascii, <- Hj. by apply cleanLoop_names.
Qed.


Lemma list_ascii_of_string_app a b :
  list_ascii_of_string (a +:+ b) = list_ascii_of_string a ++ list_ascii_of_string b.
Proof. induction a as [|c a IH]; [done|]. rewrite str_app_cons. simpl. by f_equal. Qed.

Lemma render_nonempty rooted ups names : render rooted ups names ≠ "".
Proof. unfold render. by destruct (cleaned rooted ups names). Qed.

(** Every cleaned path is in normal form. *)
Lemma Clean_normal s :
  exists rooted ups names, Forall isName names /\ Clean s = render rooted ups names.
Proof.
  destruct (cleanRun_state (list_ascii_of_string s)) as (ups & names & Hn & Hrun).
  exists (atStart (list_ascii_of_string s)), ups, names. split; [done|].
  by rewrite Clean_cleanRun, Hrun, <- finish_state.
Qed.

(** [Clean] leaves a cleaned path as it is. *)
Lemma Clean_render rooted ups names :
  Forall isName names -> Clean (render rooted ups names) = render rooted ups names.
Proof. intros Hn. by rewrite Clean_cleanRun, cleanRun_render, <- finish_state. Qed.

(** A relative cleaned path that climbs begins with [..]. *)
Lemma render_climbs ups names :
  GoStrings.Contains (render false (S ups) names) ".." = true.
Proof. reflexivity. Qed.

Lemma Clean_descends s :
  GoStrings.Contains (Clean s) ".." = false ->
  exists r names, Forall isName names /\ Clean s = render r 0 names.
Proof.
  intros Hdots. destruct (Clean_normal s) as (rooted & ups & names & Hn & Heq).
  rewrite Heq in Hdots |- *. destruct rooted.
  - by exists true, names.
  - destruct ups as [|ups]; [by exists false, names|].
    by rewrite render_climbs in Hdots.
Qed.

(** *** [filepath.Join] *)

(** Joining a cleaned path that does not climb onto a directory appends its
    names to those of the directory. *)
Lemma Join_state a rooted ups names r n :
  a ≠ "" ->
  cleanRun (list_ascii_of_string a) = (rooted, cleanState rooted ups names) ->
  Forall isName names -> Forall isName n ->
  Join a (render r 0 n) = render rooted ups (names ++ n).
Proof.
  intros Ha Hrun Hnames Hn. unfold Join. destruct (decide (a = "")); [done|].
  rewrite Clean_cleanRun, list_ascii_of_string_app. cbn [list_ascii_of_string].
  rewrite cleanRun_app by (by destruct a). rewrite Hrun. cbn [fst snd].
  by rewrite cleanLoop_render, <- finish_state.
Qed.

End CleanFacts.

(** ** The paths the file server touches *)

Section Confinement.

Context (w : World).

Lemma calls_serveResolved req conn filePath info keepAlive remaining :
  Forall (fun c => callPath c = filePath)
    (out_calls (serveResolved w req conn filePath info keepAlive remaining)).
Proof.
  unfold serveResolved, serveSmallFile, serveLargeFile. cbv zeta.
  repeat case_match; cbn [out_calls after sent app]; by repeat constructor.
Qed.

(** C2: whatever the request, every path the file server stats, reads or
    opens is the cleaned root followed by names only -- no [..] element, no
    other starting point -- so it lies inside the root directory, as far as
    the path itself can tell (links in the file system are not followed
    here).  The root is a directory name, hence not the empty string. *)
Theorem served_paths_stay_under_root (fs : FileServer) (req : Request)
    (conn : TCPConn) (keepAlive : bool) (remaining : Z) :
  root fs ≠ "" ->
  Forall (fun c => under (Clean (root fs)) (callPath c))
    (out_calls (ServeFileStream w fs req conn keepAlive remaining)).
Proof.
  intros Hroot. unfold ServeFileStream. cbv zeta.
  set (path := hd "" (GoStrings.Split (req_Path req) "?")).
  destruct (GoStrings.Contains (Clean path) "..") eqn:Hdots; [constructor|].
  destruct (Clean_descends path Hdots) as (r & n & Hn & ->).
  destruct (cleanRun_state (list_ascii_of_string (root fs)))
    as (ups & names & Hnames & Hrun).
  set (rooted := atStart (list_ascii_of_string (root fs))) in *.
  assert (Clean (root fs) = render rooted ups names) as ->.
  { by rewrite Clean_cleanRun, Hrun, <- finish_state. }
  rewrite (Join_state (root fs) rooted ups names r n) by done.
  set (index := list_ascii_of_string "index.html").
  assert (Forall isName [index]) as Hindex.
  { constructor; [|constructor]. repeat split; try done. by repeat constructor. }
  assert (Forall isName (names ++ n)) as Hfile by (apply Forall_app; done).
  change "index.html" with (render false 0 [index]).
  rewrite (Join_state (render rooted ups (names ++ n)) rooted ups (names ++ n) false [index]);
    [|apply render_nonempty|by apply cleanRun_render|done|done].
  assert (under (render rooted ups names) (render rooted ups (names ++ n))) as Hunder.
  { by exists rooted, ups, names, n. }
  assert (under (render rooted ups names) (render rooted ups ((names ++ n) ++ [index])))
    as Hunder'.
  { exists rooted, ups, names, (n ++ [index]). rewrite app_assoc.
    split; [|done]. apply Forall_app. done. }
  repeat case_match; cbn [out_calls after sent app];
    repeat (apply Forall_cons; split; [done|]); try by constructor.
  all: eapply Forall_impl; [apply calls_serveResolved|]; by intros c ->.
Qed.

End Confinement.

Lemma served_paths_stay_under_root_witness :
  root (NewFileServer "./public") ≠ ""
  /\ Forall (fun c => under (Clean (root (NewFileServer "./public"))) (callPath c))
       (out_calls (ServeFileStream emptyWorld (NewFileServer "./public")
                     (conditionalRequest "/static/../../etc/passwd")
                     (connOf []) true 5)).
Proof.
  split; [done|]. by apply served_paths_stay_under_root.
Defined.

(** * Further properties *)

Section ServedPaths.

Context (w : World).

(** The file server reads the request through its headers, its version and
    the cleaned path before the first [?] only. *)
Lemma CompressResponse_headers resp req req' :
  req_Headers req = req_Headers req' ->
  CompressResponse w resp req = CompressResponse w resp req'.
Proof. intros H. unfold CompressResponse. by rewrite H. Qed.

Lemma serveResolved_request req req' conn filePath info keepAlive n :
  req_Headers req = req_Headers req' -> req_Version req = req_Version req' ->
  serveResolved w req conn filePath info keepAlive n
  = serveResolved w req' conn filePath info keepAlive n.
Proof.
  intros Hh Hv. unfold serveResolved, serveSmallFile, serveLargeFile. cbv zeta.
  rewrite Hh, Hv. destruct (os_ReadFile w filePath); [|done].
  by rewrite (CompressResponse_headers _ req req').
Qed.

Lemma ServeFileStream_request fs req req' conn keepAlive n :
  Clean (hd "" (GoStrings.Split (req_Path req) "?"))
  = Clean (hd "" (GoStrings.Split (req_Path req') "?")) ->
  req_Headers req = req_Headers req' -> req_Version req = req_Version req' ->
  ServeFileStream w fs req conn keepAlive n = ServeFileStream w fs req' conn keepAlive n.
Proof.
  intros Hp Hh Hv. unfold ServeFileStream. cbv zeta. rewrite Hp, Hv.
  repeat case_match; try done; by rewrite (serveResolved_request req req').
Qed.

(** X1: the query string is cut off before the path is looked at. *)
Theorem query_string_is_ignored fs req conn keepAlive n path query :
  GoStrings.IndexByte path "?" = None ->
  ServeFileStream w fs (withPath (path +:+ String "?" query) req) conn keepAlive n
  = ServeFileStream w fs (withPath path req) conn keepAlive n.
Proof.
  intros Hp. apply ServeFileStream_request; try done. cbn [withPath req_Path].
  rewrite Split_at by done. by rewrite (Split_without path).
Qed.

End ServedPaths.

Lemma query_string_is_ignored_witness :
  GoStrings.IndexByte "/static/app.js" "?" = None
  /\ ServeFileStream emptyWorld (NewFileServer "./public")
       (withPath ("/static/app.js" +:+ String "?" "v=3") (conditionalRequest "/"))
       (connOf []) true 5
     = ServeFileStream emptyWorld (NewFileServer "./public")
         (withPath "/static/app.js" (conditionalRequest "/")) (connOf []) true 5.
Proof.
  split; [done|]. by apply query_string_is_ignored.
Defined.

(** ** The bytes of a cleaned path *)

Section CleanBytes.

Context (P : ascii -> Prop) (Pdot : P "."%char) (Psep : P Separator).

Lemma backtrack_bytes out dotdot : Forall P out -> Forall P (backtrack out dotdot).
Proof.
  induction out as [|c out IH]; simpl; intros H; [done|].
  apply Forall_cons in H as [? ?]. case_match; auto.
Qed.

Lemma addSeparator_bytes rooted out : Forall P out -> Forall P (addSeparator rooted out).
Proof. intros H. unfold addSeparator. case_match; [by constructor|done]. Qed.

Lemma cleanLoop_bytes_aux rooted n :
  forall path out dotdot, (length path <= n)%nat -> Forall P path -> Forall P out ->
    Forall P (cleanLoop rooted path out dotdot).1
    /\ Forall P (copyElement rooted path out dotdot).1.
Proof.
  induction n as [|n IH]; intros path out dotdot Hlen Hpath Hout.
  { destruct path; [|simpl in Hlen; lia]. by split. }
  destruct path as [|c rest]; [by split|].
  simpl in Hlen. apply Forall_cons in Hpath as [Hc Hrest].
  assert (forall o d, Forall P o -> Forall P (cleanLoop rooted rest o d).1) as IHclean.
  { intros o d Ho. apply IH; [lia|done|done]. }
  assert (forall o d, Forall P o -> Forall P (copyElement rooted rest o d).1) as IHcopy.
  { intros o d Ho. apply IH; [lia|done|done]. }
  pose proof (addSeparator_bytes rooted out Hout) as Hadd.
  split.
  - rewrite cleanLoop_cons.
    destruct (IsPathSeparator c); [by apply IHclean|].
    destruct (isDot c && atElementEnd rest); [by apply IHclean|].
    destruct rest as [|c' rest']; [apply IHcopy; by constructor|].
    destruct (isDot c && isDot c' && atElementEnd rest'); [|apply IHcopy; by constructor].
    apply Forall_cons in Hrest as [Hc' Hrest']. simpl in Hlen.
    assert (forall o d, Forall P o -> Forall P (cleanLoop rooted rest' o d).1) as IHclean'.
    { intros o d Ho. apply IH; [lia|done|done]. }
    destruct (dotdot <? length out)%nat; [by apply IHclean', backtrack_bytes|].
    destruct (negb rooted); [|by apply IHclean'].
    apply IHclean'. do 2 (constructor; [done|]). case_match; [by constructor|done].
  - rewrite copyElement_cons.
    destruct (IsPathSeparator c); [by apply IHclean|]. apply IHcopy. by constructor.
Qed.

(** [Clean] writes bytes of the path, dots and separators. *)
Lemma Clean_bytes s :
  Forall P (list_ascii_of_string s) -> Forall P (list_ascii_of_string (Clean s)).
Proof.
  intros Hs. unfold Clean. destruct (list_ascii_of_string s) as [|c rest] eqn:Hl.
  { by repeat constructor. }
  cbv zeta.
  assert (forall final : list ascii * nat, Forall P final.1 ->
            Forall P (list_ascii_of_string
                        match final.1 with
                        | [] => "."
                        | out => string_of_list_ascii (rev out)
                        end)) as Hfinish.
  { intros [[|x out] d] Hf; [by repeat constructor|]. cbn [fst] in *.
    rewrite list_ascii_of_string_of_list_ascii. by apply Forall_rev. }
  destruct (IsPathSeparator c); apply Hfinish.
  - apply (cleanLoop_bytes_aux true (length rest)); [done| |by repeat constructor].
    by apply Forall_cons in Hs as [_ ?].
  - by apply (cleanLoop_bytes_aux false (length (c :: rest))).
Qed.

End CleanBytes.

Section EquivalentPaths.

Context (w : World).

Lemma IndexByte_None s c :
  GoStrings.IndexByte s c = None <-> Forall (fun x => x ≠ c) (list_ascii_of_string s).
Proof.
  induction s as [|d s IH]; simpl; [by split; [constructor|]|].
  destruct (Ascii.eqb_spec d c) as [->|Hne].
  - split; [done|]. intros H. by apply Forall_cons in H as [? _].
  - destruct (GoStrings.IndexByte s c) eqn:Hi; simpl.
    + split; [done|]. intros H. apply Forall_cons in H as [_ H]. by apply IH in H.
    + split; [|done]. intros _. constructor; [done|]. by apply IH.
Qed.

(** X2: a path and its cleaned form are served alike: empty and [.]
    elements, and [..] elements that [Clean] resolves, make no difference. *)
Theorem cleaned_path_is_served_alike fs req conn keepAlive n path :
  GoStrings.IndexByte path "?" = None ->
  ServeFileStream w fs (withPath (Clean path) req) conn keepAlive n
  = ServeFileStream w fs (withPath path req) conn keepAlive n.
Proof.
  intros Hp. apply ServeFileStream_request; try done. cbn [withPath req_Path].
  assert (GoStrings.IndexByte (Clean path) "?" = None) as Hc.
  { apply IndexByte_None, Clean_bytes; [done|done|]. by apply IndexByte_None. }
  rewrite (Split_without path), (Split_without (Clean path)) by done. cbn [hd].
  destruct (Clean_normal path) as (r & u & names & Hn & ->). by apply Clean_render.
Qed.

End EquivalentPaths.

Lemma cleaned_path_is_served_alike_witness :
  GoStrings.IndexByte "/static/./css//../app.js" "?" = None
  /\ ServeFileStream emptyWorld (NewFileServer "./public")
       (withPath (Clean "/static/./css//../app.js") (conditionalRequest "/"))
       (connOf []) true 5
     = ServeFileStream emptyWorld (NewFileServer "./public")
         (withPath "/static/./css//../app.js" (conditionalRequest "/")) (connOf []) true 5.
Proof.
  split; [done|]. by apply cleaned_path_is_served_alike.
Defined.

(** ** The paths of the static file handlers *)

Section HandlerPaths.

Context (w : World).

(** The two paths the handlers build for a request path that passes the
    [..] check: the root followed by names, and that followed by
    [index.html]. *)
Lemma resolved_paths (rootDir path : string) rooted ups names :
  rootDir ≠ "" ->
  cleanRun (list_ascii_of_string rootDir) = (rooted, cleanState rooted ups names) ->
  Forall isName names ->
  GoStrings.Contains (Clean path) ".." = false ->
  exists more,
    Forall isName more
    /\ Join rootDir (Clean path) = render rooted ups (names ++ more)
    /\ Join (Join rootDir (Clean path)) "index.html"
       = render rooted ups (names ++ more ++ [list_ascii_of_string "index.html"]).
Proof.
  intros Hroot Hrun Hnames Hdots.
  destruct (Clean_descends path Hdots) as (r & n & Hn & ->).
  set (index := list_ascii_of_string "index.html").
  assert (Forall isName [index]) as Hindex.
  { constructor; [|constructor]. repeat split; try done. by repeat constructor. }
  assert (Forall isName (names ++ n)) as Hfile by (apply Forall_app; done).
  exists n. split; [done|].
  rewrite (Join_state rootDir rooted ups names r n) by done. split; [done|].
  change "index.html" with (render false 0 [index]).
  rewrite (Join_state (render rooted ups (names ++ n)) rooted ups (names ++ n) false [index]);
    [by rewrite <- app_assoc|apply render_nonempty|by apply cleanRun_render|done|done].
Qed.

Lemma ServeFileStream_calls fs req conn keepAlive n rooted ups names :
  root fs ≠ "" ->
  cleanRun (list_ascii_of_string (root fs)) = (rooted, cleanState rooted ups names) ->
  Forall isName names ->
  Forall (fun c => exists more,
            Forall isName more /\ callPath c = render rooted ups (names ++ more))
    (out_calls (ServeFileStream w fs req conn keepAlive n)).
Proof.
  intros Hroot Hrun Hnames. unfold ServeFileStream. cbv zeta.
  set (path := hd "" (GoStrings.Split (req_Path req) "?")).
  destruct (GoStrings.Contains (Clean path) "..") eqn:Hdots; [constructor|].
  destruct (resolved_paths (root fs) path rooted ups names Hroot Hrun Hnames Hdots)
    as (more & Hmore & -> & ->).
  assert (Forall isName (more ++ [list_ascii_of_string "index.html"])) as Hmore'.
  { apply Forall_app. split; [done|]. constructor; [|constructor].
    repeat split; try done. by repeat constructor. }
  repeat case_match; cbn [out_calls after sent app];
    repeat (apply Forall_cons; split; [by eauto|]); try by constructor.
  all: eapply Forall_impl; [apply calls_serveResolved|]; intros c ->; by eauto.
Qed.

Lemma string_of_list_ascii_app a b :
  string_of_list_ascii (a ++ b) = string_of_list_ascii a +:+ string_of_list_ascii b.
Proof. induction a as [|c a IH]; [done|]. cbn [app string_of_list_ascii]. by rewrite IH. Qed.

Lemma HasPrefix_app d x y :
  GoStrings.HasPrefix (d +:+ x) (d +:+ y) = GoStrings.HasPrefix x y.
Proof.
  induction d as [|c d IH]; [done|]. rewrite !str_app_cons. simpl.
  by rewrite Ascii.eqb_refl, IH.
Qed.

Lemma joinSep_app A B :
  A ≠ [] -> B ≠ [] -> joinSep (A ++ B) = joinSep A ++ Separator :: joinSep B.
Proof.
  intros HA HB. induction A as [|a A IH]; [done|]. destruct A as [|a' A].
  - destruct B as [|b B]; [done|]. cbn [app]. rewrite joinSep_cons.
    cbn [joinSep flat_map]. by rewrite app_nil_r.
  - rewrite <- app_comm_cons. cbn [app] in *. rewrite !joinSep_cons, IH by done.
    by rewrite <- app_assoc.
Qed.

(** Below a directory other than [.] and [/], a path in normal form begins
    with the directory and a separator. *)
Lemma render_below rooted ups names more :
  render rooted ups names ≠ "." -> render rooted ups names ≠ "/" ->
  atOrBelow (render rooted ups names) (render rooted ups (names ++ more)).
Proof.
  intros Hdot Hsep. destruct more as [|e more]; [left; by rewrite app_nil_r|]. right.
  assert (climb rooted ups ++ names ≠ []) as Hne.
  { intros Hnil. unfold render, cleaned in Hdot, Hsep. rewrite Hnil in Hdot, Hsep.
    by destruct rooted. }
  assert (cleaned rooted ups (names ++ e :: more)
          = cleaned rooted ups names ++ Separator :: joinSep (e :: more)) as Heq.
  { unfold cleaned. by rewrite app_assoc, joinSep_app, app_assoc. }
  assert (cleaned rooted ups names ≠ []) as Hc.
  { unfold cleaned. destruct rooted; [done|]. cbn [app]. intros Hj.
    destruct (climb false ups ++ names) as [|x xs] eqn:Hx; [done|].
    unfold render, cleaned in Hdot. cbn [app] in Hdot. rewrite Hx, Hj in Hdot. done. }
  unfold render. rewrite Heq.
  destruct (cleaned rooted ups names) as [|c l] eqn:Hcl; [done|].
  rewrite <- app_comm_cons. rewrite app_comm_cons, string_of_list_ascii_app.
  cbn [string_of_list_ascii]. by rewrite HasPrefix_app.
Qed.

(** X3: every path the file server stats, reads or opens is the cleaned root
    or begins with the cleaned root and a separator. *)
Theorem served_paths_begin_with_root fs req conn keepAlive n :
  root fs ≠ "" -> Clean (root fs) ≠ "." -> Clean (root fs) ≠ "/" ->
  Forall (fun c => atOrBelow (Clean (root fs)) (callPath c))
    (out_calls (ServeFileStream w fs req conn keepAlive n)).
Proof.
  intros Hroot Hdot Hsep.
  destruct (cleanRun_state (list_ascii_of_string (root fs)))
    as (ups & names & Hnames & Hrun).
  set (rooted := atStart (list_ascii_of_string (root fs))) in *.
  assert (Clean (root fs) = render rooted ups names) as Hclean.
  { by rewrite Clean_cleanRun, Hrun, <- finish_state. }
  rewrite Hclean in *.
  eapply Forall_impl; [by apply (ServeFileStream_calls fs req conn keepAlive n rooted ups names)|].
  intros c (more & _ & ->). by apply render_below.
Qed.

End HandlerPaths.

Lemma served_paths_begin_with_root_witness :
  Forall (fun c => atOrBelow (Clean (root (NewFileServer "./public"))) (callPath c))
    (out_calls (ServeFileStream emptyWorld (NewFileServer "./public")
                  (conditionalRequest "/static/x/../app.js") (connOf []) true 5)).
Proof.
  by apply (served_paths_begin_with_root emptyWorld (NewFileServer "./public")).
Defined.

(** ** The handler that gives back a response object *)

Section BufferedFiles.

Context (w : World).

(** X4: [ServeFile] too stats and reads below the root only. *)
Theorem ServeFile_stays_under_root fs req :
  root fs ≠ "" ->
  Forall (fun c => under (Clean (root fs)) (callPath c)) (ServeFile w fs req).2.
Proof.
  intros Hroot.
  destruct (cleanRun_state (list_ascii_of_string (root fs)))
    as (ups & names & Hnames & Hrun).
  set (rooted := atStart (list_ascii_of_string (root fs))) in *.
  assert (Clean (root fs) = render rooted ups names) as ->.
  { by rewrite Clean_cleanRun, Hrun, <- finish_state. }
  unfold ServeFile. cbv zeta.
  set (path := hd "" (GoStrings.Split (req_Path req) "?")).
  destruct (GoStrings.Contains (Clean path) "..") eqn:Hdots; [constructor|].
  destruct (resolved_paths (root fs) path rooted ups names Hroot Hrun Hnames Hdots)
    as (more & Hmore & -> & ->).
  assert (Forall isName (more ++ [list_ascii_of_string "index.html"])) as Hmore'.
  { apply Forall_app. split; [done|]. constructor; [|constructor].
    repeat split; try done. by repeat constructor. }
  assert (under (render rooted ups names) (render rooted ups (names ++ more))) as Hfile.
  { exists rooted, ups, names, more. split; [|done]. by apply Forall_app. }
  assert (under (render rooted ups names)
            (render rooted ups (names ++ more ++ [list_ascii_of_string "index.html"])))
    as Hindex.
  { eexists rooted, ups, names, _. split; [|done]. by apply Forall_app. }
  repeat case_match; simplify_eq; cbn [snd app]; by repeat constructor.
Qed.

End BufferedFiles.

Lemma ServeFile_stays_under_root_witness :
  Forall (fun c => under (Clean (root (NewFileServer "./public"))) (callPath c))
    (ServeFile emptyWorld (NewFileServer "./public")
       (conditionalRequest "/static/../../etc/passwd")).2.
Proof.
  by apply (ServeFile_stays_under_root emptyWorld (NewFileServer "./public")).
Defined.

(** ** The two static file handlers *)

Section Agreement.

Context (w : World).

Lemma resp_Body_setConnectionHeaders keepAlive n resp :
  resp_Body (setConnectionHeaders keepAlive n resp) = resp_Body resp.
Proof. by destruct keepAlive. Qed.

Lemma header_setConnectionHeaders keepAlive n resp k :
  k ≠ "Connection" -> k ≠ "Keep-Alive" ->
  resp_Headers (setConnectionHeaders keepAlive n resp) !! k = resp_Headers resp !! k.
Proof.
  intros H1 H2. unfold setConnectionHeaders.
  destruct keepAlive; by rewrite ?lookup_setHeader_ne.
Qed.

(** X5: without [If-Modified-Since] and [Range] headers, and when opening
    a file gives what reading it gives, the streaming handler answers with
    the status of [ServeFile]; a 200 carries the same body if the client
    does not ask for gzip. *)
Theorem stream_agrees_with_ServeFile fs req conn keepAlive n :
  writeResults conn = [] ->
  header (req_Headers req) "If-Modified-Since" = "" ->
  header (req_Headers req) "Range" = "" ->
  (forall p, os_Open w p = os_ReadFile w p) ->
  answers conn (out_conn (ServeFileStream w fs req conn keepAlive n))
    (fun resp =>
       resp_StatusCode resp = resp_StatusCode (ServeFile w fs req).1
       /\ (header (req_Headers req) "Accept-Encoding" = "" ->
           resp_StatusCode resp = 200%Z ->
           resp_Body resp = resp_Body (ServeFile w fs req).1)).
Proof.
  intros Hwrite Hims Hrange Hopen.
  assert (forall filePath info,
    answers conn (out_conn (serveResolved w req conn filePath info keepAlive n))
      (fun resp =>
         match os_ReadFile w filePath with
         | None => resp_StatusCode resp = 500%Z
         | Some content =>
             resp_StatusCode resp = 200%Z
             /\ (header (req_Headers req) "Accept-Encoding" = "" ->
                 resp_Body resp = content)
         end)) as Hresolved.
  { intros filePath info. unfold serveResolved. cbv zeta. rewrite Hims.
    change (negb (String.eqb "" "")) with false. rewrite Tauto.if_same. cbn [fst snd].
    destruct (fi_Size info <=? MaxInMemorySize)%Z.
    - unfold serveSmallFile. cbn [out_conn after]. destruct (os_ReadFile w filePath).
      + cbn [out_conn sent]. apply answers_Write; [done|].
        rewrite resp_StatusCode_CompressResponse, resp_StatusCode_setConnectionHeaders.
        split; [done|]. intros Hgzip.
        match goal with
        | |- context [CompressResponse w ?r req] =>
            destruct (CompressResponse_without_gzip w r req Hgzip) as [-> _]
        end.
        by rewrite resp_Body_setConnectionHeaders.
      + cbn [out_conn sent]. unfold sendError. apply answers_Write; [done|].
        by rewrite resp_StatusCode_setConnectionHeaders.
    - unfold serveLargeFile. cbn [out_conn after]. rewrite Hopen.
      destruct (os_ReadFile w filePath).
      + rewrite decide_True by done. cbn [out_conn sent]. unfold sendFullFile.
        apply answers_Write; [done|]. cbn [resp_StatusCode setBody resp_Body].
        by rewrite resp_StatusCode_setConnectionHeaders.
      + cbn [out_conn sent]. unfold sendError. apply answers_Write; [done|].
        by rewrite resp_StatusCode_setConnectionHeaders. }
  unfold ServeFileStream, ServeFile. cbv zeta.
  set (path := hd "" (GoStrings.Split (req_Path req) "?")).
  destruct (GoStrings.Contains (Clean path) "..").
  { cbn [out_conn sent fst]. unfold sendError. apply answers_Write; [done|].
    by rewrite resp_StatusCode_setConnectionHeaders. }
  cbn [out_conn after].
  destruct (os_Stat w (Join (root fs) (Clean path))) as [| |info].
  1,2: cbn [out_conn sent fst]; unfold sendError; apply answers_Write; [done|];
       by rewrite resp_StatusCode_setConnectionHeaders.
  destruct (fi_IsDir info).
  - cbn [out_conn after].
    destruct (os_Stat w (Join (Join (root fs) (Clean path)) "index.html")) as [| |info'].
    1,2: cbn [out_conn sent fst]; unfold sendError; apply answers_Write; [done|];
         by rewrite resp_StatusCode_setConnectionHeaders.
    destruct (Hresolved (Join (Join (root fs) (Clean path)) "index.html") info')
      as (resp & Hw & Hresp).
    exists resp. split; [done|]. destruct (os_ReadFile w _); cbn [fst].
    + destruct Hresp as [Hs Hb]. split; [done|]. intros Hg _. by apply Hb.
    + split; [done|]. intros _ H200. by rewrite Hresp in H200.
  - destruct (Hresolved (Join (root fs) (Clean path)) info) as (resp & Hw & Hresp).
    exists resp. split; [done|]. destruct (os_ReadFile w _); cbn [fst].
    + destruct Hresp as [Hs Hb]. split; [done|]. intros Hg _. by apply Hb.
    + split; [done|]. intros _ H200. by rewrite Hresp in H200.
Qed.

End Agreement.

Lemma stream_agrees_with_ServeFile_witness :
  answers (connOf [])
    (out_conn (ServeFileStream (oneFileWorld jan2006) (NewFileServer "./public")
                 (rangeRequest "") (connOf []) true 5))
    (fun resp =>
       resp_StatusCode resp
       = resp_StatusCode (ServeFile (oneFileWorld jan2006) (NewFileServer "./public")
                            (rangeRequest "")).1).
Proof.
  destruct (stream_agrees_with_ServeFile (oneFileWorld jan2006) (NewFileServer "./public")
              (rangeRequest "") (connOf []) true 5) as (resp & Hw & Hs & _);
    [reflexivity|by vm_compute|by vm_compute|reflexivity|].
  by exists resp.
Defined.

Section StreamResponses.

Context (w : World).

Lemma resp_Version_CompressResponse resp req :
  resp_Version (CompressResponse w resp req) = resp_Version resp.
Proof. unfold CompressResponse. by repeat case_match. Qed.

Lemma stamped_connection req keepAlive n resp code :
  resp_Version resp = req_Version req ->
  resp_StatusCode resp = code ->
  code ∈ [200; 206; 304; 403; 404; 416; 500]%Z ->
  resp_Headers resp !! "Keep-Alive" = None ->
  stamped w req keepAlive n
    (setConnectionHeaders keepAlive n
       (setHeader "Server" "GoWebServer/1.0" (setHeader "Date" (dateNow w) resp))).
Proof.
  intros Hv Hs Hc Hk. unfold stamped, announces, setConnectionHeaders.
  destruct keepAlive; cbn [resp_Version resp_StatusCode setHeader resp_Headers];
    rewrite Hs; repeat split; try done;
    rewrite ?lookup_insert_ne by done; try apply lookup_insert_eq; done.
Qed.

Ltac stamp code :=
  apply (stamped_connection _ _ _ _ code);
  [done|done|set_solver|
   cbn [resp_Headers setHeader NewResponse]; by rewrite ?lookup_insert_ne].

Lemma stamped_setBody req keepAlive n resp body :
  stamped w req keepAlive n resp -> stamped w req keepAlive n (setBody body resp).
Proof. done. Qed.

Lemma stamped_CompressResponse req keepAlive n resp :
  stamped w req keepAlive n resp -> stamped w req keepAlive n (CompressResponse w resp req).
Proof.
  unfold stamped, announces.
  rewrite resp_Version_CompressResponse, resp_StatusCode_CompressResponse.
  by rewrite !lookup_CompressResponse.
Qed.

Lemma stamped_sendError conn code status req keepAlive n :
  code ∈ [200; 206; 304; 403; 404; 416; 500]%Z ->
  emits conn (fst (sendError w conn code status (req_Version req) keepAlive n))
    (stamped w req keepAlive n).
Proof.
  intros Hc. apply emits_Write.
  apply (stamped_connection _ _ _ _ code); [done|done|done|].
  cbn [resp_Headers setHeader NewResponse]. by rewrite ?lookup_insert_ne.
Qed.

Lemma stamped_serveResolved req conn filePath info keepAlive n :
  emits conn (out_conn (serveResolved w req conn filePath info keepAlive n))
    (stamped w req keepAlive n).
Proof.
  unfold serveResolved. cbv zeta. destruct (snd _); cbn [out_conn sent].
  { apply emits_Write. stamp 304%Z. }
  destruct (_ <=? _)%Z.
  - unfold serveSmallFile. cbn [out_conn after].
    destruct (os_ReadFile w filePath); cbn [out_conn sent];
      [|apply stamped_sendError; set_solver].
    apply emits_Write, stamped_CompressResponse.
    stamp 200%Z.
  - unfold serveLargeFile. cbn [out_conn after].
    destruct (os_Open w filePath); cbn [out_conn sent];
      [|apply stamped_sendError; set_solver].
    case_decide; cbn [out_conn sent].
    { apply emits_Write, stamped_setBody.
      stamp 200%Z. }
    destruct (parseRangeHeader _ _) as [[start end_]|err].
    + cbn [out_conn sent]. unfold sendRangeFile. cbv zeta.
      match goal with
      | |- context [Write conn ?r] =>
          assert (emits conn (fst (Write conn r)) (stamped w req keepAlive n)) as Hw;
          [|destruct (Write conn r) as [c' [e'|]]; cbn [fst] in *; [done|];
            by destruct (_ <? _)%Z]
      end.
      apply emits_Write, stamped_setBody.
      stamp 206%Z.
    + match goal with
      | |- context [Write conn ?r] =>
          assert (emits conn (fst (Write conn r)) (stamped w req keepAlive n)) as Hw;
          [|by destruct (Write conn r) as [c' [e'|]]]
      end.
      apply emits_Write.
      stamp 416%Z.
Qed.

(** X6: the static file server writes at most one response to a request, and
    that response carries the version of the request, one of seven status
    codes, the date, the server name, and the [Connection] and [Keep-Alive]
    headers that fit the flag. *)
Theorem file_responses_are_stamped fs req conn keepAlive n :
  emits conn (out_conn (ServeFileStream w fs req conn keepAlive n))
    (stamped w req keepAlive n).
Proof.
  unfold ServeFileStream. cbv zeta.
  destruct (GoStrings.Contains _ _); cbn [out_conn sent after];
    [apply stamped_sendError; set_solver|].
  destruct (os_Stat w _) as [| |info]; cbn [out_conn sent];
    try (apply stamped_sendError; set_solver).
  destruct (fi_IsDir info); cbn [out_conn after]; [|apply stamped_serveResolved].
  destruct (os_Stat w _) as [| |info']; cbn [out_conn sent];
    try (apply stamped_sendError; set_solver).
  apply stamped_serveResolved.
Qed.

End StreamResponses.

(** ** Responses of the route table *)

Section TableResponses.

Context (w : World) (addr : string) (cfg : ProtocolConfig).

Local Abbreviation s := (NewServerWithVersion w addr cfg).

(** X7: a request that is not streamed is answered in the version of the
    server, whatever version it came in, with a [Content-Length] that is the
    length of the body, the date and the server name; the [Connection] and
    [Keep-Alive] headers say whether the loop goes on. *)
Theorem table_responses_are_stamped conn count request :
  HandlerNeedsStreaming (handler s) request = false ->
  emits conn (fst (serveRequest w s conn count request))
    (fun resp =>
       resp_Version resp = cfg_Version cfg
       /\ resp_Headers resp !! "Content-Length"
          = Some (GoStrconv.FormatInt (GoStrings.len (resp_Body resp)))
       /\ resp_Headers resp !! "Date" = Some (time_Format w (time_Now w))
       /\ resp_Headers resp !! "Server" = Some "GoWebServer/1.0"
       /\ resp_Headers resp !! "Connection"
          = Some (if keeps s request count then "keep-alive" else "close")
       /\ (keeps s request count = true ->
           resp_Headers resp !! "Keep-Alive"
           = Some ("timeout=30, max=" +:+ GoStrconv.FormatInt (maxRequests - count)))).
Proof.
  intros Hstream. unfold serveRequest. rewrite Hstream. cbv zeta.
  fold (keeps s request count). destruct (keeps s request count).
  - unfold WriteResponse. cbv zeta.
    match goal with
    | |- context [Write conn ?r] =>
        pose proof (emits_Write conn r) as Hw; destruct (Write conn r) as [c' [e'|]]
    end; cbn [fst] in *; apply Hw;
      cbn [resp_Version resp_Headers resp_Body setHeader setVersion];
      repeat split; try done; try intros _; rewrite ?lookup_insert_ne by done;
      try apply lookup_insert_eq; done.
  - unfold WriteResponse. cbv zeta.
    match goal with
    | |- context [Write conn ?r] =>
        pose proof (emits_Write conn r) as Hw; destruct (Write conn r) as [c' [e'|]]
    end; cbn [fst] in *; apply Hw;
      cbn [resp_Version resp_Headers resp_Body setHeader setVersion];
      repeat split; try done; try intros _; rewrite ?lookup_insert_ne by done;
      try apply lookup_insert_eq; done.
Qed.

(** X8: a server configured for HTTP/1.0 serves at most one request on a
    connection, and its response announces the close. *)
Theorem http10_serves_one_request conn :
  cfg_Version cfg = HTTP10 ->
  exists c n,
    handleConnection w s conn = Some (c, n)
    /\ (0 <= n <= 1)%Z
    /\ (written c = written conn
        \/ exists resp, written c = written conn ++ [resp] /\ closing resp).
Proof.
  intros H10. unfold handleConnection. cbn [handleLoop].
  destruct (ParseRequest conn) as [[request conn1]|err] eqn:Hparse.
  - apply ParseRequest_progress in Hparse as (_ & Hw & _).
    assert (keeps s request (0 + 1) = false) as Hk.
    { unfold keeps, wantsKeepAlive. cbn [config NewServerWithVersion]. by rewrite H10. }
    pose proof (serveRequest_stops w addr cfg conn1 (0 + 1)%Z request Hk) as Hstop.
    pose proof (serveRequest_emits w addr cfg conn1 (0 + 1)%Z request) as [_ Hemit].
    destruct (serveRequest w s conn1 (0 + 1) request) as [conn2 goOn].
    cbn [fst snd] in *. subst goOn. exists conn2, 1%Z. split; [done|]. split; [lia|].
    rewrite <- Hw. destruct Hemit as [->|(resp & -> & Hclose)]; [by left|].
    right. exists resp. split; [done|]. by apply Hclose.
  - exists conn, 0%Z. split; [done|]. split; [lia|]. by left.
Qed.

End TableResponses.

Lemma table_responses_are_stamped_witness :
  emits (connOf [])
    (fst (serveRequest emptyWorld (NewServerWithVersion emptyWorld ":8080" NewHTTP11Config)
            (connOf []) 1
            {| req_Method := "GET"; req_Path := "/hello"; req_Version := HTTP10;
               req_Headers := ∅; req_Body := "" |}))
    (fun resp => resp_Version resp = HTTP11).
Proof.
  eapply emits_weaken;
    [|apply (table_responses_are_stamped emptyWorld ":8080" NewHTTP11Config); done].
  by intros resp [Hv _].
Defined.

Lemma http10_serves_one_request_witness :
  exists c n,
    handleConnection emptyWorld (NewServerWithVersion emptyWorld ":8080" NewHTTP10Config)
      lowercaseCloseConn = Some (c, n)
    /\ (0 <= n <= 1)%Z
    /\ (written c = written lowercaseCloseConn
        \/ exists resp, written c = written lowercaseCloseConn ++ [resp] /\ closing resp).
Proof.
  by apply (http10_serves_one_request emptyWorld ":8080" NewHTTP10Config).
Defined.

(** ** More on the compression middleware *)

Section CompressMore.

Context (w : World).

(** X9: [CompressResponse] keeps the status and the version; it either
    keeps the body, or replaces it by a strictly shorter gzip encoding of a
    body of at least [minSizeForCompression] bytes, for a client that accepts
    gzip, and then says so in [Content-Encoding] and [Content-Length]. *)
Theorem CompressResponse_never_enlarges resp req :
  let resp' := CompressResponse w resp req in
  resp_StatusCode resp' = resp_StatusCode resp
  /\ resp_Version resp' = resp_Version resp
  /\ (resp_Body resp' = resp_Body resp
      \/ (acceptsGzip (header (req_Headers req) "Accept-Encoding") = true
          /\ (minSizeForCompression <= GoStrings.len (resp_Body resp))%Z
          /\ (GoStrings.len (resp_Body resp') < GoStrings.len (resp_Body resp))%Z
          /\ compressContent w (resp_Body resp) = Some (resp_Body resp')
          /\ resp_Headers resp' !! "Content-Encoding" = Some "gzip"
          /\ resp_Headers resp' !! "Content-Length"
             = Some (GoStrconv.FormatInt (GoStrings.len (resp_Body resp'))))).
Proof.
  cbv zeta. split; [apply resp_StatusCode_CompressResponse|].
  split; [apply resp_Version_CompressResponse|].
  unfold CompressResponse.
  case_decide; [by left|].
  destruct (negb _); [by left|]. cbv zeta.
  destruct (acceptsGzip _) eqn:Hgzip; cbn [andb negb]; [|by case_match; left].
  destruct (shouldCompress _) eqn:Hshould; cbn [andb negb]; [|by left].
  destruct (minSizeForCompression <=? _)%Z eqn:Hmin; cbn [negb]; [|by left].
  destruct (compressContent w (resp_Body resp)) as [compressed|] eqn:Hc; [|by left].
  destruct (GoStrings.len (resp_Body resp) <=? GoStrings.len compressed)%Z eqn:Hlen;
    [by left|].
  right. cbn [resp_Body resp_Headers setHeader setBody].
  repeat split; try done; try lia.
  - by rewrite lookup_insert_ne, lookup_insert_ne, lookup_insert_eq.
  - by rewrite lookup_insert_ne, lookup_insert_eq.
Qed.

(** X10: what follows the first [;] of a content type plays no part in the
    decision to compress. *)
Theorem shouldCompress_ignores_parameters contentType parameters :
  GoStrings.IndexByte contentType ";" = None ->
  shouldCompress (contentType +:+ String ";" parameters) = shouldCompress contentType.
Proof.
  intros Hct. unfold shouldCompress. cbv zeta.
  rewrite Split_at by done. by rewrite (Split_without contentType).
Qed.

Lemma CompressResponse_length_header r req :
  resp_Headers r !! "Content-Length" = None ->
  (resp_Body (CompressResponse w r req) = resp_Body r ->
   resp_Headers (CompressResponse w r req) !! "Content-Length" = None)
  /\ (resp_Body (CompressResponse w r req) ≠ resp_Body r ->
      resp_Headers (CompressResponse w r req) !! "Content-Length"
      = Some (GoStrconv.FormatInt (GoStrings.len (resp_Body (CompressResponse w r req))))).
Proof.
  intros Hnone. unfold CompressResponse.
  repeat case_match; cbn [resp_Body resp_Headers setHeader setBody]; split; intros Heq;
    rewrite ?lookup_insert_ne by done; try done.
  all: try (exfalso; subst; lia).
  all: by rewrite lookup_insert_eq.
Qed.

(** X11: a small file that is sent as it is carries no [Content-Length]
    header: [serveSmallFile] leaves the header to [CompressResponse], which
    sets it only when it replaces the body. *)
Theorem small_file_length_header conn filePath fileSize modTime version req keepAlive n
    content :
  os_ReadFile w filePath = Some content ->
  writeResults conn = [] ->
  answers conn
    (out_conn (serveSmallFile w conn filePath fileSize modTime version req keepAlive n))
    (fun resp =>
       resp_StatusCode resp = 200%Z
       /\ (resp_Body resp = content -> resp_Headers resp !! "Content-Length" = None)
       /\ (resp_Body resp ≠ content ->
           resp_Headers resp !! "Content-Length"
           = Some (GoStrconv.FormatInt (GoStrings.len (resp_Body resp))))).
Proof.
  intros Hread Hwrite. unfold serveSmallFile. rewrite Hread. cbn [out_conn after sent].
  cbv zeta. apply answers_Write; [done|].
  rewrite resp_StatusCode_CompressResponse, resp_StatusCode_setConnectionHeaders.
  split; [done|].
  match goal with
  | |- context [CompressResponse w ?r req] =>
      assert (resp_Body r = content) as Hbody by (by destruct keepAlive);
      pose proof (CompressResponse_length_header r req) as Hlen
  end.
  rewrite Hbody in Hlen. apply Hlen.
  destruct keepAlive; cbn [setConnectionHeaders resp_Headers setHeader NewResponse];
    by rewrite ?lookup_insert_ne.
Qed.

End CompressMore.

Lemma shouldCompress_ignores_parameters_witness :
  shouldCompress ("text/html" +:+ String ";" " charset=utf-8") = shouldCompress "text/html".
Proof. by apply shouldCompress_ignores_parameters. Defined.

Lemma small_file_length_header_witness :
  answers (connOf [])
    (out_conn (serveSmallFile (oneFileWorld jan2006) (connOf []) "public/static/a.txt" 5
                 jan2006 HTTP11 (rangeRequest "") true 5))
    (fun resp => resp_StatusCode resp = 200%Z).
Proof.
  destruct (small_file_length_header (oneFileWorld jan2006) (connOf [])
              "public/static/a.txt" 5 jan2006 HTTP11 (rangeRequest "") true 5 "hello"
              eq_refl eq_refl) as (resp & Hw & Hs & _).
  by exists resp.
Defined.

Section Ranges416.

Context (w : World) (addr : string) (cfg : ProtocolConfig).

Local Abbreviation s := (NewServerWithVersion w addr cfg).

(** X12: a range that cannot be satisfied ends the connection although the
    416 response announces that it is kept open: [serveLargeFile] sets the
    keep-alive headers and then returns the parse error, on which
    [handleConnection] returns. *)
Theorem unsatisfiable_range_ends_connection conn count request info file err :
  let path := hd "" (GoStrings.Split (req_Path request) "?") in
  let filePath := Join "./public" (Clean path) in
  HandlerNeedsStreaming (handler s) request = true ->
  keeps s request count = true ->
  writeResults conn = [] ->
  GoStrings.Contains (Clean path) ".." = false ->
  os_Stat w filePath = StatInfo info ->
  fi_IsDir info = false ->
  (MaxInMemorySize < fi_Size info)%Z ->
  header (req_Headers request) "If-Modified-Since" = "" ->
  os_Open w filePath = Some file ->
  header (req_Headers request) "Range" ≠ "" ->
  parseRangeHeader (header (req_Headers request) "Range") (fi_Size info) = Err err ->
  snd (serveRequest w s conn count request) = false
  /\ answers conn (fst (serveRequest w s conn count request))
       (fun resp =>
          resp_StatusCode resp = 416%Z
          /\ announces true (maxRequests - count) resp).
Proof.
  intros path filePath Hstream Hkeep Hwrite Hdots Hstat Hfile Hbig Hims Hopen Hrange Herr.
  unfold serveRequest. rewrite Hstream. cbv zeta. fold (keeps s request count).
  rewrite Hkeep.
  unfold HandleStream, RouteStream.
  cbn [handler NewServerWithVersion router NewHTTPHandler streamHandler SetStreamHandler].
  unfold HandleStaticFileStream, ServeFileStream. cbv zeta. cbn [root NewFileServer].
  fold path. rewrite Hdots. fold filePath. rewrite Hstat, Hfile.
  rewrite serveResolved_large by done.
  unfold serveLargeFile. rewrite Hopen, decide_False by done. rewrite Herr. cbv zeta.
  unfold Write. rewrite Hwrite. cbn [out_err out_conn after sent fst snd].
  split; [done|]. eexists. split; [reflexivity|].
  split; [done|]. split; cbn [resp_Headers setConnectionHeaders setHeader];
    by rewrite ?lookup_insert_ne by done; rewrite lookup_insert_eq.
Qed.

End Ranges416.

Section Routes.

Context (w : World).

Lemma IndexByte_app_sep x c y : GoStrings.IndexByte (x +:+ String c y) c ≠ None.
Proof.
  induction x as [|d x IH]; simpl; [by rewrite Ascii.eqb_refl|].
  rewrite ?str_app_cons. simpl. destruct (Ascii.eqb d c); [done|].
  by destruct (GoStrings.IndexByte (x +:+ String c y) c).
Qed.

(** A key [METHOD:PATH] without a second colon gives the method and the
    path back. *)
Lemma key_inj c m p a b :
  GoStrings.IndexByte a c = None -> GoStrings.IndexByte b c = None ->
  m +:+ String c p = a +:+ String c b -> m = a /\ p = b.
Proof.
  revert m. induction a as [|x a IH]; intros m Ha Hb Heq.
  - destruct m as [|y m]; [by simplify_eq|].
    rewrite str_app_nil_l, str_app_cons in Heq. simplify_eq.
    by destruct (IndexByte_app_sep m c p).
  - simpl in Ha. destruct (Ascii.eqb_spec x c) as [->|Hx]; [done|].
    destruct (GoStrings.IndexByte a c) eqn:Hi; [done|].
    destruct m as [|y m].
    + rewrite str_app_nil_l, str_app_cons in Heq. by simplify_eq.
    + rewrite !str_app_cons in Heq. simplify_eq.
      destruct (IH m eq_refl Hb) as [-> ->]; done.
Qed.

Lemma key_ne (m p a b : string) :
  GoStrings.IndexByte a ":" = None -> GoStrings.IndexByte b ":" = None ->
  (m, p) ≠ (a, b) -> a +:+ ":" +:+ b ≠ m +:+ ":" +:+ p.
Proof.
  intros Ha Hb Hne Heq. apply Hne. symmetry in Heq.
  change (":" +:+ p) with (String ":" p) in Heq.
  change (":" +:+ b) with (String ":" b) in Heq.
  by destruct (key_inj ":" m p a b Ha Hb Heq) as [-> ->].
Qed.

(** X13: the route table answers every request but those for its six routes
    with the same 404; in particular every method other than GET and POST,
    and HEAD for the pages of the table. *)
Theorem unknown_routes_get_404 req :
  (req_Method req, req_Path req) ∉ routeTable ->
  Handle (NewHTTPHandler w) req = pageNotFound req.
Proof.
  intros Hnot. unfold Handle, Route, NewHTTPHandler. cbv zeta.
  cbn [router routes RegisterRoute SetStreamHandler NewRouter].
  unfold routeTable in Hnot. rewrite !not_elem_of_cons in Hnot.
  destruct Hnot as (H1 & H2 & H3 & H4 & H5 & H6 & _).
  rewrite !lookup_insert_ne by (by apply key_ne).
  by rewrite lookup_empty.
Qed.

End Routes.

Lemma unknown_routes_get_404_witness :
  Handle (NewHTTPHandler emptyWorld) (withMethod "HEAD" (conditionalRequest "/hello"))
  = pageNotFound (withMethod "HEAD" (conditionalRequest "/hello")).
Proof.
  apply unknown_routes_get_404. unfold routeTable. rewrite !not_elem_of_cons.
  repeat split; try done. apply not_elem_of_nil.
Defined.

Lemma unsatisfiable_range_ends_connection_witness :
  snd (serveRequest bigWorld (NewServerWithVersion bigWorld ":8080" NewHTTP11Config)
         (connOf []) 1 (rangeRequest "bytes=5-1")) = false.
Proof.
  refine (proj1 (unsatisfiable_range_ends_connection bigWorld ":8080" NewHTTP11Config
                   (connOf []) 1 (rangeRequest "bytes=5-1") bigFileInfo bigFile
                   (Errorf "range out of bounds") _ _ _ _ _ _ _ _ _ _ _)).
  - reflexivity.
  - by vm_compute.
  - reflexivity.
  - by vm_compute.
  - reflexivity.
  - reflexivity.
  - reflexivity.
  - by vm_compute.
  - reflexivity.
  - by vm_compute.
  - by vm_compute.
Defined.

(** ** The size limits of the parser *)

Section ParserLimits.

Lemma readHeaders_limits pending allData :
  Forall (fun chunk => (GoStrings.len chunk <= bufferSize)%Z) pending ->
  (GoStrings.len allData <= MaxHeaderSize)%Z ->
  readHeaders pending allData ≠ Err (Errorf "request size exceeded limit")
  /\ forall d rest, readHeaders pending allData = Ok (d, rest) ->
       (GoStrings.len d <= MaxHeaderSize + bufferSize)%Z.
Proof.
  revert allData. induction pending as [|chunk pending IH]; intros allData Hwf Hacc.
  { by split. }
  apply Forall_cons in Hwf as [Hchunk Hwf]. cbn [readHeaders]. cbv zeta.
  pose proof (len_app allData chunk) as Hlen.
  unfold MaxRequestSize, MaxHeaderSize, bufferSize in *.
  destruct (1048576 <? GoStrings.len (allData +:+ chunk))%Z eqn:Hmax; [lia|].
  destruct (16384 <? GoStrings.len (allData +:+ chunk))%Z eqn:Hhead.
  - destruct (GoStrings.Contains (allData +:+ chunk) CRLFCRLF); cbn [negb andb].
    + split; [done|]. intros d rest Heq. simplify_eq. lia.
    + by split.
  - cbn [andb].
    destruct (GoStrings.Contains (allData +:+ chunk) CRLFCRLF).
    { split; [done|]. intros d rest Heq. simplify_eq. lia. }
    destruct (GoStrings.Contains (allData +:+ chunk) LFLF).
    { split; [done|]. intros d rest Heq. simplify_eq. lia. }
    apply IH; [done|lia].
Qed.

Lemma readBody_error pending body n e : readBody pending body n = Err e -> e = IOError.
Proof.
  revert body. induction pending as [|chunk pending IH]; intros body; simpl.
  - case_match; intros Heq; by simplify_eq.
  - case_match; [apply IH|done].
Qed.

(** X14: on a connection whose reads give at most 4096 bytes each, as those
    of [ParseRequest] do, the check of the total request size never fires:
    the header check stops the loop first. *)
Theorem request_size_check_never_fires conn :
  conn_wf conn -> ParseRequest conn ≠ Err (Errorf "request size exceeded limit").
Proof.
  intros Hwf. unfold ParseRequest.
  destruct (readHeaders_limits (pending conn) "" Hwf) as [Hne _]; [done|].
  destruct (readHeaders (pending conn) "") as [[allData pending1]|e] eqn:Hh;
    [|congruence].
  repeat case_match; try done.
  intros Heq. simplify_eq.
  match goal with
  | H : readBody _ _ _ = Err _ |- _ => by apply readBody_error in H
  end.
Qed.

(** X15: the bytes read for the header block are at most [MaxHeaderSize] and
    one more read. *)
Theorem header_block_is_bounded conn allData rest :
  conn_wf conn ->
  readHeaders (pending conn) "" = Ok (allData, rest) ->
  (GoStrings.len allData <= MaxHeaderSize + bufferSize)%Z.
Proof.
  intros Hwf Hread.
  destruct (readHeaders_limits (pending conn) "" Hwf) as [_ Hbound]; [done|].
  by apply (Hbound allData rest).
Qed.

End ParserLimits.

Lemma conn_wf_traversalConn : conn_wf traversalConn.
Proof. unfold conn_wf, traversalConn, connOf. cbn [pending]. constructor; [by vm_compute|constructor]. Qed.

Lemma request_size_check_never_fires_witness :
  ParseRequest traversalConn ≠ Err (Errorf "request size exceeded limit").
Proof. apply request_size_check_never_fires, conn_wf_traversalConn. Defined.

Lemma header_block_is_bounded_witness :
  (GoStrings.len (requestBytes ["GET /static/../etc/passwd HTTP/1.1"; "Host: x"] "")
   <= MaxHeaderSize + bufferSize)%Z.
Proof.
  apply (header_block_is_bounded traversalConn _ []); [apply conn_wf_traversalConn|].
  by vm_compute.
Defined.

(** ** Addresses *)

Section Addresses.

Lemma LastIndexByte_None s c :
  GoStrings.IndexByte s c = None -> LastIndexByte s c = None.
Proof.
  induction s as [|d s IH]; simpl; [done|].
  destruct (Ascii.eqb d c); [done|].
  destruct (GoStrings.IndexByte s c); [done|]. intros _. by rewrite IH.
Qed.

Lemma LastIndexByte_app host c port :
  GoStrings.IndexByte port c = None ->
  LastIndexByte (host +:+ String c port) c = Some (String.length host).
Proof.
  intros Hport. induction host as [|d host IH].
  - rewrite str_app_nil_l. simpl. by rewrite LastIndexByte_None, Ascii.eqb_refl.
  - rewrite str_app_cons. cbn [LastIndexByte String.length]. by rewrite IH.
Qed.

Lemma slice_to_length a b : GoStrings.slice_to (String.length a) (a +:+ b) = a.
Proof. induction a as [|c a IH]; [by destruct b|]. rewrite str_app_cons. simpl. by rewrite IH. Qed.

Lemma slice_from_length a c b :
  GoStrings.slice_from (S (String.length a)) (a +:+ String c b) = b.
Proof. induction a as [|d a IH]; [done|]. rewrite str_app_cons. simpl. exact IH. Qed.

Lemma digits_IndexByte v acc n c :
  GoStrconv.parseDigits acc v = Some n -> GoStrconv.digitVal c = None ->
  GoStrings.IndexByte v c = None.
Proof.
  revert acc. induction v as [|d v IH]; intros acc Hparse Hc; [done|]. simpl in *.
  destruct (GoStrconv.digitVal d) as [x|] eqn:Hd; [|done].
  destruct (Ascii.eqb_spec d c) as [->|_]; [congruence|].
  by rewrite (IH _ Hparse Hc).
Qed.

(** X16: an address printed by [String] is read back by [ResolveTCPAddr]:
    the host is everything before the last colon, so hosts with colons are
    kept whole, and an empty host becomes [0.0.0.0]. *)
Theorem ResolveTCPAddr_String host port :
  (0 <= port <= GoStrconv.maxInt64)%Z ->
  ResolveTCPAddr "tcp" (String_ (Some {| IP := host; Port := port; Zone := "" |}))
  = Ok {| IP := if decide (host = "") then "0.0.0.0" else host;
          Port := port; Zone := "" |}.
Proof.
  intros Hport. unfold ResolveTCPAddr, String_, splitHostPort. cbn [IP Port andb negb].
  change (String.eqb "tcp" "tcp") with true. cbn [negb andb].
  change (":" +:+ GoStrconv.FormatInt port) with (String ":" (GoStrconv.FormatInt port)).
  pose proof (decimalValue_FormatInt port (proj1 Hport)) as Hdec.
  assert (GoStrings.IndexByte (GoStrconv.FormatInt port) ":" = None) as Hcolon.
  { unfold decimalValue in Hdec. destruct (GoStrconv.FormatInt port) eqn:Hf; [done|].
    by apply (digits_IndexByte _ 0%Z port). }
  rewrite LastIndexByte_app by done. cbv zeta.
  rewrite slice_to_length, slice_from_length. unfold Atoi.
  rewrite (ParseInt_decimal _ port Hdec).
  destruct (Z.leb_spec port GoStrconv.maxInt64); [|lia].
  destruct (decide (host = "")); [done|]. by rewrite decide_False.
Qed.

End Addresses.

Lemma ResolveTCPAddr_String_witness :
  ResolveTCPAddr "tcp" (String_ (Some {| IP := "127.0.0.1"; Port := 8080; Zone := "" |}))
  = Ok {| IP := "127.0.0.1"; Port := 8080; Zone := "" |}.
Proof. by apply (ResolveTCPAddr_String "127.0.0.1" 8080). Defined.

Section AddressResults.

(** X17: an address that [ResolveTCPAddr] returns has a host and no zone:
    [splitHostPort] already replaces the empty host, so the second
    replacement in [ResolveTCPAddr] finds nothing to do. *)
Theorem ResolveTCPAddr_host network address a :
  ResolveTCPAddr network address = Ok a ->
  IP a ≠ "" /\ Zone a = ""
  /\ exists host port, splitHostPort address = Ok (host, port) /\ IP a = host.
Proof.
  unfold ResolveTCPAddr. case_match; [done|].
  destruct (splitHostPort address) as [[host portStr]|err] eqn:Hsplit; [|done].
  destruct (Atoi portStr) as [port|]; [|done]. cbv zeta. intros Heq. simplify_eq.
  cbn [IP Zone].
  assert (host ≠ "") as Hhost.
  { unfold splitHostPort in Hsplit. destruct (LastIndexByte address ":"); [|done].
    cbv zeta in Hsplit. simplify_eq. by case_decide. }
  rewrite decide_False by done. split; [done|]. split; [done|]. by exists host, portStr.
Qed.

End AddressResults.

Lemma ResolveTCPAddr_host_witness :
  IP {| IP := "0.0.0.0"; Port := 8080; Zone := "" |} ≠ "".
Proof.
  exact (proj1 (ResolveTCPAddr_host "tcp" ":8080"
                  {| IP := "0.0.0.0"; Port := 8080; Zone := "" |} eq_refl)).
Defined.

Section Encodings.

Lemma toLowerByte_idem c :
  GoStrings.toLowerByte (GoStrings.toLowerByte c) = GoStrings.toLowerByte c.
Proof. destruct c as [[] [] [] [] [] [] [] []]; reflexivity. Qed.

Lemma ToLower_idem s : GoStrings.ToLower (GoStrings.ToLower s) = GoStrings.ToLower s.
Proof. induction s as [|c s IH]; [done|]. simpl. by rewrite toLowerByte_idem, IH. Qed.

(** X18: [acceptsGzip] reads the header without regard to case. *)
Theorem acceptsGzip_ignores_case acceptEncoding :
  acceptsGzip (GoStrings.ToLower acceptEncoding) = acceptsGzip acceptEncoding.
Proof.
  unfold acceptsGzip. destruct acceptEncoding as [|c rest]; [done|].
  rewrite !decide_False by done. by rewrite ToLower_idem.
Qed.

End Encodings.

(** ** Parsing what was written *)

Section RoundTrip.




(** *** White space *)







(** *** Fields *)






(** *** One header line *)






(** *** The header block *)















End RoundTrip.


(** ** Writes that fail, writes that succeed *)

Section Writes.

Context (w : World) (addr : string) (cfg : ProtocolConfig).

Local Abbreviation s := (NewServerWithVersion w addr cfg).

Lemma Write_fails conn rest resp :
  writeResults conn = false :: rest ->
  Write conn resp
  = ({| pending := pending conn; written := written conn; writeResults := rest |},
     Some IOError).
Proof. intros H. unfold Write. by rewrite H. Qed.

Lemma Write_succeeds conn resp :
  writeResults conn = [] ->
  Write conn resp
  = ({| pending := pending conn; written := written conn ++ [resp]; writeResults := [] |},
     None).
Proof. intros H. unfold Write. by rewrite H. Qed.

Lemma ServeFileStream_write_fails fs req conn keepAlive n rest :
  writeResults conn = false :: rest ->
  out_err (ServeFileStream w fs req conn keepAlive n) = Some IOError
  /\ written (out_conn (ServeFileStream w fs req conn keepAlive n)) = written conn.
Proof.
  intros Hwr.
  unfold ServeFileStream, serveResolved, serveSmallFile, serveLargeFile, sendError,
    sendNotModified, sendFullFile, sendRangeFile.
  cbv zeta.
  repeat case_match; cbn [out_err out_conn sent after fst snd];
    repeat match goal with
           | H : Write conn _ = _ |- _ => rewrite (Write_fails conn rest) in H by done
           end;
    rewrite ?(Write_fails conn rest) by done; simplify_eq; done.
Qed.

(** X20: a write that fails ends the connection: whatever the request,
    nothing is recorded as sent and the loop is left. *)
Theorem failed_write_ends_connection conn count request rest :
  writeResults conn = false :: rest ->
  snd (serveRequest w s conn count request) = false
  /\ written (fst (serveRequest w s conn count request)) = written conn.
Proof.
  intros Hwr. unfold serveRequest. cbv zeta.
  destruct (HandlerNeedsStreaming (handler s) request).
  - unfold HandleStream, RouteStream.
    cbn [handler NewServerWithVersion router NewHTTPHandler streamHandler SetStreamHandler].
    unfold HandleStaticFileStream.
    match goal with
    | |- context [ServeFileStream w ?fs request conn ?k ?n] =>
        destruct (ServeFileStream_write_fails fs request conn k n rest Hwr) as [-> Hsame]
    end.
    done.
  - case_match. unfold WriteResponse. cbv zeta. by rewrite (Write_fails conn rest).
Qed.

Lemma ServeFileStream_write_succeeds fs req conn keepAlive n :
  writeResults conn = [] ->
  exists resp,
    written (out_conn (ServeFileStream w fs req conn keepAlive n)) = written conn ++ [resp]
    /\ writeResults (out_conn (ServeFileStream w fs req conn keepAlive n)) = []
    /\ pending (out_conn (ServeFileStream w fs req conn keepAlive n)) = pending conn.
Proof.
  intros Hwr.
  unfold ServeFileStream, serveResolved, serveSmallFile, serveLargeFile, sendError,
    sendNotModified, sendFullFile, sendRangeFile.
  cbv zeta.
  repeat case_match; cbn [out_err out_conn sent after fst snd];
    repeat match goal with
           | H : Write conn _ = _ |- _ => rewrite (Write_succeeds conn) in H by done
           end;
    rewrite ?(Write_succeeds conn) by done; simplify_eq;
    cbn [written writeResults pending fst]; eauto.
Qed.

Lemma serveRequest_write_succeeds conn count request :
  writeResults conn = [] ->
  exists resp,
    written (fst (serveRequest w s conn count request)) = written conn ++ [resp]
    /\ writeResults (fst (serveRequest w s conn count request)) = []
    /\ pending (fst (serveRequest w s conn count request)) = pending conn.
Proof.
  intros Hwr. unfold serveRequest. cbv zeta.
  destruct (HandlerNeedsStreaming (handler s) request).
  - unfold HandleStream, RouteStream.
    cbn [handler NewServerWithVersion router NewHTTPHandler streamHandler SetStreamHandler].
    unfold HandleStaticFileStream.
    match goal with
    | |- context [ServeFileStream w ?fs request conn ?k ?n] =>
        destruct (ServeFileStream_write_succeeds fs request conn k n Hwr)
          as (resp & Hw & Hr & Hp);
        destruct (out_err (ServeFileStream w fs request conn k n))
    end; [eauto|]. case_match; eauto.
  - case_match. unfold WriteResponse. cbv zeta. rewrite (Write_succeeds conn) by done.
    cbn [fst written writeResults pending]. eauto.
Qed.

Lemma handleLoop_answers fuel conn count c n :
  writeResults conn = [] ->
  handleLoop fuel w s conn count = Some (c, n) ->
  (count <= n)%Z
  /\ length (written c) = (length (written conn) + Z.to_nat (n - count))%nat.
Proof.
  revert conn count. induction fuel as [|fuel IH]; intros conn count Hwr Hloop; [done|].
  cbn [handleLoop] in Hloop.
  destruct (ParseRequest conn) as [[request conn1]|err] eqn:Hparse.
  - apply ParseRequest_progress in Hparse as (_ & Hw & Hr).
    rewrite Hwr in Hr.
    destruct (serveRequest_write_succeeds conn1 (count + 1)%Z request Hr)
      as (resp & Hw2 & Hr2 & _).
    destruct (serveRequest w s conn1 (count + 1) request) as [conn2 goOn].
    cbn [fst] in *. destruct goOn.
    + apply IH in Hloop as [Hle Hlen]; [|done]. split; [lia|].
      rewrite Hlen, Hw2, length_app, Hw. cbn [length]. lia.
    + simplify_eq. split; [lia|]. rewrite Hw2, length_app, Hw. cbn [length]. lia.
  - simplify_eq. split; [lia|]. rewrite Z.sub_diag. simpl. lia.
Qed.

(** X21: when no write fails, every request that [handleConnection] parses
    is answered by exactly one response. *)
Theorem every_request_is_answered conn c n :
  writeResults conn = [] ->
  handleConnection w s conn = Some (c, n) ->
  length (written c) = (length (written conn) + Z.to_nat n)%nat.
Proof.
  intros Hwr Hloop. unfold handleConnection in Hloop.
  apply handleLoop_answers in Hloop as [_ Hlen]; [|done]. by rewrite Z.sub_0_r in Hlen.
Qed.

End Writes.

Section SuffixRanges.

(** X22: a range without a first position -- the last bytes of the file,
    [bytes=-500] -- is refused like a malformed one. *)
Theorem suffix_range_is_refused spec fileSize :
  exists err, parseRangeHeader ("bytes=-" +:+ spec) fileSize = Err err.
Proof.
  change ("bytes=-" +:+ spec) with ("bytes=" +:+ String "-" spec).
  rewrite parseRangeHeader_parts, Split_sep_first.
  destruct (GoStrings.Split spec "-") as [|part1 [|? ?]]; cbn; eauto.
Qed.

End SuffixRanges.

Lemma failed_write_ends_connection_witness :
  snd (serveRequest emptyWorld (NewServerWithVersion emptyWorld ":8080" NewHTTP11Config)
         {| pending := []; written := []; writeResults := [false] |} 1
         (conditionalRequest "/hello")) = false.
Proof.
  exact (proj1 (failed_write_ends_connection emptyWorld ":8080" NewHTTP11Config
                  {| pending := []; written := []; writeResults := [false] |} 1
                  (conditionalRequest "/hello") [] eq_refl)).
Defined.

Lemma every_request_is_answered_witness :
  exists c n,
    handleConnection emptyWorld (NewServerWithVersion emptyWorld ":8080" NewHTTP11Config)
      traversalConn = Some (c, n)
    /\ length (written c) = (length (written traversalConn) + Z.to_nat n)%nat.
Proof.
  destruct (handleLoop_cap emptyWorld ":8080" NewHTTP11Config
              (S (length (pending traversalConn))) traversalConn 0)
    as (c & n & Hloop & _); [simpl; lia|done|].
  exists c, n. split; [exact Hloop|].
  by apply (every_request_is_answered emptyWorld ":8080" NewHTTP11Config traversalConn c n).
Defined.
